(** * openrecall/database.py: schema lifecycle and binary-vector persistence

    A shallow embedding of [src/openrecall/database.py]: the float32 vector
    codec used for the [embedding] column, a small model of the SQLite store
    the module talks to (tables, rows, the stored table definition, the
    autoincrement counter, transactions), and the four public functions
    [create_db], [get_all_entries], [get_timestamps] and [insert_entry]. *)

From Stdlib Require Import ZArith List String Ascii Bool Lia.
From Stdlib Require Import Floats.SpecFloat.
From Stdlib Require Import QArith Qpower.
From stdpp Require Import base gmap strings list sorting.

Local Open Scope Z_scope.

(** ** Python-level results

    A call either returns a value or raises an exception that reaches the
    caller.  [sqlite3.Error] never appears here: every function of the module
    catches it. *)

Inductive exn : Type :=
  | ValueError
  | TypeError
  | IndexError
  | OverflowError.

Inductive outcome (A : Type) : Type :=
  | Returned (a : A)
  | Raised (e : exn).
Arguments Returned {A} a.
Arguments Raised {A} e.

(** ** Vector codec *)

Module Codec.

(** A float32 array is the list of its elements, each the 32-bit IEEE-754
    pattern of the element; a [bytes] object is a list of octets. *)
Definition word32 : Type := Z.
Definition octet : Type := Z.

(** A 32-bit pattern: nothing above bit 31. *)
Definition is_word32 (w : Z) : Prop := Z.land w 0xFFFFFFFF = w.

(** An octet: nothing above bit 7. *)
Definition is_octet (b : Z) : Prop := Z.land b 0xFF = b.

Definition sign_bit (s : bool) : Z := if s then Z.shiftl 1 31 else 0.

(** The binary32 pattern of a number already rounded to binary32
    (precision 24, emax 128): subnormals have exponent -149 and a mantissa
    below 2^23, normal numbers carry the hidden bit.  The pattern is kept to
    32 bits. *)
Definition bits_of_binary32 (x : spec_float) : word32 :=
  Z.land
    (match x with
     | S754_zero s => sign_bit s
     | S754_infinity s => Z.lor (sign_bit s) 0x7f800000
     | S754_nan => 0x7fc00000
     | S754_finite s m e =>
         let m := Z.pos m in
         Z.lor (sign_bit s)
           (if m <? Z.shiftl 1 23 then m
            else Z.shiftl (e + 150) 23 + (m - Z.shiftl 1 23))
     end) 0xFFFFFFFF.

(** C cast from a wider binary format to float: round to nearest even. *)
Definition round_binary32 (x : spec_float) : spec_float :=
  match x with
  | S754_finite s m e => binary_round 24 128 s m e
  | _ => x
  end.

Definition float32_of_float64 (x : spec_float) : word32 :=
  bits_of_binary32 (round_binary32 x).

(** The float a 32-bit pattern stands for: the sign in bit 31, the biased
    exponent in bits 23 to 30, the fraction in bits 0 to 22. *)
Definition binary32_of_bits (w : word32) : spec_float :=
  let s := Z.testbit w 31 in
  let ex := Z.land (Z.shiftr w 23) 0xFF in
  let frac := Z.land w 0x7FFFFF in
  if ex =? 0 then
    match frac with
    | Z.pos m => S754_finite s m (-149)
    | _ => S754_zero s
    end
  else if ex =? 255 then
    (if frac =? 0 then S754_infinity s else S754_nan)
  else
    match frac + 0x800000 with
    | Z.pos m => S754_finite s m (ex - 150)
    | _ => S754_nan
    end.

(** The rational number [m * 2^e]. *)
Definition dyadic (m e : Z) : Q := (inject_Z m * 2 ^ e)%Q.

(** [d] is [x] within float32 precision.  A zero, an infinity or NaN is
    kept.  For a finite [x], of magnitude [m * 2^e], [d] has the sign of
    [x] and is
    - a finite float of magnitude [m' * 2^e'] at most half a unit in its
      last place away: [(m' - 1/2) * 2^e' <= m * 2^e <= (m' + 1/2) * 2^e'];
    - or a zero, while [x] is at most [2^-150], half the least float32;
    - or an infinity, while [x] is at least [2^128 - 2^103], half a unit
      above the largest float32. *)
Definition within_float32_precision (x d : spec_float) : Prop :=
  match x with
  | S754_finite s m e =>
      match d with
      | S754_finite s' m' e' =>
          s' = s /\
          (dyadic (2 * Z.pos m' - 1) (e' - 1) <= dyadic (Z.pos m) e)%Q /\
          (dyadic (Z.pos m) e <= dyadic (2 * Z.pos m' + 1) (e' - 1))%Q
      | S754_zero s' =>
          s' = s /\ (dyadic (Z.pos m) e <= dyadic 1 (-150))%Q
      | S754_infinity s' =>
          s' = s /\ (dyadic (2 ^ 25 - 1) 103 <= dyadic (Z.pos m) e)%Q
      | S754_nan => False
      end
  | _ => d = x
  end.

(** Both stand for the same number, or are the same zero, infinity or
    NaN. *)
Definition same_number (x d : spec_float) : Prop :=
  match x, d with
  | S754_finite s m e, S754_finite s' m' e' =>
      s = s' /\ (dyadic (Z.pos m) e == dyadic (Z.pos m') e')%Q
  | _, _ => x = d
  end.

(** The right shift of the cast after some steps, [P] being two to their
    number: the mantissa [m0] it started from is [shr_m * P + rem], and the
    round and sticky bits say where [rem] lies between 0 and [P]. *)
Definition shr_inv (m0 P : Z) (mrs : shr_record) : Prop :=
  exists rem,
    m0 = shr_m mrs * P + rem /\ 0 <= rem < P /\ 0 <= shr_m mrs /\
    shr_r mrs = (P <=? 2 * rem) /\
    shr_s mrs = negb (rem =? 0) && negb (2 * rem =? P).

(** C cast of a 64-bit integer to float: one rounding to nearest even. *)
Definition float32_of_int (z : Z) : word32 :=
  bits_of_binary32 (binary_normalize 24 128 z 0 false).

(** Elements of an object array. *)
Inductive pyobj : Type :=
  | PyFloat (x : spec_float)
  | PyInt (z : Z)
  | PyNone.

(** [float(z)] on a Python int: the nearest double, ties to even;
    OverflowError when that is beyond the largest double. *)
Definition float_of_int (z : Z) : outcome spec_float :=
  match binary_normalize 53 1024 z 0 false with
  | S754_infinity _ => Raised OverflowError
  | x => Returned x
  end.

(** The cast of one object to float32: None becomes NaN, any other object
    goes through [float(x)], whose error is the error of the cast, and the
    double is then cast to float. *)
Definition float32_of_pyobj (o : pyobj) : outcome word32 :=
  match o with
  | PyFloat x => Returned (float32_of_float64 x)
  | PyInt z =>
      match float_of_int z with
      | Returned x => Returned (float32_of_float64 x)
      | Raised e => Raised e
      end
  | PyNone => Returned (bits_of_binary32 S754_nan)
  end.

(** The [embedding] argument: a one-dimensional ndarray of some dtype. *)
Inductive ndarray : Type :=
  | Float64Array (xs : list spec_float)
  | Float32Array (xs : list word32)
  | Int64Array (xs : list Z)
  | ObjectArray (xs : list pyobj).

Definition size (a : ndarray) : nat :=
  match a with
  | Float64Array xs => length xs
  | Float32Array xs => length xs
  | Int64Array xs => length xs
  | ObjectArray xs => length xs
  end.

Fixpoint astype_objects (xs : list pyobj) : outcome (list word32) :=
  match xs with
  | [] => Returned []
  | o :: rest =>
      match float32_of_pyobj o with
      | Raised e => Raised e
      | Returned w =>
          match astype_objects rest with
          | Raised e => Raised e
          | Returned ws => Returned (w :: ws)
          end
      end
  end.

(** [embedding.astype(np.float32)] *)
Definition astype_float32 (a : ndarray) : outcome (list word32) :=
  match a with
  | Float64Array xs => Returned (map float32_of_float64 xs)
  | Float32Array xs => Returned (map (fun w => Z.land w 0xFFFFFFFF) xs)
  | Int64Array xs => Returned (map float32_of_int xs)
  | ObjectArray xs => astype_objects xs
  end.

(** Little-endian packing of one element, and its inverse. *)
Definition word_to_bytes (w : word32) : list octet :=
  [ Z.land w 0xFF;
    Z.land (Z.shiftr w 8) 0xFF;
    Z.land (Z.shiftr w 16) 0xFF;
    Z.land (Z.shiftr w 24) 0xFF ].

Definition word_of_bytes (b0 b1 b2 b3 : octet) : word32 :=
  Z.lor (Z.lor b0 (Z.shiftl b1 8)) (Z.lor (Z.shiftl b2 16) (Z.shiftl b3 24)).

(** [arr.tobytes()] on a float32 array *)
Definition tobytes (ws : list word32) : list octet :=
  flat_map word_to_bytes ws.

(** Reading consecutive 4-byte groups; [None] when a group is incomplete. *)
Fixpoint words_of_bytes (bs : list octet) : option (list word32) :=
  match bs with
  | [] => Some []
  | b0 :: b1 :: b2 :: b3 :: rest =>
      match words_of_bytes rest with
      | Some ws => Some (word_of_bytes b0 b1 b2 b3 :: ws)
      | None => None
      end
  | _ => None
  end.

(** [np.frombuffer(buf, dtype=np.float32)] on a bytes object: numpy raises
    ValueError when the buffer size is not a multiple of the element size. *)
Definition frombuffer (bs : list octet) : outcome (list word32) :=
  if (Z.of_nat (length bs) mod 4 =? 0)
  then match words_of_bytes bs with
       | Some ws => Returned ws
       | None => Raised ValueError
       end
  else Raised ValueError.

(** The encoding step of [insert_entry], line 178. *)
Definition encode (a : ndarray) : outcome (list octet) :=
  match astype_float32 a with
  | Returned ws => Returned (tobytes ws)
  | Raised e => Raised e
  end.

End Codec.

(** ** The SQLite store

    Only what the module's statements exercise is modelled: the storage
    classes NULL, INTEGER, TEXT and BLOB (values are stored as bound; column
    affinity conversions are not modelled), tables with their stored
    definition text, UNIQUE columns, an INTEGER PRIMARY KEY AUTOINCREMENT
    column aliasing the rowid, indexes, and the [sqlite_sequence] counters.
    Object and column names are compared exactly. *)

Module Sqlite.

Inductive value : Type :=
  | VNull
  | VInt (z : Z)
  | VText (s : string)
  | VBlob (b : list Codec.octet).

#[global] Instance value_eq_dec : EqDecision value.
Proof. solve_decision. Defined.

Inductive sqlerr : Type :=
  | OperationalError
  | IntegrityError.

(** *** Ordering of values (ORDER BY): NULL < INTEGER < TEXT < BLOB, text and
    blobs compared bytewise. *)

Fixpoint lex_leb (a b : list Z) : bool :=
  match a, b with
  | [], _ => true
  | _ :: _, [] => false
  | x :: a', y :: b' => (x <? y) || ((x =? y) && lex_leb a' b')
  end.

Definition text_codes (s : string) : list Z :=
  map (fun c => Z.of_N (N_of_ascii c)) (list_ascii_of_string s).

Definition value_leb (v w : value) : bool :=
  match v, w with
  | VNull, _ => true
  | VInt _, VNull => false
  | VInt a, VInt b => a <=? b
  | VInt _, _ => true
  | VText _, (VNull | VInt _) => false
  | VText a, VText b => lex_leb (text_codes a) (text_codes b)
  | VText _, VBlob _ => true
  | VBlob a, VBlob b => lex_leb a b
  | VBlob _, _ => false
  end.

(** [v] comes no later than [w] under ORDER BY ... DESC. *)
Definition value_ge (v w : value) : Prop := value_leb w v = true.

#[global] Instance value_ge_dec : RelDecision value_ge.
Proof. intros v w. unfold value_ge. apply _. Defined.

(** *** Schema objects *)

Record coldef : Type := mk_col {
  col_name : string;
  col_type : string;
  col_unique : bool    (* UNIQUE *)
}.

(** One stored row: its rowid and one cell per column.  The cell of the
    INTEGER PRIMARY KEY column is not consulted: reading that column yields
    the rowid. *)
Record row : Type := mk_row {
  row_id : Z;
  row_cells : list value
}.

(** A table: the text between the parentheses of its CREATE TABLE statement
    as kept in [sqlite_master], its columns, the name of its INTEGER PRIMARY
    KEY AUTOINCREMENT column if it declares one, and its rows in native
    order. *)
Record table : Type := mk_table {
  tbl_body : string;
  tbl_cols : list coldef;
  tbl_pk : option string;
  tbl_rows : list row
}.

Record index : Type := mk_index {
  idx_table : string;
  idx_column : string
}.

Record database : Type := mk_db {
  db_tables : gmap string table;
  db_indexes : gmap string index;
  db_seq : gmap string Z          (* sqlite_sequence *)
}.

#[global] Instance coldef_eq_dec : EqDecision coldef.
Proof. solve_decision. Defined.
#[global] Instance row_eq_dec : EqDecision row.
Proof. solve_decision. Defined.
#[global] Instance table_eq_dec : EqDecision table.
Proof. solve_decision. Defined.
#[global] Instance index_eq_dec : EqDecision index.
Proof. solve_decision. Defined.
#[global] Instance database_eq_dec : EqDecision database.
Proof. solve_decision. Defined.

Definition empty_db : database := mk_db ∅ ∅ ∅.

Definition stored_sql (name : string) (t : table) : string :=
  ("CREATE TABLE " ++ name ++ " (" ++ tbl_body t ++ ")")%string.

Definition col_names (t : table) : list string := map col_name (tbl_cols t).

Fixpoint col_index (cols : list coldef) (c : string) : option nat :=
  match cols with
  | [] => None
  | d :: rest =>
      if String.eqb (col_name d) c then Some 0%nat
      else S <$> col_index rest c
  end.

Definition has_column (t : table) (c : string) : bool :=
  bool_decide (is_Some (col_index (tbl_cols t) c)).

(** Reading column [c] of row [r]. *)
Definition is_pk (t : table) (c : string) : bool :=
  bool_decide (tbl_pk t = Some c).

Definition cell (t : table) (r : row) (c : string) : value :=
  match col_index (tbl_cols t) c with
  | Some i =>
      if is_pk t c then VInt (row_id r)
      else default VNull (row_cells r !! i)
  | None => VNull
  end.

(** *** Statement results *)

Inductive result (A : Type) : Type :=
  | Ok (a : A)
  | Err (e : sqlerr).
Arguments Ok {A} a.
Arguments Err {A} e.

Definition name_taken (db : database) (n : string) : bool :=
  bool_decide (is_Some (db_tables db !! n))
  || bool_decide (is_Some (db_indexes db !! n)).

(** ALTER TABLE old RENAME TO new: the table's indexes and its
    [sqlite_sequence] row follow it. *)
Definition alter_table_rename (old new : string) (db : database)
  : result database :=
  match db_tables db !! old with
  | None => Err OperationalError
  | Some t =>
      if name_taken db new then Err OperationalError
      else Ok (mk_db
                 (<[new := t]> (delete old (db_tables db)))
                 ((fun ix => if String.eqb (idx_table ix) old
                             then mk_index new (idx_column ix) else ix)
                    <$> db_indexes db)
                 (match db_seq db !! old with
                  | Some n => <[new := n]> (delete old (db_seq db))
                  | None => db_seq db
                  end))
  end.

(** CREATE TABLE [IF NOT EXISTS] name (body) *)
Definition create_table (if_not_exists : bool) (name body : string)
    (cols : list coldef) (pk : option string) (db : database)
  : result database :=
  if bool_decide (is_Some (db_tables db !! name))
  then (if if_not_exists then Ok db else Err OperationalError)
  else if bool_decide (is_Some (db_indexes db !! name))
  then Err OperationalError
  else Ok (mk_db (<[name := mk_table body cols pk []]> (db_tables db))
                 (db_indexes db) (db_seq db)).

(** DROP TABLE name: its indexes and its [sqlite_sequence] row go too. *)
Definition drop_table (name : string) (db : database) : result database :=
  match db_tables db !! name with
  | None => Err OperationalError
  | Some _ =>
      Ok (mk_db (delete name (db_tables db))
                (filter (fun kv => idx_table (snd kv) <> name) (db_indexes db))
                (delete name (db_seq db)))
  end.

(** CREATE INDEX [IF NOT EXISTS] iname ON tname (col) *)
Definition create_index (if_not_exists : bool) (iname tname col : string)
    (db : database) : result database :=
  match db_tables db !! tname with
  | None => Err OperationalError
  | Some t =>
      if bool_decide (is_Some (db_tables db !! iname))
      then Err OperationalError
      else if bool_decide (is_Some (db_indexes db !! iname))
      then (if if_not_exists then Ok db else Err OperationalError)
      else if has_column t col
      then Ok (mk_db (db_tables db)
                     (<[iname := mk_index tname col]> (db_indexes db))
                     (db_seq db))
      else Err OperationalError
  end.

(** ALTER TABLE tname ADD COLUMN coltext: existing rows read NULL in the
    new column. *)
Definition alter_table_add_column (tname : string) (c : coldef)
    (coltext : string) (db : database) : result database :=
  match db_tables db !! tname with
  | None => Err OperationalError
  | Some t =>
      if has_column t (col_name c) then Err OperationalError
      else Ok (mk_db
                 (<[tname := mk_table (tbl_body t ++ ", " ++ coltext)%string
                                      (tbl_cols t ++ [c]) (tbl_pk t)
                                      (tbl_rows t)]>
                    (db_tables db))
                 (db_indexes db) (db_seq db))
  end.

(** Rows of [t] under ORDER BY col DESC (ties in an order the store does
    not specify; here the one the merge sort leaves). *)
Definition row_ge (t : table) (c : string) (r1 r2 : row) : Prop :=
  value_ge (cell t r1 c) (cell t r2 c).

#[global] Instance row_ge_dec t c : RelDecision (row_ge t c).
Proof. intros r1 r2. unfold row_ge. apply _. Defined.

Definition order_by_desc (t : table) (c : string) : list row :=
  merge_sort (row_ge t c) (tbl_rows t).

(** SELECT cs FROM tname [ORDER BY c DESC] [LIMIT n] *)
Definition select_rows (cs : list string) (tname : string)
    (order_desc : option string) (limit : option nat) (db : database)
  : result (list (list value)) :=
  match db_tables db !! tname with
  | None => Err OperationalError
  | Some t =>
      if forallb (has_column t) cs
         && forallb (has_column t) (option_list order_desc)
      then
        let ordered := match order_desc with
                       | Some c => order_by_desc t c
                       | None => tbl_rows t
                       end in
        let limited := match limit with
                       | Some n => take n ordered
                       | None => ordered
                       end in
        Ok (map (fun r => map (cell t r) cs) limited)
      else Err OperationalError
  end.

(** SELECT sql FROM sqlite_master WHERE type='table' AND name=... *)
Definition select_master_sql (name : string) (db : database)
  : list (list value) :=
  match db_tables db !! name with
  | Some t => [[VText (stored_sql name t)]]
  | None => []
  end.

(** PRAGMA table_info(name): one row (cid, name, type, notnull, dflt_value,
    pk) per column, no row and no error for an unknown table. *)
Definition table_info_row (t : table) (cid : nat) (d : coldef)
  : list value :=
  [ VInt (Z.of_nat cid); VText (col_name d); VText (col_type d);
    VInt 0; VNull; VInt (if is_pk t (col_name d) then 1 else 0) ].

Definition pragma_table_info (name : string) (db : database)
  : list (list value) :=
  match db_tables db !! name with
  | Some t => imap (table_info_row t) (tbl_cols t)
  | None => []
  end.

(** *** Inserting one row *)

Definition int64_max : Z := 9223372036854775807.
Definition int64_min : Z := -9223372036854775808.

(** The value bound to column [c] by the column list [cs] and values [vs]. *)
Fixpoint given (cs : list string) (vs : list value) (c : string)
  : option value :=
  match cs, vs with
  | c' :: cs', v :: vs' =>
      if String.eqb c' c then Some v else given cs' vs' c
  | _, _ => None
  end.

Definition max_rowid (rows : list row) : Z :=
  fold_right Z.max 0 (map row_id rows).

(** The rowid an insert without an explicit key receives: one more than the
    largest rowid in the table and the largest ever recorded in
    [sqlite_sequence]; the store is full when that leaves the 64-bit range. *)
Definition fresh_rowid (seq : option Z) (rows : list row) : result Z :=
  let r := Z.max (default 0 seq) (max_rowid rows) + 1 in
  if r <=? int64_max then Ok r else Err OperationalError.

Definition choose_rowid (t : table) (seq : option Z)
    (cs : list string) (vs : list value) : result Z :=
  match tbl_pk t with
  | Some pk =>
      match given cs vs pk with
      | Some (VInt k) =>
          if bool_decide (k ∈ map row_id (tbl_rows t))
          then Err IntegrityError else Ok k
      | Some VNull | None => fresh_rowid seq (tbl_rows t)
      | Some _ => Err IntegrityError
      end
  | None => fresh_rowid seq (tbl_rows t)
  end.

(** A UNIQUE column rejects a non-NULL value already present in it. *)
Definition unique_conflict (t : table) (cs : list string) (vs : list value)
  : bool :=
  existsb
    (fun d =>
       col_unique d && negb (is_pk t (col_name d)) &&
       match given cs vs (col_name d) with
       | Some v =>
           negb (bool_decide (v = VNull)) &&
           existsb (fun r => bool_decide (cell t r (col_name d) = v))
                   (tbl_rows t)
       | None => false
       end)
    (tbl_cols t).

Definition new_cells (t : table) (cs : list string) (vs : list value)
  : list value :=
  map (fun d => if is_pk t (col_name d) then VNull
                else default VNull (given cs vs (col_name d)))
      (tbl_cols t).

Definition has_pk (t : table) : bool := bool_decide (is_Some (tbl_pk t)).

(** INSERT INTO name (cs) VALUES (vs); returns the new state and the rowid. *)
Definition insert_row (name : string) (cs : list string) (vs : list value)
    (db : database) : result (database * Z) :=
  match db_tables db !! name with
  | None => Err OperationalError
  | Some t =>
      if negb (forallb (has_column t) cs)
         || negb (length cs =? length vs)%nat
         || bool_decide (cs = [])
      then Err OperationalError
      else
        match choose_rowid t (db_seq db !! name) cs vs with
        | Err e => Err e
        | Ok rid =>
            if unique_conflict t cs vs then Err IntegrityError
            else
              let t' := mk_table (tbl_body t) (tbl_cols t) (tbl_pk t)
                          (tbl_rows t ++ [mk_row rid (new_cells t cs vs)]) in
              let seq' := if has_pk t
                          then <[name := Z.max (default 0 (db_seq db !! name)) rid]>
                                 (db_seq db)
                          else db_seq db in
              Ok (mk_db (<[name := t']> (db_tables db)) (db_indexes db) seq',
                  rid)
        end
  end.

(** INSERT INTO target (cs) SELECT cs FROM source: all rows or none. *)
Fixpoint insert_all (target : string) (cs : list string)
    (rows : list (list value)) (db : database) : result database :=
  match rows with
  | [] => Ok db
  | vs :: rest =>
      match insert_row target cs vs db with
      | Err e => Err e
      | Ok (db', _) => insert_all target cs rest db'
      end
  end.

Definition insert_select (target : string) (cs : list string)
    (source : string) (db : database) : result database :=
  match db_tables db !! target with
  | None => Err OperationalError
  | Some t =>
      if negb (forallb (has_column t) cs) || bool_decide (cs = [])
      then Err OperationalError
      else
        match select_rows cs source None None db with
        | Err e => Err e
        | Ok rows => insert_all target cs rows db
        end
  end.

(** *** Statements, as the module issues them *)

Inductive stmt : Type :=
  | SelectMasterSql (name : string)
  | AlterTableRename (old new : string)
  | CreateTable (if_not_exists : bool) (name body : string)
      (cols : list coldef) (pk : option string)
  | PragmaTableInfo (name : string)
  | InsertSelect (target : string) (cs : list string) (source : string)
  | DropTable (name : string)
  | CreateIndex (if_not_exists : bool) (iname tname col : string)
  | Select (cs : list string) (tname : string) (order_desc : option string)
      (limit : option nat)
  | AlterTableAddColumn (tname : string) (c : coldef) (coltext : string)
  | InsertValues (tname : string) (cs : list string) (vs : list value).

(** What a cursor holds after [execute]. *)
Record cursor : Type := mk_cursor {
  cur_keys : list string;
  cur_rows : list (list value);
  rowcount : Z;
  lastrowid : option Z
}.

Definition no_rows : cursor := mk_cursor [] [] (-1) None.
Definition rows_cursor (keys : list string) (rows : list (list value))
  : cursor := mk_cursor keys rows (-1) None.

Definition lift (r : result database) : result (database * cursor) :=
  match r with
  | Ok db => Ok (db, no_rows)
  | Err e => Err e
  end.

Definition exec (s : stmt) (db : database) : result (database * cursor) :=
  match s with
  | SelectMasterSql name =>
      Ok (db, rows_cursor ["sql"%string] (select_master_sql name db))
  | AlterTableRename old new => lift (alter_table_rename old new db)
  | CreateTable ine name body cols pk =>
      lift (create_table ine name body cols pk db)
  | PragmaTableInfo name =>
      Ok (db, rows_cursor [] (pragma_table_info name db))
  | InsertSelect target cs source => lift (insert_select target cs source db)
  | DropTable name => lift (drop_table name db)
  | CreateIndex ine iname tname col =>
      lift (create_index ine iname tname col db)
  | Select cs tname order_desc limit =>
      match select_rows cs tname order_desc limit db with
      | Ok rows => Ok (db, rows_cursor cs rows)
      | Err e => Err e
      end
  | AlterTableAddColumn tname c coltext =>
      lift (alter_table_add_column tname c coltext db)
  | InsertValues tname cs vs =>
      match insert_row tname cs vs db with
      | Ok (db', rid) => Ok (db', mk_cursor [] [] 1 (Some rid))
      | Err e => Err e
      end
  end.

(** Statements before which the sqlite3 module opens a transaction. *)
Definition is_dml (s : stmt) : bool :=
  match s with
  | InsertSelect _ _ _ | InsertValues _ _ _ => true
  | _ => false
  end.

(** *** Connections

    [committed] is what the file holds, [working] what the connection sees.
    Outside a transaction each statement is committed as it completes.  The
    counter [ops] numbers the store operations of the connection (opening it
    is operation 0); [fault_at] names the one, if any, at which the store
    itself fails (locked file, full disk, I/O error). *)

Record conn : Type := mk_conn {
  committed : database;
  working : database;
  in_txn : bool;
  trace : list stmt;
  ops : nat;
  fault_at : option nat
}.

Definition M (A : Type) : Type := conn -> result A * conn.

Definition ret {A} (a : A) : M A := fun c => (Ok a, c).

Definition bind {A B} (m : M A) (k : A -> M B) : M B :=
  fun c => match m c with
           | (Ok a, c') => k a c'
           | (Err e, c') => (Err e, c')
           end.

(** try: m except sqlite3.OperationalError: handler *)
Definition catch_operational {A} (m : M A) (handler : M A) : M A :=
  fun c => match m c with
           | (Err OperationalError, c') => handler c'
           | r => r
           end.

Definition tick (c : conn) : conn :=
  mk_conn (committed c) (working c) (in_txn c) (trace c) (S (ops c))
          (fault_at c).

Definition faulty (c : conn) : bool :=
  bool_decide (fault_at c = Some (ops c)).

Definition execute (s : stmt) : M cursor :=
  fun c =>
    if faulty c then (Err OperationalError, tick c)
    else
      let txn := in_txn c || is_dml s in
      match exec s (working c) with
      | Ok (db', cur) =>
          (Ok cur,
           mk_conn (if txn then committed c else db') db' txn
                   (trace c ++ [s]) (S (ops c)) (fault_at c))
      | Err e =>
          (Err e,
           mk_conn (committed c) (working c) txn (trace c) (S (ops c))
                   (fault_at c))
      end.

Definition commit : M unit :=
  fun c =>
    if faulty c then (Err OperationalError, tick c)
    else (Ok tt, mk_conn (working c) (working c) false (trace c) (S (ops c))
                         (fault_at c)).

Definition rollback (c : conn) : conn :=
  mk_conn (committed c) (committed c) false (trace c) (ops c) (fault_at c).

(** sqlite3.connect(db_path) *)
Definition connect (fault : option nat) (db : database) : result conn :=
  if bool_decide (fault = Some 0%nat) then Err OperationalError
  else Ok (mk_conn db db false [] 1 fault).

(** Leaving [with conn:] commits after a normal exit and rolls back after
    an exception. *)
Definition exit_ok (c : conn) : conn :=
  mk_conn (working c) (working c) false (trace c) (ops c) (fault_at c).

End Sqlite.

(** ** The module [openrecall.database] *)

Module Database.
Import Sqlite.

Notation "x <- m ;; k" := (bind m (fun x => k))
  (at level 90, m at next level, right associativity).
Notation "m ;;; k" := (bind m (fun _ => k))
  (at level 90, right associativity).

(** [needle in hay] on Python strings. *)
Fixpoint contains (needle hay : string) : bool :=
  String.prefix needle hay ||
  match hay with
  | EmptyString => false
  | String _ rest => contains needle rest
  end.

(** The column definitions of both CREATE TABLE statements (lines 39-47 and
    74-82), as text and as parsed. *)
Definition entries_body : string :=
  "
                           id INTEGER PRIMARY KEY AUTOINCREMENT,
                           app TEXT,
                           title TEXT,
                           text TEXT,
                           timestamp INTEGER,
                           embedding BLOB,
                           filename TEXT
                       ".

Definition entries_cols : list coldef :=
  [ mk_col "id" "INTEGER" false;
    mk_col "app" "TEXT" false;
    mk_col "title" "TEXT" false;
    mk_col "text" "TEXT" false;
    mk_col "timestamp" "INTEGER" false;
    mk_col "embedding" "BLOB" false;
    mk_col "filename" "TEXT" false ].

Definition entries_pk : option string := Some "id"%string.

Definition canonical_columns : list string :=
  ["id"; "app"; "title"; "text"; "timestamp"; "embedding"; "filename"]%string.

Definition filename_col : coldef := mk_col "filename" "TEXT" false.

(** Lines 23-31: legacy detection on the stored definition. *)
Definition migration_needed (result : option (list value)) : bool :=
  match result with
  | Some (VText create_sql :: _) =>
      contains "timestamp INTEGER UNIQUE" create_sql
  | _ => false
  end.

(** [row[1] for row in cursor.fetchall()] *)
Definition second (r : list value) : value := default VNull (r !! 1%nat).

(** Lines 33-69: the migration branch. *)
Definition migrate : M unit :=
  execute (AlterTableRename "entries" "entries_old") ;;;
  execute (CreateTable false "entries" entries_body entries_cols entries_pk) ;;;
  info <- execute (PragmaTableInfo "entries_old") ;;
  let columns_old := map second (cur_rows info) in
  let common_columns :=
    List.filter (fun col => bool_decide (VText col ∈ columns_old))
                canonical_columns in
  execute (InsertSelect "entries" common_columns "entries_old") ;;;
  execute (DropTable "entries_old") ;;;
  ret tt.

(** Lines 92-98: the defensive backfill of [filename]. *)
Definition ensure_filename : M unit :=
  catch_operational
    (execute (Select ["filename"%string] "entries" None (Some 1%nat)) ;;;
     ret tt)
    (catch_operational
       (execute (AlterTableAddColumn "entries" filename_col "filename TEXT") ;;;
        ret tt)
       (ret tt)).

(** Lines 20-100: the body of the [with] block. *)
Definition create_db_body : M unit :=
  cur <- execute (SelectMasterSql "entries") ;;
  let result := head (cur_rows cur) in
  (if migration_needed result
   then migrate
   else execute (CreateTable true "entries" entries_body entries_cols
                             entries_pk) ;;;
        ret tt) ;;;
  execute (CreateIndex true "idx_timestamp" "entries" "timestamp") ;;;
  ensure_filename ;;;
  commit.

(** Running a [with sqlite3.connect(db_path) as conn:] block whose store
    errors are caught by the enclosing [except sqlite3.Error]. *)
Definition with_connection {A} (fault : option nat) (body : M A)
    (db : database) : option A * conn :=
  match connect fault db with
  | Err _ => (None, mk_conn db db false [] 1 fault)
  | Ok c =>
      match body c with
      | (Ok a, c') => (Some a, exit_ok c')
      | (Err _, c') => (None, rollback c')
      end
  end.

(** [create_db()]: the store afterwards, and the statements that ran. *)
Definition run_create_db (fault : option nat) (db : database) : conn :=
  snd (with_connection fault create_db_body db).

Definition create_db (db : database) : database :=
  committed (run_create_db None db).

Definition create_db_trace (db : database) : list stmt :=
  trace (run_create_db None db).

(** The namedtuple [Entry].  Scalar fields hold whatever the store
    returned ([VNull] is Python's None); [embedding] is the decoded array. *)
Record Entry : Type := mk_Entry {
  e_id : value;
  e_app : value;
  e_title : value;
  e_text : value;
  e_timestamp : value;
  e_embedding : list Codec.word32;
  e_filename : value
}.

(** [row[key]] on a [sqlite3.Row] whose column names are [keys]. *)
Fixpoint row_item (keys : list string) (r : list value) (key : string)
  : outcome value :=
  match keys, r with
  | k :: keys', v :: r' =>
      if String.eqb k key then Returned v else row_item keys' r' key
  | _, _ => Raised IndexError
  end.

(** [np.frombuffer(x, dtype=np.float32)]: only a bytes object exposes a
    buffer. *)
Definition np_frombuffer (x : value) : outcome (list Codec.word32) :=
  match x with
  | VBlob b => Codec.frombuffer b
  | _ => Raised TypeError
  end.

Definition obind {A B} (o : outcome A) (k : A -> outcome B) : outcome B :=
  match o with
  | Returned a => k a
  | Raised e => Raised e
  end.

(** Lines 122-132: one iteration of the loop. *)
Definition entry_of_row (keys : list string) (r : list value)
  : outcome Entry :=
  obind (row_item keys r "embedding") (fun blob =>
  obind (np_frombuffer blob) (fun embedding =>
  obind (row_item keys r "id") (fun id =>
  obind (row_item keys r "app") (fun app =>
  obind (row_item keys r "title") (fun title =>
  obind (row_item keys r "text") (fun text =>
  obind (row_item keys r "timestamp") (fun timestamp =>
  obind (if bool_decide ("filename"%string ∈ keys)
         then row_item keys r "filename" else Returned VNull)
        (fun filename =>
  Returned (mk_Entry id app title text timestamp embedding filename))))))))).

Fixpoint entries_of_rows (keys : list string) (rows : list (list value))
  : outcome (list Entry) :=
  match rows with
  | [] => Returned []
  | r :: rest =>
      obind (entry_of_row keys r) (fun e =>
      obind (entries_of_rows keys rest) (fun es =>
      Returned (e :: es)))
  end.

(** [get_all_entries()], lines 105-136. *)
Definition get_all_entries (fault : option nat) (db : database)
  : outcome (list Entry) :=
  match with_connection fault
          (execute (Select canonical_columns "entries"
                           (Some "timestamp"%string) None)) db with
  | (Some cur, _) => entries_of_rows (cur_keys cur) (cur_rows cur)
  | (None, _) => Returned []
  end.

(** [get_timestamps()], lines 139-157. *)
Definition get_timestamps (fault : option nat) (db : database) : list value :=
  match with_connection fault
          (execute (Select ["timestamp"%string] "entries"
                           (Some "timestamp"%string) None)) db with
  | (Some cur, _) => map (fun result => default VNull (head result))
                         (cur_rows cur)
  | (None, _) => []
  end.

Definition insert_columns : list string :=
  ["text"; "timestamp"; "embedding"; "app"; "title"; "filename"]%string.

Definition py_optional_str (o : option string) : value :=
  match o with
  | Some s => VText s
  | None => VNull
  end.

(** Lines 181-190: the body of the [with] block. *)
Definition insert_entry_body (vs : list value) : M (option Z) :=
  cur <- execute (InsertValues "entries" insert_columns vs) ;;
  commit ;;;
  ret (if rowcount cur >? 0 then lastrowid cur else None).

(** The statement compiles when the table and the named columns exist and
    the store answers; binding a Python int outside the 64-bit range then
    raises OverflowError, which is no [sqlite3.Error]. *)
Definition insert_compiles (fault : option nat) (db : database) : bool :=
  negb (bool_decide (fault = Some 1%nat)) &&
  match db_tables db !! "entries"%string with
  | Some t => forallb (has_column t) insert_columns
  | None => false
  end.

Definition in_int64 (z : Z) : bool :=
  (int64_min <=? z) && (z <=? int64_max).

(** [insert_entry(text, timestamp, embedding, app, title, filename)],
    lines 160-198: what the caller gets and the store afterwards. *)
Definition insert_entry (fault : option nat) (text : string) (timestamp : Z)
    (embedding : Codec.ndarray) (app title : string)
    (filename : option string) (db : database)
  : outcome (option Z) * database :=
  match Codec.encode embedding with
  | Raised e => (Raised e, db)
  | Returned embedding_bytes =>
      match connect fault db with
      | Err _ => (Returned None, db)
      | Ok _ =>
          if negb (in_int64 timestamp) && insert_compiles fault db
          then (Raised OverflowError, db)
          else
            let vs := [VText text; VInt timestamp; VBlob embedding_bytes;
                       VText app; VText title; py_optional_str filename] in
            match with_connection fault (insert_entry_body vs) db with
            | (Some last_row_id, c) => (Returned last_row_id, committed c)
            | (None, c) => (Returned None, committed c)
            end
      end
  end.

(** *** Vocabulary for the statements below *)

(** The [entries] table, if the store has one. *)
Definition entries_table (db : database) : option table :=
  db_tables db !! "entries"%string.

(** The timestamp column as stored, in native row order. *)
Definition stored_timestamps (db : database) : list value :=
  match entries_table db with
  | Some t =>
      if has_column t "timestamp" then
        map (fun r => cell t r "timestamp") (tbl_rows t)
      else []
  | None => []
  end.

(** The scenario of the specification: a fresh store, then three captures
    at timestamps 100, 300 and 200. *)
Definition sample_embedding : Codec.ndarray :=
  Codec.Float64Array
    [ S754_finite false 0x1999999999999A (-56);   (* 0.1 *)
      S754_finite false 0x1999999999999A (-55);   (* 0.2 *)
      S754_finite false 0x13333333333333 (-54) ]. (* 0.3 *)

Definition capture (timestamp : Z) (filename : option string)
    (db : database) : database :=
  snd (insert_entry None "hello" timestamp sample_embedding "Notes"
         "Untitled" filename db).

Definition fresh_store : database := create_db empty_db.

Definition three_captures : database :=
  capture 200 None (capture 300 None (capture 100 (Some "shot1.png"%string)
                                              fresh_store)).

(** The parameters [insert_entry] binds to its statement. *)
Definition bound_values (text : string) (timestamp : Z)
    (embedding_bytes : list Codec.octet) (app title : string)
    (filename : option string) : list value :=
  [VText text; VInt timestamp; VBlob embedding_bytes; VText app; VText title;
   py_optional_str filename].

(** Every stored embedding is a blob of whole 4-byte elements. *)
Definition aligned_blob (v : value) : Prop :=
  exists b, v = VBlob b /\ (Z.of_nat (length b) mod 4 = 0).

Definition embeddings_aligned (db : database) : Prop :=
  match entries_table db with
  | Some t => Forall (fun r => aligned_blob (cell t r "embedding")) (tbl_rows t)
  | None => True
  end.

(** The INSERT of [insert_entry] gets as far as the store: its parameters
    bind, or the statement is refused before they are bound. *)
Definition reaches_store (fault : option nat) (timestamp : Z)
    (db : database) : Prop :=
  in_int64 timestamp = true \/ insert_compiles fault db = false.

(** A store of the current shape holding one row whose embedding blob has
    three bytes. *)
Definition corrupt_store : database :=
  mk_db
    {[ "entries"%string :=
         mk_table entries_body entries_cols entries_pk
           [ mk_row 1 [VNull; VText "Notes"; VText "Untitled"; VText "hello";
                       VInt 1000; VBlob [0; 0; 128]; VNull] ] ]}
    {[ "idx_timestamp"%string := mk_index "entries" "timestamp" ]}
    {[ "entries"%string := 1 ]}.

(** A legacy store as the specification describes it: the table has the
    current columns except that [timestamp] carries UNIQUE; tables older
    still have no [filename] column.  The rows are two captures, the second
    with no filename value. *)
Definition legacy_cols_no_filename : list coldef :=
  [ mk_col "id" "INTEGER" false;
    mk_col "app" "TEXT" false;
    mk_col "title" "TEXT" false;
    mk_col "text" "TEXT" false;
    mk_col "timestamp" "INTEGER" true;
    mk_col "embedding" "BLOB" false ].

Definition legacy_body_no_filename : string :=
  "id INTEGER PRIMARY KEY AUTOINCREMENT, app TEXT, title TEXT, text TEXT, timestamp INTEGER UNIQUE, embedding BLOB".

Definition legacy_cols : list coldef :=
  legacy_cols_no_filename ++ [filename_col].

Definition legacy_body : string :=
  (legacy_body_no_filename ++ ", filename TEXT")%string.

Definition legacy_rows : list row :=
  [ mk_row 1 [VNull; VText "Notes"; VText "Untitled"; VText "hello";
              VInt 1000; VBlob [0; 0; 128; 63]; VText "shot1.png"];
    mk_row 4 [VNull; VText "Mail"; VText "Inbox"; VText "world";
              VInt 2000; VBlob [0; 0; 0; 64; 0; 0; 64; 64]] ].

Definition legacy_store : database :=
  mk_db {[ "entries"%string :=
             mk_table legacy_body legacy_cols (Some "id"%string) legacy_rows ]}
        ∅ {[ "entries"%string := 4 ]}.

Definition legacy_store_no_filename : database :=
  mk_db {[ "entries"%string :=
             mk_table legacy_body_no_filename legacy_cols_no_filename
                      (Some "id"%string) legacy_rows ]}
        ∅ {[ "entries"%string := 4 ]}.

(** A table of the current shape: the columns and key of the module's
    CREATE TABLE statements. *)
Definition current_shape (t : table) : Prop :=
  tbl_cols t = entries_cols /\ tbl_pk t = entries_pk.

(** The row and the entry a capture amounts to. *)
Definition entry_row (rid : Z) (text : string) (timestamp : Z)
    (bs : list Codec.octet) (app title : string) (filename : option string)
  : row :=
  mk_row rid [VNull; VText app; VText title; VText text; VInt timestamp;
              VBlob bs; py_optional_str filename].

Definition entry_of (id : Z) (text : string) (timestamp : Z)
    (embedding : list Codec.word32) (app title : string)
    (filename : option string) : Entry :=
  mk_Entry (VInt id) (VText app) (VText title) (VText text) (VInt timestamp)
           embedding (py_optional_str filename).

(** The store with row [r], of rowid [rid], appended to table [t]. *)
Definition with_row (db : database) (t : table) (r : row) (rid : Z)
  : database :=
  mk_db (<["entries"%string :=
             mk_table (tbl_body t) (tbl_cols t) (tbl_pk t) (tbl_rows t ++ [r])]>
           (db_tables db))
        (db_indexes db)
        (<["entries"%string :=
             Z.max (default 0 (db_seq db !! "entries"%string)) rid]>
           (db_seq db)).

(** The next rowid of the [entries] table. *)
Definition next_id (db : database) (t : table) : Z :=
  Z.max (default 0 (db_seq db !! "entries"%string)) (max_rowid (tbl_rows t)) + 1.

(** [create_db] ran to its end without a store error. *)
Definition create_db_ok (db : database) : bool :=
  bool_decide (is_Some (fst (with_connection None create_db_body db))).

(** The stored definition of the table carries the legacy marker. *)
Definition legacy_marked (t : table) : bool :=
  contains "timestamp INTEGER UNIQUE" (stored_sql "entries" t).

(** The canonical columns the old table has: what the migration copies. *)
Definition copied_columns (t : table) : list string :=
  List.filter (has_column t) canonical_columns.

(** The freshly created table, and the copy of an old row in it. *)
Definition new_entries (rows : list row) : table :=
  mk_table entries_body entries_cols entries_pk rows.

Definition migrated_row (t : table) (r : row) : row :=
  mk_row (row_id r)
         (new_cells (new_entries []) (copied_columns t)
                    (map (cell t r) (copied_columns t))).

Definition migrated_table (t : table) : table :=
  new_entries (map (migrated_row t) (tbl_rows t)).

(** A store holding a legacy table that [create_db] can migrate: the stored
    definition carries the marker, [id] is the table's key, rowids are
    distinct, and the names the migration needs are free. *)
Record legacy (db : database) (t : table) : Prop := mk_legacy {
  legacy_table : entries_table db = Some t;
  legacy_marker : legacy_marked t = true;
  legacy_pk : tbl_pk t = Some "id"%string;
  legacy_id : has_column t "id" = true;
  legacy_rowids : NoDup (map row_id (tbl_rows t));
  legacy_old_free : name_taken db "entries_old" = false;
  legacy_no_index : db_indexes db !! "entries"%string = None;
  legacy_idx_free : db_tables db !! "idx_timestamp"%string = None
}.

(** The statements of a migrating [create_db], in order. *)
Definition migration_trace (t : table) : list stmt :=
  [ SelectMasterSql "entries";
    AlterTableRename "entries" "entries_old";
    CreateTable false "entries" entries_body entries_cols entries_pk;
    PragmaTableInfo "entries_old";
    InsertSelect "entries" (copied_columns t) "entries_old";
    DropTable "entries_old";
    CreateIndex true "idx_timestamp" "entries" "timestamp";
    Select ["filename"%string] "entries" None (Some 1%nat) ].

(** The statements only the migration branch issues. *)
Definition is_migration_stmt (s : stmt) : bool :=
  match s with
  | AlterTableRename _ _ | InsertSelect _ _ _ | DropTable _
  | CreateTable false _ _ _ _ | PragmaTableInfo _ => true
  | _ => false
  end.

(** The statements of the branch without migration: they create what is
    missing and move no row. *)
Definition gentle (s : stmt) : bool :=
  match s with
  | SelectMasterSql _ | CreateTable true _ _ _ _ | CreateIndex _ _ _ _
  | Select _ _ _ _ | AlterTableAddColumn _ _ _ => true
  | _ => false
  end.

(** The store still holds the rows of [t], if there was such a table. *)
Definition kept (o : option table) (db : database) : Prop :=
  match o with
  | Some t => exists t', entries_table db = Some t' /\ tbl_rows t' = tbl_rows t
  | None => True
  end.

Record calm (o : option table) (c : conn) : Prop := mk_calm {
  calm_trace : Forall (fun s => gentle s = true) (trace c);
  calm_committed : kept o (committed c);
  calm_working : kept o (working c)
}.

Definition preserves {A} (o : option table) (m : M A) : Prop :=
  forall c r c', m c = (r, c') -> calm o c -> calm o c'.

(** The entry [get_all_entries] builds from a stored row, if its embedding
    decodes. *)
Definition stored_entry (t : table) (r : row) : outcome Entry :=
  obind (np_frombuffer (cell t r "embedding")) (fun embedding =>
    Returned (mk_Entry (cell t r "id") (cell t r "app") (cell t r "title")
                       (cell t r "text") (cell t r "timestamp") embedding
                       (cell t r "filename"))).

(** The loop of [get_all_entries] over rows of [t]. *)
Definition entries_of (t : table) (rows : list row) : outcome (list Entry) :=
  entries_of_rows canonical_columns
    (map (fun r => map (cell t r) canonical_columns) rows).

(** The table declares [timestamp] UNIQUE (and not as its key). *)
Definition unique_timestamp (t : table) : Prop :=
  exists d, d ∈ tbl_cols t /\ col_name d = "timestamp"%string /\
            col_unique d = true /\ is_pk t "timestamp" = false.

(** The table after ALTER TABLE entries ADD COLUMN filename TEXT. *)
Definition with_filename (t : table) : table :=
  mk_table (tbl_body t ++ ", " ++ "filename TEXT")%string
           (tbl_cols t ++ [filename_col]) (tbl_pk t) (tbl_rows t).

(** No row holds more cells than the table has columns. *)
Definition rows_fit (t : table) : Prop :=
  Forall (fun r => (length (row_cells r) <= length (tbl_cols t))%nat)
         (tbl_rows t).

(** A table without UNIQUE and without the [filename] column, holding one
    capture. *)
Definition plain_table_no_filename : table :=
  mk_table
    "id INTEGER PRIMARY KEY AUTOINCREMENT, app TEXT, title TEXT, text TEXT, timestamp INTEGER, embedding BLOB"
    [ mk_col "id" "INTEGER" false;
      mk_col "app" "TEXT" false;
      mk_col "title" "TEXT" false;
      mk_col "text" "TEXT" false;
      mk_col "timestamp" "INTEGER" false;
      mk_col "embedding" "BLOB" false ]
    (Some "id"%string)
    [ mk_row 1 [VNull; VText "Notes"; VText "Untitled"; VText "hello";
                VInt 1000; VBlob [0; 0; 128; 63]] ].

Definition plain_store_no_filename : database :=
  mk_db {[ "entries"%string := plain_table_no_filename ]} ∅
        {[ "entries"%string := 1 ]}.

(** A legacy store in which the name [entries_old] is already taken. *)
Definition blocked_store : database :=
  mk_db (<["entries_old"%string := plain_table_no_filename]>
           (db_tables legacy_store))
        (db_indexes legacy_store) (db_seq legacy_store).

(** The store after the rename of the migration, and after the creation of
    the new, empty table. *)
Definition renamed (db : database) (t : table) : database :=
  mk_db (<["entries_old"%string := t]>
           (delete "entries"%string (db_tables db)))
        ((fun ix => if String.eqb (idx_table ix) "entries"
                    then mk_index "entries_old" (idx_column ix) else ix)
           <$> db_indexes db)
        (match db_seq db !! "entries"%string with
         | Some n => <["entries_old"%string := n]>
                       (delete "entries"%string (db_seq db))
         | None => db_seq db
         end).

Definition recreated (db : database) (t : table) : database :=
  mk_db (<["entries"%string := new_entries []]> (db_tables (renamed db t)))
        (db_indexes (renamed db t)) (db_seq (renamed db t)).

(** Where a single store failure leaves a legacy store. *)
Definition outcome_of_fault (db : database) (t : table) (fault : option nat)
    (db' : database) : Prop :=
  (fault = Some 0%nat \/ fault = Some 1%nat \/ fault = Some 2%nat ->
   db' = db)
  /\ (fault = Some 3%nat -> db' = renamed db t)
  /\ (fault = Some 4%nat \/ fault = Some 5%nat \/ fault = Some 6%nat \/
      fault = Some 7%nat \/ fault = Some 9%nat ->
      db' = recreated db t)
  /\ (fault = None \/ fault = Some 8%nat \/
      (exists k, fault = Some k /\ (10 <= k)%nat) ->
      entries_table db' = Some (migrated_table t) /\
      db_tables db' !! "entries_old"%string = None).

(** The computation leaves the planned store failure as it found it. *)
Definition keeps_fault {A} (m : M A) : Prop :=
  forall c r c', m c = (r, c') -> fault_at c' = fault_at c.

(** A table whose [timestamp] column is UNIQUE under another spelling than
    the legacy marker, holding one capture.  NOT NULL plays no part below:
    every timestamp bound is an integer. *)
Definition spelt_unique_table : table :=
  mk_table
    "id INTEGER PRIMARY KEY AUTOINCREMENT, app TEXT, title TEXT, text TEXT, timestamp INTEGER NOT NULL UNIQUE, embedding BLOB, filename TEXT"
    [ mk_col "id" "INTEGER" false;
      mk_col "app" "TEXT" false;
      mk_col "title" "TEXT" false;
      mk_col "text" "TEXT" false;
      mk_col "timestamp" "INTEGER" true;
      mk_col "embedding" "BLOB" false;
      mk_col "filename" "TEXT" false ]
    (Some "id"%string)
    [ mk_row 1 [VNull; VText "Notes"; VText "Untitled"; VText "hello";
                VInt 1000; VBlob [0; 0; 128; 63]; VText "shot1.png"] ].

Definition spelt_unique_store : database :=
  mk_db {[ "entries"%string := spelt_unique_table ]} ∅
        {[ "entries"%string := 1 ]}.

(** The table answers the SELECT of [get_all_entries]. *)
Definition selectable (t : table) : bool :=
  forallb (has_column t) canonical_columns.

End Database.

(** * Properties *)

Import Codec Sqlite Database.

(** ** The codec *)

Section CodecFacts.

Lemma land_mask_is_word32 (z : Z) : is_word32 (Z.land z 0xFFFFFFFF).
Proof.
  unfold is_word32. rewrite <- Z.land_assoc. f_equal.
Qed.

Lemma bits_of_binary32_word (x : spec_float) : is_word32 (bits_of_binary32 x).
Proof. unfold bits_of_binary32. apply land_mask_is_word32. Qed.

Lemma astype_objects_words (xs : list pyobj) (ws : list word32) :
  astype_objects xs = Returned ws -> Forall is_word32 ws.
Proof.
  revert ws. induction xs as [|o xs IH]; intros ws H; simpl in H.
  - injection H as <-. constructor.
  - destruct (float32_of_pyobj o) as [w|e] eqn:Ho; [|discriminate].
    destruct (astype_objects xs) as [ws'|e] eqn:Hxs; [|discriminate].
    injection H as <-. constructor; [|auto].
    destruct o as [x|z|]; simpl in Ho.
    + injection Ho as <-. apply bits_of_binary32_word.
    + destruct (float_of_int z); [|discriminate].
      injection Ho as <-. apply bits_of_binary32_word.
    + injection Ho as <-. apply bits_of_binary32_word.
Qed.

Lemma astype_float32_words (a : ndarray) (ws : list word32) :
  astype_float32 a = Returned ws -> Forall is_word32 ws.
Proof.
  destruct a as [xs|xs|xs|xs]; simpl; intros H.
  - injection H as <-. apply Forall_map, Forall_true. intros x.
    apply bits_of_binary32_word.
  - injection H as <-. apply Forall_map, Forall_true. intros x.
    apply land_mask_is_word32.
  - injection H as <-. apply Forall_map, Forall_true. intros x.
    apply bits_of_binary32_word.
  - eauto using astype_objects_words.
Qed.

Lemma astype_objects_length (xs : list pyobj) (ws : list word32) :
  astype_objects xs = Returned ws -> length ws = length xs.
Proof.
  revert ws. induction xs as [|o xs IH]; intros ws H; simpl in H.
  - by injection H as <-.
  - destruct (float32_of_pyobj o); try discriminate.
    destruct (astype_objects xs) as [ws'|e]; try discriminate.
    injection H as <-. simpl. f_equal. auto.
Qed.

Lemma astype_float32_length (a : ndarray) (ws : list word32) :
  astype_float32 a = Returned ws -> length ws = size a.
Proof.
  destruct a as [xs|xs|xs|xs]; simpl; intros H;
    try (injection H as <-; apply length_map).
  eauto using astype_objects_length.
Qed.

Lemma testbit_255 (n : Z) : 0 <= n -> Z.testbit 0xFF n = (n <? 8).
Proof. intros Hn. change 0xFF with (Z.ones 8). apply Z.testbit_ones_nonneg; lia. Qed.

Lemma testbit_mask32 (n : Z) : 0 <= n -> Z.testbit 0xFFFFFFFF n = (n <? 32).
Proof.
  intros Hn. change 0xFFFFFFFF with (Z.ones 32).
  apply Z.testbit_ones_nonneg; lia.
Qed.

(** Packing one element and reading it back. *)
Lemma word_of_bytes_to_bytes (w : word32) :
  is_word32 w ->
  word_of_bytes (Z.land w 0xFF) (Z.land (Z.shiftr w 8) 0xFF)
                (Z.land (Z.shiftr w 16) 0xFF) (Z.land (Z.shiftr w 24) 0xFF)
  = w.
Proof.
  intros Hw. etransitivity; [|exact Hw].
  unfold word_of_bytes. apply Z.bits_inj'. intros n Hn.
  rewrite !Z.lor_spec, !Z.land_spec, testbit_mask32 by lia.
  rewrite testbit_255 by lia.
  destruct (Z.ltb_spec n 8) as [H8|H8].
  { rewrite !Z.shiftl_spec by lia.
    rewrite !(Z.testbit_neg_r _ (n - _)) by lia.
    destruct (Z.ltb_spec n 32); [|lia].
    by rewrite !orb_false_r, !andb_true_r. }
  rewrite !Z.shiftl_spec by lia.
  rewrite andb_false_r, orb_false_l.
  destruct (Z.ltb_spec n 16) as [H16|H16].
  { rewrite !Z.land_spec, Z.shiftr_spec, testbit_255 by lia.
    rewrite !(Z.testbit_neg_r _ (n - _)) by lia.
    destruct (Z.ltb_spec (n - 8) 8); [|lia].
    destruct (Z.ltb_spec n 32); [|lia].
    rewrite !orb_false_r, !andb_true_r. f_equal. lia. }
  destruct (Z.ltb_spec n 24) as [H24|H24].
  { rewrite !Z.land_spec, !Z.shiftr_spec, !testbit_255 by lia.
    rewrite (Z.testbit_neg_r _ (n - 24)) by lia.
    destruct (Z.ltb_spec (n - 8) 8); [lia|].
    destruct (Z.ltb_spec (n - 16) 8); [|lia].
    destruct (Z.ltb_spec n 32); [|lia].
    rewrite !andb_false_r, !orb_false_r, !andb_true_r. simpl. f_equal. lia. }
  rewrite !Z.land_spec, !Z.shiftr_spec, !testbit_255 by lia.
  destruct (Z.ltb_spec (n - 8) 8); [lia|].
  destruct (Z.ltb_spec (n - 16) 8); [lia|].
  rewrite !andb_false_r. simpl.
  destruct (Z.ltb_spec (n - 24) 8), (Z.ltb_spec n 32); try lia;
    rewrite ?andb_false_r, ?andb_true_r; try reflexivity.
  f_equal. lia.
Qed.

Lemma tobytes_length (ws : list word32) :
  length (tobytes ws) = (4 * length ws)%nat.
Proof.
  unfold tobytes. induction ws as [|w ws IH]; simpl; [done|]. rewrite IH. lia.
Qed.

Lemma words_of_bytes_tobytes (ws : list word32) :
  Forall is_word32 ws -> words_of_bytes (tobytes ws) = Some ws.
Proof.
  induction 1 as [|w ws Hw _ IH]; [done|].
  unfold tobytes in *. simpl. rewrite IH.
  by rewrite word_of_bytes_to_bytes.
Qed.

Lemma frombuffer_tobytes (ws : list word32) :
  Forall is_word32 ws -> frombuffer (tobytes ws) = Returned ws.
Proof.
  intros Hws. unfold frombuffer. rewrite tobytes_length.
  replace (Z.of_nat (4 * length ws) mod 4) with 0.
  - simpl. by rewrite words_of_bytes_tobytes.
  - rewrite Nat2Z.inj_mul. symmetry. rewrite Z.mul_comm. apply Z.mod_mul. lia.
Qed.

Lemma encode_length (a : ndarray) (bs : list octet) :
  encode a = Returned bs -> length bs = (4 * size a)%nat.
Proof.
  unfold encode. destruct (astype_float32 a) as [ws|e] eqn:Ha; [|done].
  intros [= <-]. rewrite tobytes_length.
  by rewrite (astype_float32_length _ _ Ha).
Qed.

End CodecFacts.

(** ** The cast to float32 *)

Section Cast.

Ltac hide_pow :=
  repeat match goal with
    | |- context [2 ^ ?k] =>
        let A := fresh "A" in set (A := 2 ^ k) in *; clearbody A
    | H : context [2 ^ ?k] |- _ =>
        let A := fresh "A" in set (A := 2 ^ k) in *; clearbody A
    end.

Lemma digits2_pos_bounds (p : positive) :
  2 ^ (Z.pos (digits2_pos p) - 1) <= Z.pos p < 2 ^ Z.pos (digits2_pos p).
Proof.
  induction p as [p IH|p IH|]; simpl digits2_pos; [| |simpl; lia].
  - rewrite Pos2Z.inj_succ. change (Z.pos p~1) with (2 * Z.pos p + 1).
    replace (Z.succ (Z.pos (digits2_pos p)) - 1)
      with (Z.succ (Z.pos (digits2_pos p) - 1)) by lia.
    rewrite !Z.pow_succ_r by lia. hide_pow. lia.
  - rewrite Pos2Z.inj_succ. change (Z.pos p~0) with (2 * Z.pos p).
    replace (Z.succ (Z.pos (digits2_pos p)) - 1)
      with (Z.succ (Z.pos (digits2_pos p) - 1)) by lia.
    rewrite !Z.pow_succ_r by lia. hide_pow. lia.
Qed.

Lemma digits2_pos_le (p : positive) (k : Z) :
  Z.pos p < 2 ^ k -> Z.pos (digits2_pos p) <= k.
Proof.
  intros H. pose proof (digits2_pos_bounds p) as [Hlo _].
  destruct (Z.le_gt_cases (Z.pos (digits2_pos p)) k) as [|Hgt]; [done|].
  assert (2 ^ k <= 2 ^ (Z.pos (digits2_pos p) - 1)); [|lia].
  apply Z.pow_le_mono_r; lia.
Qed.

Lemma digits2_pos_gt (p : positive) (k : Z) :
  0 <= k -> 2 ^ k <= Z.pos p -> k < Z.pos (digits2_pos p).
Proof.
  intros Hk H. pose proof (digits2_pos_bounds p) as [_ Hhi].
  destruct (Z.lt_ge_cases k (Z.pos (digits2_pos p))) as [|Hge]; [done|].
  assert (2 ^ Z.pos (digits2_pos p) <= 2 ^ k); [|lia].
  apply Z.pow_le_mono_r; lia.
Qed.

Lemma iter_xO_value (m d : positive) :
  Z.pos (Pos.iter xO m d) = Z.pos m * 2 ^ Z.pos d.
Proof.
  induction d as [|d IH] using Pos.peano_ind; [simpl; lia|].
  rewrite Pos.iter_succ.
  change (Z.pos (Pos.iter xO m d)~0) with (2 * Z.pos (Pos.iter xO m d)).
  rewrite IH, Pos2Z.inj_succ, Z.pow_succ_r; lia.
Qed.

Lemma iter_xO_digits (m d : positive) :
  Z.pos (digits2_pos (Pos.iter xO m d)) = Z.pos (digits2_pos m) + Z.pos d.
Proof.
  induction d as [|d IH] using Pos.peano_ind; [simpl; lia|].
  rewrite Pos.iter_succ. simpl digits2_pos. rewrite Pos2Z.inj_succ, IH. lia.
Qed.

Ltac by_cases :=
  repeat match goal with
    | |- context [?a <=? ?b] => destruct (Z.leb_spec a b)
    | |- context [?a =? ?b] => destruct (Z.eqb_spec a b)
    | H : context [?a <=? ?b] |- _ => destruct (Z.leb_spec a b)
    | H : context [?a =? ?b] |- _ => destruct (Z.eqb_spec a b)
    end.

Lemma shr_1_inv (m0 P : Z) (mrs : shr_record) :
  0 < P -> shr_inv m0 P mrs -> shr_inv m0 (2 * P) (shr_1 mrs).
Proof.
  intros HP (rem & Hm & Hrem & Hnn & Hr & Hs).
  destruct mrs as [m r s]. simpl in Hm, Hnn, Hr, Hs. subst r s.
  destruct m as [|[p|p|]|p]; [| | | |lia]; unfold shr_1, shr_inv;
    cbn [shr_m shr_r shr_s].
  - exists rem. split; [lia|]. split; [lia|]. split; [lia|].
    split; by_cases; simpl; try reflexivity; lia.
  - exists (rem + P). change (Z.pos p~1) with (2 * Z.pos p + 1) in Hm.
    split; [lia|]. split; [lia|]. split; [lia|].
    split; by_cases; simpl; try reflexivity; lia.
  - exists rem. change (Z.pos p~0) with (2 * Z.pos p) in Hm.
    split; [lia|]. split; [lia|]. split; [lia|].
    split; by_cases; simpl; try reflexivity; lia.
  - exists (rem + P).
    split; [lia|]. split; [lia|]. split; [lia|].
    split; by_cases; simpl; try reflexivity; lia.
Qed.

Lemma iter_shr_1_inv (m0 : Z) (p : positive) :
  forall (P : Z) (mrs : shr_record),
    0 < P -> shr_inv m0 P mrs ->
    shr_inv m0 (P * 2 ^ Z.pos p) (SpecFloat.iter_pos shr_1 p mrs).
Proof.
  induction p as [p IH|p IH|]; intros P mrs HP H; simpl SpecFloat.iter_pos.
  - apply shr_1_inv in H; [|lia].
    apply IH in H; [|lia].
    apply IH in H; [|apply Z.mul_pos_pos; [lia|apply Z.pow_pos_nonneg; lia]].
    replace (P * 2 ^ Z.pos p~1) with (2 * P * 2 ^ Z.pos p * 2 ^ Z.pos p);
      [exact H|].
    change (Z.pos p~1) with (2 * Z.pos p + 1).
    replace (2 * Z.pos p + 1) with (Z.pos p + Z.pos p + 1) by lia.
    rewrite !Z.pow_add_r by lia. lia.
  - apply IH in H; [|lia].
    apply IH in H; [|apply Z.mul_pos_pos; [lia|apply Z.pow_pos_nonneg; lia]].
    replace (P * 2 ^ Z.pos p~0) with (P * 2 ^ Z.pos p * 2 ^ Z.pos p);
      [exact H|].
    change (Z.pos p~0) with (2 * Z.pos p).
    replace (2 * Z.pos p) with (Z.pos p + Z.pos p) by lia.
    rewrite !Z.pow_add_r by lia. lia.
  - apply shr_1_inv in H; [|lia].
    replace (P * 2 ^ 1) with (2 * P) by lia. exact H.
Qed.

Lemma shr_exact_inv (m e n : Z) :
  0 <= m -> 0 <= n ->
  exists mrs,
    shr (shr_record_of_loc m loc_Exact) e n = (mrs, e + n) /\
    shr_inv m (2 ^ n) mrs.
Proof.
  intros Hm Hn.
  assert (H0 : shr_inv m 1 (Build_shr_record m false false)).
  { exists 0. simpl. repeat split; lia. }
  destruct n as [|p|p]; [| |lia]; simpl shr.
  - eexists. split; [f_equal; lia|]. exact H0.
  - eexists. split; [reflexivity|].
    replace (2 ^ Z.pos p) with (1 * 2 ^ Z.pos p) by lia.
    by apply iter_shr_1_inv.
Qed.

Lemma round_inv (m0 P : Z) (mrs : shr_record) :
  0 < P -> shr_inv m0 P mrs ->
  let mk := shr_m mrs in
  let mr := round_nearest_even mk (loc_of_shr_record mrs) in
  0 <= mk /\
  mk * P <= m0 < (mk + 1) * P /\
  mk <= mr <= mk + 1 /\
  (2 * mr - 1) * P <= 2 * m0 <= (2 * mr + 1) * P.
Proof.
  intros HP (rem & Hm & Hrem & Hnn & Hr & Hs).
  destruct mrs as [m r s]. simpl in Hm, Hnn, Hr, Hs. simpl.
  destruct r, s; simpl; by_cases; simpl in *; try discriminate;
    try destruct (Z.even m); nia.
Qed.


Lemma fexp32 (k : Z) : fexp 24 128 k = Z.max (k - 24) (-149).
Proof. reflexivity. Qed.

Lemma shl_align_spec (m : positive) (e E : Z) :
  exists (mz : positive) (ez : Z),
    shl_align m e E = (mz, ez) /\ ez <= e /\ ez <= E /\
    Z.pos mz = Z.pos m * 2 ^ (e - ez) /\
    Z.pos (digits2_pos mz) + ez = Z.pos (digits2_pos m) + e.
Proof.
  unfold shl_align. destruct (E - e) as [|d|d] eqn:Hd.
  - exists m, e. split; [done|]. split; [lia|]. split; [lia|].
    rewrite Z.sub_diag. split; lia.
  - exists m, e. split; [done|]. split; [lia|]. split; [lia|].
    rewrite Z.sub_diag. split; lia.
  - exists (Pos.iter xO m d), E. split; [done|]. split; [lia|]. split; [lia|].
    rewrite iter_xO_value, iter_xO_digits.
    replace (e - E) with (Z.pos d) by lia. split; [done|lia].
Qed.

Lemma shr_fexp_normal (mr E : Z) :
  8388608 <= mr < 16777216 -> -149 <= E ->
  shr_fexp 24 128 mr E loc_Exact = (Build_shr_record mr false false, E).
Proof.
  intros Hmr HE. unfold shr_fexp. destruct mr as [|p|p]; [lia| |lia].
  simpl Zdigits2.
  assert (Hd : Z.pos (digits2_pos p) = 24).
  { pose proof (digits2_pos_le p 24) as H1.
    pose proof (digits2_pos_gt p 23) as H2.
    change (2 ^ 24) with 16777216 in H1. change (2 ^ 23) with 8388608 in H2.
    lia. }
  rewrite Hd, fexp32.
  replace (Z.max (24 + E - 24) (-149) - E) with 0 by lia. reflexivity.
Qed.

Lemma shr_fexp_carry (E : Z) :
  -149 <= E ->
  shr_fexp 24 128 16777216 E loc_Exact
  = (Build_shr_record 8388608 false false, E + 1).
Proof.
  intros HE. unfold shr_fexp. change (Zdigits2 16777216) with 25.
  rewrite fexp32.
  replace (Z.max (25 + E - 24) (-149) - E) with 1 by lia. reflexivity.
Qed.

Lemma shr_fexp_subnormal (mr : Z) :
  0 <= mr <= 8388608 ->
  shr_fexp 24 128 mr (-149) loc_Exact
  = (Build_shr_record mr false false, -149).
Proof.
  intros Hmr. unfold shr_fexp.
  assert (Hd : 0 <= Zdigits2 mr <= 24).
  { destruct mr as [|p|p]; simpl; [lia| |lia].
    pose proof (digits2_pos_le p 24) as H1.
    change (2 ^ 24) with 16777216 in H1. lia. }
  rewrite fexp32.
  replace (Z.max (Zdigits2 mr + -149 - 24) (-149) - -149) with 0 by lia.
  reflexivity.
Qed.

(** The cast of a finite double, step by step: the mantissa is aligned to
    the exponent [E] of the result, cut there ([mk]), rounded ([mr]), and
    renormalised when the rounding carried. *)
Lemma binary_round_spec (s : bool) (m : positive) (e : Z) :
  let D := Z.pos (digits2_pos m) + e in
  let E := Z.max (D - 24) (-149) in
  exists ez mk mr : Z,
    ez <= e /\ ez <= E /\
    mk * 2 ^ (E - ez) <= Z.pos m * 2 ^ (e - ez) < (mk + 1) * 2 ^ (E - ez) /\
    mk <= mr <= mk + 1 /\
    (2 * mr - 1) * 2 ^ (E - ez) <= 2 * (Z.pos m * 2 ^ (e - ez))
      <= (2 * mr + 1) * 2 ^ (E - ez) /\
    (-149 <= D - 24 -> 8388608 <= mk < 16777216) /\
    (D - 24 < -149 -> 0 <= mk < 8388608) /\
    binary_round 24 128 s m e =
      if mr =? 16777216
      then if E + 1 <=? 104 then S754_finite s 8388608 (E + 1)
           else S754_infinity s
      else match mr with
           | Z0 => S754_zero s
           | Z.pos m' => if E <=? 104 then S754_finite s m' E
                         else S754_infinity s
           | Z.neg _ => S754_nan
           end.
Proof.
  intros D E. unfold binary_round. rewrite fexp32. fold D. fold E.
  destruct (shl_align_spec m e E) as (mz & ez & -> & Hez & HezE & Hmz & Hdz).
  unfold binary_round_aux.
  assert (Hf : fexp 24 128 (Zdigits2 (Z.pos mz) + ez) = E).
  { simpl Zdigits2. rewrite fexp32, Hdz. reflexivity. }
  unfold shr_fexp at 1. rewrite Hf.
  destruct (shr_exact_inv (Z.pos mz) ez (E - ez)) as (mrs & -> & Hinv);
    [lia|lia|].
  replace (ez + (E - ez)) with E by lia.
  assert (HP : 0 < 2 ^ (E - ez)) by (apply Z.pow_pos_nonneg; lia).
  destruct (round_inv _ _ _ HP Hinv) as (Hk0 & Hk & Hr & Hhalf).
  set (mk := shr_m mrs) in *.
  set (mr := round_nearest_even mk (loc_of_shr_record mrs)) in *.
  rewrite Hmz in Hk, Hhalf.
  pose proof (digits2_pos_bounds mz) as [Hlo Hhi].
  assert (Hnorm : -149 <= D - 24 -> 8388608 <= mk < 16777216).
  { intros HD.
    assert (Hdig : Z.pos (digits2_pos mz) = E - ez + 24) by lia.
    rewrite Hdig in Hlo, Hhi.
    replace (E - ez + 24 - 1) with (E - ez + 23) in Hlo by lia.
    rewrite Z.pow_add_r in Hlo, Hhi by lia.
    change (2 ^ 23) with 8388608 in Hlo. change (2 ^ 24) with 16777216 in Hhi.
    rewrite Hmz in Hlo, Hhi.
    set (P := 2 ^ (E - ez)) in *. clearbody P.
    set (X := Z.pos m * 2 ^ (e - ez)) in *. clearbody X. nia. }
  assert (Hsub : D - 24 < -149 -> 0 <= mk < 8388608).
  { intros HD. split; [exact Hk0|].
    assert (Hle : 2 ^ Z.pos (digits2_pos mz) <= 2 ^ (E - ez + 23)).
    { apply Z.pow_le_mono_r; lia. }
    rewrite Z.pow_add_r in Hle by lia. change (2 ^ 23) with 8388608 in Hle.
    rewrite Hmz in Hhi.
    set (P := 2 ^ (E - ez)) in *. clearbody P.
    set (X := Z.pos m * 2 ^ (e - ez)) in *. clearbody X.
    set (Y := 2 ^ Z.pos (digits2_pos mz)) in *. clearbody Y. nia. }
  exists ez, mk, mr.
  split; [exact Hez|]. split; [exact HezE|]. split; [exact Hk|].
  split; [exact Hr|]. split; [exact Hhalf|]. split; [exact Hnorm|].
  split; [exact Hsub|].
  destruct (Z_lt_le_dec (D - 24) (-149)) as [HD|HD].
  - specialize (Hsub HD). assert (HE : E = -149) by lia.
    rewrite HE. rewrite shr_fexp_subnormal by lia.
    cbn [shr_m]. destruct (Z.eqb_spec mr 16777216) as [|_]; [lia|].
    reflexivity.
  - specialize (Hnorm HD). assert (HE : -149 <= E) by lia.
    destruct (Z.eqb_spec mr 16777216) as [->|Hne].
    + rewrite shr_fexp_carry by lia. reflexivity.
    + rewrite shr_fexp_normal by lia. reflexivity.
Qed.


Lemma bounded_ranges (m : positive) (e : Z) :
  bounded 24 128 m e = true ->
  (Z.pos m < 8388608 /\ e = -149) \/
  (8388608 <= Z.pos m < 16777216 /\ -149 <= e <= 104).
Proof.
  unfold bounded, canonical_mantissa. rewrite andb_true_iff, fexp32.
  intros [Hc He]. apply Z.eqb_eq in Hc. apply Z.leb_le in He.
  change (128 - 24) with 104 in He.
  pose proof (digits2_pos_bounds m) as [Hlo Hhi].
  destruct (Z_lt_le_dec (Z.pos (digits2_pos m) + e - 24) (-149)) as [H|H].
  - left. split; [|lia].
    assert (2 ^ Z.pos (digits2_pos m) <= 2 ^ 23)
      by (apply Z.pow_le_mono_r; lia).
    change (2 ^ 23) with 8388608 in *. lia.
  - right. assert (Hd : Z.pos (digits2_pos m) = 24) by lia.
    rewrite Hd in Hlo, Hhi.
    change (2 ^ (24 - 1)) with 8388608 in Hlo.
    change (2 ^ 24) with 16777216 in Hhi. lia.
Qed.

Lemma ranges_bounded (m : positive) (e : Z) :
  (Z.pos m <= 8388608 /\ e = -149) \/
  (8388608 <= Z.pos m < 16777216 /\ -149 <= e <= 104) ->
  bounded 24 128 m e = true.
Proof.
  intros H. unfold bounded, canonical_mantissa.
  rewrite andb_true_iff, fexp32, Z.eqb_eq, Z.leb_le.
  change (128 - 24) with 104.
  pose proof (digits2_pos_le m 24) as H1.
  pose proof (digits2_pos_gt m 23) as H2.
  change (2 ^ 24) with 16777216 in H1. change (2 ^ 23) with 8388608 in H2.
  pose proof (Pos2Z.is_pos (digits2_pos m)).
  destruct H as [[Hm ->]|[Hm He]]; split; lia.
Qed.

(** The three fields of a pattern assembled from a sign and the 31 bits
    below it. *)
Lemma pattern_fields (s : bool) (body : Z) :
  0 <= body < 2147483648 ->
  let w := Z.land (Z.lor (sign_bit s) body) 0xFFFFFFFF in
  Z.testbit w 31 = s /\
  Z.land (Z.shiftr w 23) 0xFF = body / 8388608 /\
  Z.land w 0x7FFFFF = body mod 8388608.
Proof.
  intros Hb w.
  assert (Hw : w = (if s then 2147483648 else 0) + body).
  { unfold w. change 0xFFFFFFFF with (Z.ones 32).
    rewrite Z.land_ones by lia. change (2 ^ 32) with 4294967296.
    assert (Hlor : Z.lor (sign_bit s) body
                   = (if s then 2147483648 else 0) + body).
    { destruct s; [|reflexivity]. change (sign_bit true) with (2 ^ 31).
      assert (Hland : Z.land (2 ^ 31) body = 0).
      { apply Z.bits_inj'. intros n Hn.
        rewrite Z.land_spec, Z.pow2_bits_eqb, Z.bits_0 by lia.
        destruct (Z.eqb_spec 31 n) as [<-|]; [|reflexivity].
        apply Z.testbit_false; [lia|]. change (2 ^ 31) with 2147483648.
        rewrite Z.div_small by lia. reflexivity. }
      rewrite <- (Z.lxor_lor _ _ Hland), <- (Z.add_nocarry_lxor _ _ Hland).
      reflexivity. }
    rewrite Hlor. apply Z.mod_small. destruct s; lia. }
  split; [|split].
  - destruct s.
    + apply Z.testbit_true; [lia|]. rewrite Hw.
      change (2 ^ 31) with 2147483648. Z.to_euclidean_division_equations. lia.
    + apply Z.testbit_false; [lia|]. rewrite Hw.
      change (2 ^ 31) with 2147483648. Z.to_euclidean_division_equations. lia.
  - change 0xFF with (Z.ones 8).
    rewrite Z.land_ones, Z.shiftr_div_pow2 by lia. rewrite Hw.
    change (2 ^ 23) with 8388608. change (2 ^ 8) with 256.
    destruct s; Z.to_euclidean_division_equations; lia.
  - change 0x7FFFFF with (Z.ones 23). rewrite Z.land_ones by lia. rewrite Hw.
    change (2 ^ 23) with 8388608.
    destruct s; Z.to_euclidean_division_equations; lia.
Qed.

(** Every float32 value but NaN payloads is read back from its pattern. *)
Lemma binary32_of_bits_of_binary32 (x : spec_float) :
  valid_binary 24 128 x = true ->
  binary32_of_bits (bits_of_binary32 x) = x.
Proof.
  destruct x as [s|s| |s m e]; simpl valid_binary; intros Hv.
  - destruct s; reflexivity.
  - destruct s; reflexivity.
  - reflexivity.
  - unfold bits_of_binary32.
    change (Z.shiftl 1 23) with 8388608.
    rewrite Z.shiftl_mul_pow2 by lia. change (2 ^ 23) with 8388608.
    set (body := if Z.pos m <? 8388608 then Z.pos m
                 else (e + 150) * 8388608 + (Z.pos m - 8388608)).
    apply bounded_ranges in Hv.
    assert (Hbody : 0 <= body < 2147483648).
    { unfold body. destruct (Z.ltb_spec (Z.pos m) 8388608); lia. }
    destruct (pattern_fields s body Hbody) as (Hs & Hex & Hfrac).
    unfold binary32_of_bits. rewrite Hs, Hex, Hfrac. unfold body.
    destruct (Z.ltb_spec (Z.pos m) 8388608) as [Hlt|Hge].
    + rewrite Z.div_small, Z.mod_small by lia. simpl.
      destruct Hv as [[_ ->]|[? _]]; [reflexivity|lia].
    + destruct Hv as [[? _]|[Hm He]]; [lia|].
      replace (((e + 150) * 8388608 + (Z.pos m - 8388608)) / 8388608)
        with (e + 150) by (Z.to_euclidean_division_equations; lia).
      replace (((e + 150) * 8388608 + (Z.pos m - 8388608)) mod 8388608)
        with (Z.pos m - 8388608) by (Z.to_euclidean_division_equations; lia).
      destruct (Z.eqb_spec (e + 150) 0); [lia|].
      destruct (Z.eqb_spec (e + 150) 255); [lia|].
      replace (Z.pos m - 8388608 + 0x800000) with (Z.pos m) by lia.
      f_equal. lia.
Qed.


Lemma two_pow_pos (c : Z) : (0 < 2 ^ c)%Q.
Proof. apply Qpower_0_lt. reflexivity. Qed.

Lemma dyadic_scaled (m e c : Z) :
  c <= e -> (dyadic m e == inject_Z (m * 2 ^ (e - c)) * 2 ^ c)%Q.
Proof.
  intros H. unfold dyadic.
  replace e with ((e - c) + c) at 1 by lia.
  rewrite Qpower_plus by discriminate.
  rewrite inject_Z_mult, Zpower_Qpower by lia.
  change (inject_Z 2) with 2%Q. ring.
Qed.

(** Comparing two dyadic numbers on integers, at a common exponent. *)
Lemma dyadic_le_scaled (c m1 e1 m2 e2 : Z) :
  c <= e1 -> c <= e2 ->
  m1 * 2 ^ (e1 - c) <= m2 * 2 ^ (e2 - c) ->
  (dyadic m1 e1 <= dyadic m2 e2)%Q.
Proof.
  intros H1 H2 H.
  rewrite (dyadic_scaled m1 e1 c H1), (dyadic_scaled m2 e2 c H2).
  apply Qmult_le_compat_r; [|apply Qlt_le_weak, two_pow_pos].
  by rewrite <- Zle_Qle.
Qed.

Lemma round_binary32_valid (x : spec_float) :
  valid_binary 24 128 (round_binary32 x) = true.
Proof.
  destruct x as [s|s| |s m e]; try reflexivity. simpl round_binary32.
  pose proof (binary_round_spec s m e) as H. cbv zeta in H.
  destruct H as (ez & mk & mr & Hez & HezE & Hk & Hr & Hhalf & Hnorm & Hsub
                 & ->).
  set (D := Z.pos (digits2_pos m) + e) in *.
  set (E := Z.max (D - 24) (-149)) in *.
  destruct (Z.eqb_spec mr 16777216) as [Hc|Hc].
  - destruct (Z.leb_spec (E + 1) 104); [|reflexivity].
    apply ranges_bounded. right. lia.
  - destruct mr as [|m'|m']; try reflexivity.
    destruct (Z.leb_spec E 104); [|reflexivity].
    apply ranges_bounded.
    destruct (Z_lt_le_dec (D - 24) (-149)) as [HD|HD].
    + left. specialize (Hsub HD). lia.
    + right. specialize (Hnorm HD). lia.
Qed.

(** A float32 value is cast to itself. *)
Lemma round_binary32_exact (x : spec_float) :
  valid_binary 24 128 x = true -> round_binary32 x = x.
Proof.
  destruct x as [s|s| |s m e]; try reflexivity.
  simpl. unfold bounded, canonical_mantissa. rewrite andb_true_iff.
  intros [Hc He]. apply Z.eqb_eq in Hc.
  unfold binary_round. rewrite Hc. unfold shl_align. rewrite Z.sub_diag.
  unfold binary_round_aux, shr_fexp. simpl Zdigits2.
  rewrite Hc, Z.sub_diag. cbn [shr shr_record_of_loc shr_m loc_of_shr_record
                                 round_nearest_even].
  simpl Zdigits2. rewrite Hc, Z.sub_diag. cbn [shr shr_record_of_loc shr_m].
  by rewrite He.
Qed.

(** The cast of a double is within half a unit in the last place. *)
Lemma round_binary32_close (x : spec_float) :
  within_float32_precision x (round_binary32 x).
Proof.
  destruct x as [s|s| |s m e]; try reflexivity. simpl round_binary32.
  pose proof (binary_round_spec s m e) as H. cbv zeta in H.
  destruct H as (ez & mk & mr & Hez & HezE & Hk & Hr & Hhalf & Hnorm & Hsub
                 & ->).
  set (D := Z.pos (digits2_pos m) + e) in *.
  set (E := Z.max (D - 24) (-149)) in *.
  assert (HP : 0 < 2 ^ (E - ez)) by (apply Z.pow_pos_nonneg; lia).
  assert (HX2 : Z.pos m * 2 ^ (e - (ez - 1)) = 2 * (Z.pos m * 2 ^ (e - ez))).
  { replace (e - (ez - 1)) with (Z.succ (e - ez)) by lia.
    rewrite Z.pow_succ_r by lia. ring. }
  assert (Hulp : forall k, k * 2 ^ (E - 1 - (ez - 1)) = k * 2 ^ (E - ez)).
  { intros k. do 2 f_equal. lia. }
  assert (Hulp1 : forall k, k * 2 ^ (E + 1 - 1 - (ez - 1))
                            = 2 * k * 2 ^ (E - ez)).
  { intros k. replace (E + 1 - 1 - (ez - 1)) with (Z.succ (E - ez)) by lia.
    rewrite Z.pow_succ_r by lia. ring. }
  set (P := 2 ^ (E - ez)) in *.
  set (X := Z.pos m * 2 ^ (e - ez)) in *.
  destruct (Z.eqb_spec mr 16777216) as [Hc|Hc].
  - assert (HD : -149 <= D - 24).
    { destruct (Z_lt_le_dec (D - 24) (-149)) as [HD|HD]; [|done].
      specialize (Hsub HD). lia. }
    subst mr. destruct (Z.leb_spec (E + 1) 104) as [HE|HE].
    + split; [done|]. split.
      * apply (dyadic_le_scaled (ez - 1)); [lia|lia|].
        rewrite HX2, Hulp1. clearbody P X. lia.
      * apply (dyadic_le_scaled (ez - 1)); [lia|lia|].
        rewrite HX2, Hulp1. clearbody P X. lia.
    + split; [done|].
      apply Qle_trans with (dyadic (2 * 16777216 - 1) (E - 1)).
      * apply (dyadic_le_scaled 103); [lia|lia|].
        assert (1 <= 2 ^ (E - 1 - 103)).
        { change 1 with (2 ^ 0). apply Z.pow_le_mono_r; lia. }
        simpl. lia.
      * apply (dyadic_le_scaled (ez - 1)); [lia|lia|].
        rewrite HX2, Hulp. clearbody P X. lia.
  - destruct mr as [|m'|m']; [| |lia].
    + split; [done|].
      assert (HE : E = -149).
      { destruct (Z_lt_le_dec (D - 24) (-149)) as [HD|HD]; [lia|].
        specialize (Hnorm HD). lia. }
      apply (dyadic_le_scaled (ez - 1)); [lia|lia|].
      rewrite HX2. replace (-150 - (ez - 1)) with (E - ez) by lia.
      fold P. clearbody P X. lia.
    + destruct (Z.leb_spec E 104) as [HE|HE].
      * split; [done|]. split.
        -- apply (dyadic_le_scaled (ez - 1)); [lia|lia|].
           rewrite HX2, Hulp. clearbody P X. lia.
        -- apply (dyadic_le_scaled (ez - 1)); [lia|lia|].
           rewrite HX2, Hulp. clearbody P X. lia.
      * split; [done|].
        assert (HD : -149 <= D - 24) by lia. specialize (Hnorm HD).
        apply Qle_trans with (dyadic mk E).
        -- apply (dyadic_le_scaled 103); [lia|lia|].
           assert (4 <= 2 ^ (E - 103)).
           { change 4 with (2 ^ 2). apply Z.pow_le_mono_r; lia. }
           simpl. nia.
        -- apply (dyadic_le_scaled ez); [lia|lia|].
           fold P. fold X. lia.
Qed.


Lemma dyadic_eq_scaled (c m1 e1 m2 e2 : Z) :
  c <= e1 -> c <= e2 ->
  (dyadic m1 e1 == dyadic m2 e2)%Q ->
  m1 * 2 ^ (e1 - c) = m2 * 2 ^ (e2 - c).
Proof.
  intros H1 H2.
  rewrite (dyadic_scaled m1 e1 c H1), (dyadic_scaled m2 e2 c H2).
  intros H. apply Qmult_inj_r in H.
  - by apply inject_Z_injective.
  - intros Hzero. pose proof (two_pow_pos c) as Hpos. rewrite Hzero in Hpos.
    by apply Qlt_irrefl in Hpos.
Qed.

(** A double that stands for a float32 number is cast to that float32. *)
Lemma binary_round_same_number (s : bool) (m m0 : positive) (e e0 : Z) :
  bounded 24 128 m0 e0 = true ->
  (dyadic (Z.pos m) e == dyadic (Z.pos m0) e0)%Q ->
  binary_round 24 128 s m e = S754_finite s m0 e0.
Proof.
  intros Hb Heq.
  pose proof (binary_round_spec s m e) as H. cbv zeta in H.
  destruct H as (ez & mk & mr & Hez & HezE & Hk & Hr & Hhalf & _ & _ & ->).
  set (D := Z.pos (digits2_pos m) + e) in *.
  set (E := Z.max (D - 24) (-149)) in *.
  assert (Hcanon : Z.max (Z.pos (digits2_pos m0) + e0 - 24) (-149) = e0
                   /\ e0 <= 104).
  { unfold bounded, canonical_mantissa in Hb.
    rewrite andb_true_iff, fexp32, Z.eqb_eq, Z.leb_le in Hb. exact Hb. }
  destruct Hcanon as [Hcanon He0].
  assert (Hm0 : Z.pos m0 < 16777216).
  { apply bounded_ranges in Hb. lia. }
  (* Both mantissas at the exponent [c]. *)
  set (c := Z.min ez e0).
  assert (Hce : c <= e) by (unfold c; lia).
  assert (Hce0 : c <= e0) by (unfold c; lia).
  clearbody c.
  pose proof (dyadic_eq_scaled c _ _ _ _ Hce Hce0 Heq) as Hv.
  pose proof (digits2_pos_bounds m) as [Hlo Hhi].
  pose proof (digits2_pos_bounds m0) as [Hlo0 Hhi0].
  assert (HD : D = Z.pos (digits2_pos m0) + e0).
  { apply Z.le_antisymm.
    - destruct (Z_lt_le_dec (Z.pos (digits2_pos m0) + e0) D) as [Hlt|]; [|done].
      exfalso.
      assert (H1 : 2 ^ (Z.pos (digits2_pos m0) + (e0 - c))
                   <= 2 ^ (Z.pos (digits2_pos m) - 1 + (e - c)))
        by (apply Z.pow_le_mono_r; lia).
      pose proof (Pos2Z.is_pos (digits2_pos m)).
      pose proof (Pos2Z.is_pos (digits2_pos m0)).
      rewrite !Z.pow_add_r in H1 by lia.
      assert (0 < 2 ^ (e - c)) by (apply Z.pow_pos_nonneg; lia).
      assert (0 < 2 ^ (e0 - c)) by (apply Z.pow_pos_nonneg; lia).
      hide_pow. nia.
    - destruct (Z_lt_le_dec D (Z.pos (digits2_pos m0) + e0)) as [Hlt|]; [|done].
      exfalso.
      assert (H1 : 2 ^ (Z.pos (digits2_pos m) + (e - c))
                   <= 2 ^ (Z.pos (digits2_pos m0) - 1 + (e0 - c)))
        by (apply Z.pow_le_mono_r; lia).
      pose proof (Pos2Z.is_pos (digits2_pos m)).
      pose proof (Pos2Z.is_pos (digits2_pos m0)).
      rewrite !Z.pow_add_r in H1 by lia.
      assert (0 < 2 ^ (e - c)) by (apply Z.pow_pos_nonneg; lia).
      assert (0 < 2 ^ (e0 - c)) by (apply Z.pow_pos_nonneg; lia).
      hide_pow. nia. }
  assert (HE : E = e0) by lia.
  assert (Hez0 : ez <= e0) by lia.
  pose proof (dyadic_eq_scaled ez _ _ _ _ Hez Hez0 Heq) as Hz.
  rewrite Hz, HE in Hk, Hhalf.
  assert (HP : 0 < 2 ^ (e0 - ez)) by (apply Z.pow_pos_nonneg; lia).
  assert (Hmr : mr = Z.pos m0).
  { set (P := 2 ^ (e0 - ez)) in *. clearbody P. nia. }
  rewrite Hmr. destruct (Z.eqb_spec (Z.pos m0) 16777216); [lia|].
  rewrite HE. destruct (Z.leb_spec e0 104); [reflexivity|lia].
Qed.

End Cast.

(** C1: decoding the blob [insert_entry] stores gives back the float32
    coercion of the vector, for every array.  For a float64 vector [v], of
    any length, the blob always decodes, to one float32 per element of [v],
    and each is the element within float32 precision: it is a float32
    value; a zero, an infinity or NaN is kept; a finite element comes back
    with its sign, at most half a unit in the last place away (or as a
    zero or an infinity beyond the range of float32); and an element that
    stands for a float32 number comes back as exactly that number.  A
    float32 vector comes back bit for bit.  The vector 0.1, 0.2, 0.3 of
    the specification's scenario decodes to the patterns of the float32
    numbers nearest to them. *)
Theorem C1_decode_encode_roundtrip :
  (forall a : ndarray,
      obind (encode a) (fun bs => np_frombuffer (VBlob bs))
      = astype_float32 a)
  /\ (forall v : list spec_float,
         exists ws : list word32,
           obind (encode (Float64Array v)) (fun bs => np_frombuffer (VBlob bs))
           = Returned ws /\
           Forall2 (fun x w =>
                      valid_binary 24 128 (binary32_of_bits w) = true /\
                      within_float32_precision x (binary32_of_bits w) /\
                      (forall d : spec_float,
                          valid_binary 24 128 d = true ->
                          same_number x d ->
                          binary32_of_bits w = d))
                   v ws)
  /\ (forall ws : list word32,
         Forall is_word32 ws ->
         obind (encode (Float32Array ws)) (fun bs => np_frombuffer (VBlob bs))
         = Returned ws)
  /\ obind (encode sample_embedding) (fun bs => np_frombuffer (VBlob bs))
     = Returned [0x3DCCCCCD; 0x3E4CCCCD; 0x3E99999A].
Proof.
  assert (Hgen : forall a : ndarray,
             obind (encode a) (fun bs => np_frombuffer (VBlob bs))
             = astype_float32 a).
  { intros a. unfold encode.
    destruct (astype_float32 a) as [ws|e] eqn:Ha; simpl; [|done].
    apply frombuffer_tobytes. eauto using astype_float32_words. }
  split; [exact Hgen|]. split; [|split].
  - intros v. exists (map float32_of_float64 v).
    split; [by rewrite Hgen|].
    induction v as [|x v IH]; constructor; [|exact IH].
    unfold float32_of_float64.
    rewrite (binary32_of_bits_of_binary32 _ (round_binary32_valid x)).
    split; [apply round_binary32_valid|].
    split; [apply round_binary32_close|].
    intros d Hd Hsame.
    destruct x as [s|s| |s m e]; try exact Hsame.
    destruct d as [s'|s'| |s' m' e']; try discriminate Hsame.
    destruct Hsame as [<- Heq]. simpl.
    by apply binary_round_same_number.
  - intros ws Hws. rewrite Hgen. simpl. f_equal.
    induction Hws as [|w ws Hw _ IH]; [done|]. simpl. by rewrite IH, Hw.
  - vm_compute. reflexivity.
Qed.

Lemma C1_decode_encode_roundtrip_witness :
  exists ws : list word32,
    obind (encode (Float64Array [S754_finite false 0x18000000000000 (-52)]))
          (fun bs => np_frombuffer (VBlob bs)) = Returned ws /\
    map binary32_of_bits ws = [S754_finite false 0xC00000 (-23)].
Proof.
  destruct C1_decode_encode_roundtrip as (_ & H & _ & _).
  destruct (H [S754_finite false 0x18000000000000 (-52)])
    as (ws & Hws & HF).
  exists ws. split; [exact Hws|].
  inversion HF as [|x w l k (_ & _ & Hex) Hrest]; subst.
  inversion Hrest; subst. simpl. f_equal.
  apply Hex; [vm_compute; reflexivity|].
  split; [reflexivity|]. vm_compute. reflexivity.
Defined.

(** ** Ordering *)

Section Ordering.

Lemma lex_leb_total (a b : list Z) : lex_leb a b = true \/ lex_leb b a = true.
Proof.
  revert b. induction a as [|x a IH]; intros [|y b]; simpl; auto.
  destruct (Z.ltb_spec x y), (Z.ltb_spec y x), (Z.eqb_spec x y),
    (Z.eqb_spec y x); simpl; auto; lia.
Qed.

Lemma lex_leb_trans (a b c : list Z) :
  lex_leb a b = true -> lex_leb b c = true -> lex_leb a c = true.
Proof.
  revert b c. induction a as [|x a IH]; intros [|y b] [|z c]; simpl; auto;
    try discriminate.
  destruct (Z.ltb_spec x y), (Z.ltb_spec y z), (Z.ltb_spec x z),
    (Z.eqb_spec x y), (Z.eqb_spec y z), (Z.eqb_spec x z);
    simpl; auto; try lia; try discriminate; eauto.
Qed.

#[global] Instance value_ge_total : Total value_ge.
Proof.
  intros v w. unfold value_ge.
  destruct v as [|a|a|a], w as [|b|b|b]; simpl; auto using lex_leb_total.
  destruct (Z.leb_spec a b), (Z.leb_spec b a); auto; lia.
Qed.

#[global] Instance value_ge_trans : Transitive value_ge.
Proof.
  intros u v w. unfold value_ge.
  destruct u as [|a|a|a], v as [|b|b|b], w as [|c|c|c]; simpl; auto;
    try discriminate; eauto using lex_leb_trans.
  intros H1 H2. apply Z.leb_le in H1, H2. apply Z.leb_le. lia.
Qed.

#[global] Instance row_ge_total t c : Total (row_ge t c).
Proof. intros r1 r2. unfold row_ge. apply total, _. Qed.

#[global] Instance row_ge_trans t c : Transitive (row_ge t c).
Proof. intros r1 r2 r3. unfold row_ge. apply transitivity. Qed.

Lemma order_by_desc_sorted (t : table) (c : string) :
  StronglySorted value_ge (map (fun r => cell t r c) (order_by_desc t c)).
Proof.
  apply StronglySorted_fmap with (R1 := row_ge t c); [auto|].
  unfold order_by_desc. apply StronglySorted_merge_sort; apply _.
Qed.

Lemma order_by_desc_perm (t : table) (c : string) :
  order_by_desc t c ≡ₚ tbl_rows t.
Proof. apply merge_sort_Permutation. Qed.

End Ordering.

(** ** Reading *)

Section Reading.

Lemma get_timestamps_eq (db : database) :
  get_timestamps None db =
  match entries_table db with
  | Some t =>
      if has_column t "timestamp"
      then map (fun r => cell t r "timestamp") (order_by_desc t "timestamp")
      else []
  | None => []
  end.
Proof.
  unfold get_timestamps, with_connection, connect, execute, entries_table.
  simpl. unfold select_rows.
  destruct (db_tables db !! "entries"%string) as [t|]; simpl; [|done].
  rewrite !andb_true_r.
  destruct (has_column t "timestamp"); simpl; [|done].
  rewrite map_map. by apply map_ext.
Qed.

Lemma selectable_timestamp (t : table) :
  selectable t = true -> has_column t "timestamp" = true.
Proof.
  unfold selectable, canonical_columns. simpl. rewrite !andb_true_iff. tauto.
Qed.

Lemma get_all_entries_eq (db : database) :
  get_all_entries None db =
  match entries_table db with
  | Some t =>
      if selectable t
      then entries_of_rows canonical_columns
             (map (fun r => map (cell t r) canonical_columns)
                  (order_by_desc t "timestamp"))
      else Returned []
  | None => Returned []
  end.
Proof.
  unfold get_all_entries, with_connection, connect, execute, entries_table.
  simpl. unfold select_rows.
  destruct (db_tables db !! "entries"%string) as [t|]; simpl; [|done].
  unfold selectable. simpl.
  destruct (has_column t "id"), (has_column t "app"), (has_column t "title"),
    (has_column t "text"), (has_column t "timestamp"),
    (has_column t "embedding"), (has_column t "filename"); done.
Qed.

(** One loop iteration on a row of the SELECT. *)
Lemma entry_of_selected_row (t : table) (r : row) :
  entry_of_row canonical_columns (map (cell t r) canonical_columns) =
  obind (np_frombuffer (cell t r "embedding")) (fun embedding =>
    Returned (mk_Entry (cell t r "id") (cell t r "app") (cell t r "title")
                       (cell t r "text") (cell t r "timestamp") embedding
                       (cell t r "filename"))).
Proof. reflexivity. Qed.

Lemma entries_of_rows_cons (keys : list string) (r : list value)
    (rest : list (list value)) :
  entries_of_rows keys (r :: rest) =
  obind (entry_of_row keys r) (fun e =>
  obind (entries_of_rows keys rest) (fun es => Returned (e :: es))).
Proof. reflexivity. Qed.

Lemma entries_of_rows_spec (t : table) (rows : list row) (es : list Entry) :
  entries_of_rows canonical_columns
    (map (fun r => map (cell t r) canonical_columns) rows) = Returned es ->
  Forall2 (fun r e =>
             exists embedding,
               np_frombuffer (cell t r "embedding") = Returned embedding /\
               e = mk_Entry (cell t r "id") (cell t r "app")
                     (cell t r "title") (cell t r "text")
                     (cell t r "timestamp") embedding (cell t r "filename"))
          rows es.
Proof.
  revert es. induction rows as [|r rows IH]; intros es.
  - intros [= <-]. constructor.
  - rewrite map_cons, entries_of_rows_cons, entry_of_selected_row.
    destruct (np_frombuffer (cell t r "embedding")) as [emb|e] eqn:Hemb;
      simpl; [|done].
    destruct (entries_of_rows _ _) as [es'|e]; simpl; [|done].
    intros [= <-]. constructor; eauto.
Qed.

Lemma entries_of_rows_timestamps (t : table) (rows : list row)
    (es : list Entry) :
  entries_of_rows canonical_columns
    (map (fun r => map (cell t r) canonical_columns) rows) = Returned es ->
  map e_timestamp es = map (fun r => cell t r "timestamp") rows.
Proof.
  intros H. apply entries_of_rows_spec in H.
  induction H as [|r e rows es (emb & _ & ->) _ IH]; simpl; [done|].
  by rewrite IH.
Qed.

End Reading.

(** ** Inserting *)

Section Inserting.

Lemma col_index_lookup (cols : list coldef) (c : string) (i : nat) :
  col_index cols c = Some i ->
  exists d, cols !! i = Some d /\ col_name d = c.
Proof.
  revert i. induction cols as [|d cols IH]; intros i Hi; simpl in Hi; [done|].
  destruct (String.eqb_spec (col_name d) c) as [Heq|Hne].
  - injection Hi as <-. by exists d.
  - destruct (col_index cols c) as [j|] eqn:Hj; [|done].
    injection Hi as <-. by apply IH.
Qed.

Lemma has_column_index (t : table) (c : string) :
  has_column t c = true ->
  exists i d, col_index (tbl_cols t) c = Some i /\
              tbl_cols t !! i = Some d /\ col_name d = c.
Proof.
  unfold has_column. intros H. apply bool_decide_eq_true in H.
  destruct H as [i Hi]. destruct (col_index_lookup _ _ _ Hi) as (d & ? & ?).
  by exists i, d.
Qed.

(** What a successful single-row insert did. *)
Lemma insert_row_ok (name : string) (cs : list string) (vs : list value)
    (db db' : database) (rid : Z) :
  insert_row name cs vs db = Ok (db', rid) ->
  exists t,
    db_tables db !! name = Some t /\
    forallb (has_column t) cs = true /\
    choose_rowid t (db_seq db !! name) cs vs = Ok rid /\
    unique_conflict t cs vs = false /\
    db_tables db' =
      <[name := mk_table (tbl_body t) (tbl_cols t) (tbl_pk t)
                  (tbl_rows t ++ [mk_row rid (new_cells t cs vs)])]>
        (db_tables db) /\
    db_indexes db' = db_indexes db.
Proof.
  unfold insert_row. destruct (db_tables db !! name) as [t|]; [|done].
  destruct (forallb (has_column t) cs) eqn:Hcs; simpl; [|done].
  destruct (negb (length cs =? length vs)%nat); simpl; [done|].
  destruct (bool_decide (cs = [])); [done|].
  destruct (choose_rowid t (db_seq db !! name) cs vs) as [r|e] eqn:Hrid;
    [|done].
  destruct (unique_conflict t cs vs) eqn:Hu; [done|].
  intros [= <- <-]. exists t. simpl. done.
Qed.

(** A cell of the row just built. *)
Lemma new_cell (t : table) (cs : list string) (vs : list value) (rid : Z)
    (c : string) :
  has_column t c = true ->
  is_pk t c = false ->
  cell (mk_table (tbl_body t) (tbl_cols t) (tbl_pk t) (tbl_rows t ++
          [mk_row rid (new_cells t cs vs)]))
       (mk_row rid (new_cells t cs vs)) c
  = default VNull (given cs vs c).
Proof.
  intros Hc Hpk. destruct (has_column_index _ _ Hc) as (i & d & Hi & Hd & Hn).
  unfold cell. simpl. rewrite Hi.
  change (is_pk _ c) with (is_pk t c). rewrite Hpk.
  unfold new_cells. rewrite list_lookup_fmap, Hd. simpl.
  by rewrite Hn, Hpk.
Qed.

(** The shape of a table does not depend on its rows. *)
Lemma cell_rows_irrel (body : string) (cols : list coldef) (pk : option string)
    (rows rows' : list row) (r : row) (c : string) :
  cell (mk_table body cols pk rows) r c = cell (mk_table body cols pk rows') r c.
Proof. reflexivity. Qed.

(** [insert_entry] hands back an id only when its INSERT went through with
    the encoded embedding. *)
Lemma insert_entry_returns_id (fault : option nat) (text : string)
    (timestamp : Z) (embedding : ndarray) (app title : string)
    (filename : option string) (db db' : database) (id : Z) :
  insert_entry fault text timestamp embedding app title filename db
    = (Returned (Some id), db') ->
  exists bs,
    encode embedding = Returned bs /\
    insert_row "entries" insert_columns
      (bound_values text timestamp bs app title filename) db = Ok (db', id).
Proof.
  unfold insert_entry. destruct (encode embedding) as [bs|e]; [|done].
  unfold connect.
  destruct (bool_decide (fault = Some 0%nat)) eqn:Hf0; [done|].
  destruct (negb (in_int64 timestamp) && insert_compiles fault db); [done|].
  unfold with_connection, connect. rewrite Hf0.
  unfold insert_entry_body, bind, execute, commit, faulty, ret. simpl.
  destruct (bool_decide (fault = Some 1%nat)); [done|].
  fold (bound_values text timestamp bs app title filename).
  destruct (insert_row _ _ _ db) as [[db1 rid]|e] eqn:Hins; simpl; [|done].
  destruct (bool_decide (fault = Some 2%nat)); simpl; [done|].
  intros [= <- <-]. by exists bs.
Qed.

End Inserting.

Lemma embedding_not_pk (t : table) (seq : option Z) (text : string)
    (timestamp : Z) (bs : list octet) (app title : string)
    (filename : option string) (rid : Z) :
  choose_rowid t seq insert_columns
    (bound_values text timestamp bs app title filename) = Ok rid ->
  is_pk t "embedding" = false.
Proof.
  unfold choose_rowid, is_pk. intros H.
  destruct (tbl_pk t) as [pk|]; [|done].
  apply bool_decide_eq_false. intros [= ->]. simpl in H. done.
Qed.

(** C7: when [insert_entry] returns an id, the row it added (the last one,
    carrying that id) holds in [embedding] a blob of exactly four bytes per
    element of the vector, so of a length that is a multiple of 4; and if
    every embedding stored before was such a blob, every embedding stored
    afterwards is. *)
Theorem C7_stored_blob_length (fault : option nat) (text : string)
    (timestamp : Z) (embedding : ndarray) (app title : string)
    (filename : option string) (db db' : database) (id : Z) :
  insert_entry fault text timestamp embedding app title filename db
    = (Returned (Some id), db') ->
  (exists t r bs,
      entries_table db' = Some t /\
      last (tbl_rows t) = Some r /\
      row_id r = id /\
      cell t r "embedding" = VBlob bs /\
      length bs = (4 * size embedding)%nat /\
      Z.of_nat (length bs) mod 4 = 0)
  /\ (embeddings_aligned db -> embeddings_aligned db').
Proof.
  intros H. apply insert_entry_returns_id in H as (bs & Henc & Hins).
  apply insert_row_ok in Hins as (t & Ht & Hcs & Hrid & _ & Htabs & _).
  pose proof (embedding_not_pk _ _ _ _ _ _ _ _ _ Hrid) as Hpk.
  assert (Hcol : has_column t "embedding" = true).
  { simpl in Hcs. rewrite !andb_true_iff in Hcs. tauto. }
  pose proof (new_cell t insert_columns
                (bound_values text timestamp bs app title filename) id
                "embedding" Hcol Hpk) as Hcell.
  simpl in Hcell.
  assert (Hlen : Z.of_nat (length bs) mod 4 = 0).
  { rewrite (encode_length _ _ Henc), Nat2Z.inj_mul, Z.mul_comm.
    apply Z.mod_mul. lia. }
  assert (Ht' : entries_table db' = Some
            (mk_table (tbl_body t) (tbl_cols t) (tbl_pk t)
               (tbl_rows t ++
                [mk_row id (new_cells t insert_columns
                   (bound_values text timestamp bs app title filename))]))).
  { unfold entries_table. rewrite Htabs. apply lookup_insert_eq. }
  split.
  - eexists _, _, bs. split; [exact Ht'|]. simpl.
    split; [apply last_snoc|]. split; [done|]. split; [exact Hcell|].
    split; [by apply encode_length | exact Hlen].
  - unfold embeddings_aligned. rewrite Ht'. unfold entries_table. rewrite Ht.
    simpl. intros Hold. apply Forall_app. split.
    + exact Hold.
    + constructor; [|constructor]. exists bs. split; [exact Hcell | exact Hlen].
Qed.

Lemma C7_stored_blob_length_witness :
  exists t r bs,
    entries_table (capture 100 None fresh_store) = Some t /\
    last (tbl_rows t) = Some r /\
    row_id r = 1 /\
    cell t r "embedding" = VBlob bs /\
    length bs = (4 * size sample_embedding)%nat /\
    Z.of_nat (length bs) mod 4 = 0.
Proof.
  refine (proj1 (C7_stored_blob_length None "hello" 100 sample_embedding
                   "Notes" "Untitled" None fresh_store
                   (capture 100 None fresh_store) 1 _)).
  vm_compute. reflexivity.
Defined.

(** C10: the encoding runs before the guarded region: when the float32
    coercion of the embedding argument raises, [insert_entry] raises that
    same error to its caller, whatever the state of the store, and leaves the
    store alone. *)
Theorem C10_encoding_error_propagates (fault : option nat) (text : string)
    (timestamp : Z) (embedding : ndarray) (app title : string)
    (filename : option string) (db : database) (e : exn) :
  astype_float32 embedding = Raised e ->
  insert_entry fault text timestamp embedding app title filename db
    = (Raised e, db).
Proof.
  intros H. unfold insert_entry, encode. by rewrite H.
Qed.

Lemma C10_encoding_error_propagates_witness :
  insert_entry None "hello" 1000
    (ObjectArray [PyFloat (S754_zero false); PyInt (10 ^ 400)]) "Notes"
    "Untitled" None fresh_store
  = (Raised OverflowError, fresh_store).
Proof.
  apply (C10_encoding_error_propagates None "hello" 1000
           (ObjectArray [PyFloat (S754_zero false); PyInt (10 ^ 400)]) "Notes"
           "Untitled" None fresh_store OverflowError).
  vm_compute. reflexivity.
Defined.

(** C6: once the embedding is encoded, any error of the store during the
    call (the connection cannot be opened, or the INSERT reaches the store
    and the statement fails there, is rejected, or cannot be committed)
    makes [insert_entry] return None without raising, and the store is
    exactly what it was before the call. *)
Theorem C6_insert_failure_isolated (fault : option nat) (text : string)
    (timestamp : Z) (embedding : ndarray) (app title : string)
    (filename : option string) (db : database) (bs : list octet) :
  encode embedding = Returned bs ->
  (fault = Some 0%nat \/
   (reaches_store fault timestamp db /\
    (fault = Some 1%nat \/ fault = Some 2%nat \/
     exists e, insert_row "entries" insert_columns
                 (bound_values text timestamp bs app title filename) db
               = Err e))) ->
  insert_entry fault text timestamp embedding app title filename db
    = (Returned None, db).
Proof.
  intros Henc Hfail. unfold insert_entry. rewrite Henc. unfold connect.
  destruct (bool_decide (fault = Some 0%nat)) eqn:Hf0; [done|].
  apply bool_decide_eq_false in Hf0.
  destruct Hfail as [?|[Hreach Hfail]]; [done|].
  assert (Hov : negb (in_int64 timestamp) && insert_compiles fault db = false).
  { destruct Hreach as [-> | ->]; [done | apply andb_false_r]. }
  rewrite Hov. unfold with_connection, connect.
  rewrite (bool_decide_eq_false_2 _ Hf0).
  unfold insert_entry_body, bind, execute, commit, faulty, ret. simpl.
  fold (bound_values text timestamp bs app title filename).
  destruct (bool_decide (fault = Some 1%nat)) eqn:Hf1; [done|].
  apply bool_decide_eq_false in Hf1.
  destruct (insert_row _ _ _ db) as [[db1 rid]|e] eqn:Hins; simpl; [|done].
  destruct (bool_decide (fault = Some 2%nat)) eqn:Hf2; simpl; [done|].
  apply bool_decide_eq_false in Hf2.
  destruct Hfail as [?|[?|[e ?]]]; done.
Qed.

Lemma C6_insert_failure_isolated_witness :
  insert_entry (Some 2%nat) "hello" 100 sample_embedding "Notes" "Untitled"
    None (capture 100 None fresh_store)
  = (Returned None, capture 100 None fresh_store).
Proof.
  eapply (C6_insert_failure_isolated (Some 2%nat) "hello" 100
            sample_embedding "Notes" "Untitled" None
            (capture 100 None fresh_store)).
  - vm_compute. reflexivity.
  - right. split; [left; reflexivity | right; left; reflexivity].
Defined.

(** ** Malformed and missing data *)

Section Decoding.

Lemma misaligned_blob_raises (b : list octet) :
  Z.of_nat (length b) mod 4 <> 0 -> np_frombuffer (VBlob b) = Raised ValueError.
Proof.
  intros H. simpl. unfold frombuffer.
  by destruct (Z.eqb_spec (Z.of_nat (length b) mod 4) 0).
Qed.

(** The loop returns only if every row decoded. *)
Lemma entries_of_rows_all_decode (t : table) (rows : list row)
    (es : list Entry) (r : row) :
  entries_of_rows canonical_columns
    (map (fun r => map (cell t r) canonical_columns) rows) = Returned es ->
  r ∈ rows ->
  exists e embedding,
    e ∈ es /\
    np_frombuffer (cell t r "embedding") = Returned embedding /\
    e = mk_Entry (cell t r "id") (cell t r "app") (cell t r "title")
          (cell t r "text") (cell t r "timestamp") embedding
          (cell t r "filename").
Proof.
  intros H Hr. apply entries_of_rows_spec in H.
  induction H as [|r' e rows es (emb & Hemb & ->) _ IH].
  - by apply elem_of_nil in Hr.
  - apply elem_of_cons in Hr as [->|Hr].
    + eexists _, emb. split; [apply list_elem_of_here|]. done.
    + destruct (IH Hr) as (e & emb' & ? & ? & ?).
      exists e, emb'. split; [by apply list_elem_of_further|]. done.
Qed.

(** A row whose stored filename is NULL comes back with filename None. *)
Lemma null_filename_reported (db : database) (t : table) (es : list Entry)
    (r : row) :
  entries_table db = Some t ->
  selectable t = true ->
  get_all_entries None db = Returned es ->
  r ∈ tbl_rows t ->
  cell t r "filename" = VNull ->
  exists e, e ∈ es /\ e_id e = cell t r "id" /\ e_filename e = VNull.
Proof.
  intros Ht Hsel. rewrite get_all_entries_eq, Ht, Hsel.
  intros H Hr Hnull.
  destruct (entries_of_rows_all_decode t _ es r H) as (e & emb & He & _ & ->).
  { by rewrite order_by_desc_perm. }
  exists (mk_Entry (cell t r "id") (cell t r "app") (cell t r "title")
            (cell t r "text") (cell t r "timestamp") emb
            (cell t r "filename")).
  by rewrite Hnull in *.
Qed.

End Decoding.

(** C9: on a table that answers the SELECT, a row whose embedding blob has a
    length that is no multiple of 4 makes [get_all_entries] raise to its
    caller: it returns no list at all, neither empty nor shortened. *)
Theorem C9_malformed_blob_raises (db : database) (t : table) (r : row)
    (b : list octet) :
  entries_table db = Some t ->
  selectable t = true ->
  r ∈ tbl_rows t ->
  cell t r "embedding" = VBlob b ->
  Z.of_nat (length b) mod 4 <> 0 ->
  exists e, get_all_entries None db = Raised e.
Proof.
  intros Ht Hsel Hr Hb Hlen. rewrite get_all_entries_eq, Ht, Hsel.
  destruct (entries_of_rows _ _) as [es|e] eqn:Hes; [|by exists e].
  destruct (entries_of_rows_all_decode t _ es r Hes) as (_ & emb & _ & Hemb & _).
  { by rewrite order_by_desc_perm. }
  rewrite Hb, (misaligned_blob_raises _ Hlen) in Hemb. done.
Qed.

Lemma C9_malformed_blob_raises_witness :
  exists e, get_all_entries None corrupt_store = Raised e.
Proof.
  eapply (C9_malformed_blob_raises corrupt_store _
            (mk_row 1 [VNull; VText "Notes"; VText "Untitled"; VText "hello";
                       VInt 1000; VBlob [0; 0; 128]; VNull])
            [0; 0; 128]).
  - vm_compute. reflexivity.
  - vm_compute. reflexivity.
  - apply list_elem_of_here.
  - vm_compute. reflexivity.
  - vm_compute. discriminate.
Defined.

(** C8 at a legacy table without the [filename] column: the SELECT names the
    column, the store refuses the statement, and [get_all_entries] returns
    no entry at all although the table holds two rows. *)
Theorem C8_missing_filename_column_returns_nothing :
  (exists t, entries_table legacy_store_no_filename = Some t /\
             has_column t "filename" = false /\
             length (tbl_rows t) = 2%nat)
  /\ get_all_entries None legacy_store_no_filename = Returned [].
Proof.
  split; [|vm_compute; reflexivity].
  eexists. split; [vm_compute; reflexivity|]. split; vm_compute; reflexivity.
Qed.

(** ** Inserting into a table of the current shape *)

Section CurrentShape.

Lemma insert_row_current (db : database) (t : table) (text : string)
    (timestamp : Z) (bs : list octet) (app title : string)
    (filename : option string) :
  entries_table db = Some t ->
  current_shape t ->
  next_id db t <= int64_max ->
  insert_row "entries" insert_columns
    (bound_values text timestamp bs app title filename) db
  = Ok (with_row db t
          (entry_row (next_id db t) text timestamp bs app title filename)
          (next_id db t),
        next_id db t).
Proof.
  intros Ht [Hcols Hpk] Hid. unfold insert_row, entries_table in *.
  rewrite Ht. destruct t as [body cols pk rows]. simpl in Hcols, Hpk.
  subst cols pk. unfold next_id in *. simpl in Hid.
  unfold choose_rowid, fresh_rowid. simpl.
  destruct (Z.leb_spec
              (Z.max (default 0 (db_seq db !! "entries"%string))
                     (max_rowid rows) + 1) int64_max) as [_|?]; [|lia].
  reflexivity.
Qed.

Lemma insert_entry_success (text : string) (timestamp : Z)
    (embedding : ndarray) (app title : string) (filename : option string)
    (db db' : database) (bs : list octet) (rid : Z) :
  encode embedding = Returned bs ->
  in_int64 timestamp = true ->
  insert_row "entries" insert_columns
    (bound_values text timestamp bs app title filename) db = Ok (db', rid) ->
  insert_entry None text timestamp embedding app title filename db
  = (Returned (Some rid), db').
Proof.
  intros Henc Hts Hins. unfold insert_entry. rewrite Henc, Hts. simpl.
  unfold with_connection, connect, insert_entry_body, bind, execute, commit,
    faulty, ret. simpl.
  fold (bound_values text timestamp bs app title filename).
  by rewrite Hins.
Qed.

Lemma max_rowid_nonneg (rows : list row) : 0 <= max_rowid rows.
Proof.
  unfold max_rowid. induction rows as [|r rows IH]; simpl; lia.
Qed.

Lemma max_rowid_snoc (rows : list row) (r : row) :
  max_rowid (rows ++ [r]) = Z.max (max_rowid rows) (Z.max (row_id r) 0).
Proof.
  unfold max_rowid. induction rows as [|r' rows IH]; simpl; [lia|].
  rewrite IH. lia.
Qed.

End CurrentShape.

Section Retrieval.

Lemma words_of_bytes_total (n : nat) (bs : list octet) :
  length bs = (4 * n)%nat -> exists ws, words_of_bytes bs = Some ws.
Proof.
  revert bs. induction n as [|n IH]; intros bs Hlen.
  - destruct bs; [by exists [] | simpl in Hlen; lia].
  - destruct bs as [|b0 [|b1 [|b2 [|b3 rest]]]]; simpl in Hlen; try lia.
    destruct (IH rest) as [ws Hws]; [lia|].
    simpl. rewrite Hws. by eexists.
Qed.

Lemma aligned_blob_decodes (v : value) :
  aligned_blob v -> exists ws, np_frombuffer v = Returned ws.
Proof.
  intros (b & -> & Hlen). simpl. unfold frombuffer. rewrite Hlen. simpl.
  destruct (words_of_bytes_total (length b / 4) b) as [ws Hws].
  - apply Nat2Z.inj. rewrite Nat2Z.inj_mul, Nat2Z.inj_div.
    change (Z.of_nat 4) with 4. apply Z.div_exact in Hlen; lia.
  - rewrite Hws. by eexists.
Qed.

Lemma entries_of_rows_total (t : table) (rows : list row) :
  Forall (fun r => aligned_blob (cell t r "embedding")) rows ->
  exists es,
    entries_of_rows canonical_columns
      (map (fun r => map (cell t r) canonical_columns) rows) = Returned es.
Proof.
  induction 1 as [|r rows Hr _ [es IH]]; [by exists []|].
  rewrite map_cons, entries_of_rows_cons, entry_of_selected_row.
  destruct (aligned_blob_decodes _ Hr) as [ws ->]. cbn [obind]. rewrite IH.
  by eexists.
Qed.

(** A store whose embeddings are all well formed can be read back. *)
Lemma get_all_entries_total (db : database) (t : table) :
  entries_table db = Some t ->
  selectable t = true ->
  embeddings_aligned db ->
  exists es,
    get_all_entries None db = Returned es /\
    entries_of_rows canonical_columns
      (map (fun r => map (cell t r) canonical_columns)
           (order_by_desc t "timestamp")) = Returned es.
Proof.
  intros Ht Hsel Hal. unfold embeddings_aligned in Hal. rewrite Ht in Hal.
  rewrite get_all_entries_eq, Ht, Hsel.
  destruct (entries_of_rows_total t (order_by_desc t "timestamp")) as [es Hes].
  { by rewrite order_by_desc_perm. }
  by exists es.
Qed.

Lemma encode_decodes (embedding : ndarray) (ws : list word32) :
  astype_float32 embedding = Returned ws ->
  encode embedding = Returned (tobytes ws) /\
  np_frombuffer (VBlob (tobytes ws)) = Returned ws /\
  aligned_blob (VBlob (tobytes ws)).
Proof.
  intros H. unfold encode. rewrite H. split; [done|]. split.
  - simpl. apply frombuffer_tobytes. eauto using astype_float32_words.
  - exists (tobytes ws). split; [done|].
    rewrite tobytes_length, Nat2Z.inj_mul, Z.mul_comm. apply Z.mod_mul. lia.
Qed.

End Retrieval.

(** C3: [get_timestamps] returns the stored timestamps, all of them, in
    descending order, for every store; whatever [get_all_entries] returns is
    in descending timestamp order too.  On a table that answers its SELECT
    and whose embeddings are blobs of whole 4-byte elements,
    [get_all_entries] returns every stored entry: the list it returns is,
    row by row, the entry of each row of the table (id, app, title, text,
    timestamp, decoded embedding, filename) taken in an order that is a
    rearrangement of the stored rows, sorted by descending timestamp, and
    its timestamps are exactly the list [get_timestamps] returns.  After
    captures at 100, 300 and 200 the timestamps read 300, 200, 100. *)
Theorem C3_descending_timestamp_order :
  (forall db : database,
      StronglySorted value_ge (get_timestamps None db) /\
      get_timestamps None db ≡ₚ stored_timestamps db)
  /\ (forall (db : database) (es : list Entry),
         get_all_entries None db = Returned es ->
         StronglySorted value_ge (map e_timestamp es))
  /\ (forall (db : database) (t : table),
         entries_table db = Some t ->
         selectable t = true ->
         embeddings_aligned db ->
         exists (es : list Entry) (rows : list row),
           get_all_entries None db = Returned es /\
           rows ≡ₚ tbl_rows t /\
           Forall2 (fun r e => stored_entry t r = Returned e) rows es /\
           StronglySorted value_ge (map e_timestamp es) /\
           map e_timestamp es = get_timestamps None db)
  /\ get_timestamps None three_captures = [VInt 300; VInt 200; VInt 100].
Proof.
  assert (Hsorted : forall (db : database) (es : list Entry),
             get_all_entries None db = Returned es ->
             StronglySorted value_ge (map e_timestamp es)).
  { intros db es. rewrite get_all_entries_eq.
    destruct (entries_table db) as [t|]; [|intros [= <-]; constructor].
    destruct (selectable t); [|intros [= <-]; constructor].
    intros H. rewrite (entries_of_rows_timestamps _ _ _ H).
    apply order_by_desc_sorted. }
  split; [|split; [exact Hsorted|split]].
  - intros db. rewrite get_timestamps_eq. unfold stored_timestamps.
    destruct (entries_table db) as [t|]; [|split; [constructor|done]].
    destruct (has_column t "timestamp"); [|split; [constructor|done]].
    split; [apply order_by_desc_sorted|].
    apply Permutation_map, order_by_desc_perm.
  - intros db t Ht Hsel Hal.
    destruct (get_all_entries_total db t Ht Hsel Hal) as (es & Hget & Hes).
    exists es, (order_by_desc t "timestamp").
    split; [exact Hget|]. split; [apply order_by_desc_perm|].
    split; [|split; [by eapply Hsorted|]].
    + apply entries_of_rows_spec in Hes.
      eapply Forall2_impl; [exact Hes|].
      intros r e (emb & Hemb & ->). unfold stored_entry. by rewrite Hemb.
    + rewrite get_timestamps_eq, Ht, (selectable_timestamp _ Hsel).
      by apply entries_of_rows_timestamps.
  - vm_compute. reflexivity.
Qed.

Lemma C3_descending_timestamp_order_witness :
  exists es : list Entry,
    get_all_entries None three_captures = Returned es /\
    map e_timestamp es = get_timestamps None three_captures.
Proof.
  destruct C3_descending_timestamp_order as (_ & _ & H & _).
  destruct (entries_table three_captures) as [t|] eqn:Ht;
    [|vm_compute in Ht; discriminate].
  assert (Hsel : selectable t = true).
  { vm_compute in Ht. injection Ht as <-. vm_compute. reflexivity. }
  assert (Hal : embeddings_aligned three_captures).
  { unfold embeddings_aligned. rewrite Ht.
    vm_compute in Ht. injection Ht as <-.
    repeat constructor; eexists; (split; [vm_compute; reflexivity|]);
      vm_compute; reflexivity. }
  destruct (H three_captures t Ht Hsel Hal) as (es & rows & Hget & _ & _ & _ & Hts).
  exists es. split; [exact Hget | exact Hts].
Defined.

(** C3 as stated fails on a store whose table holds a row with an
    embedding that does not decode: the table answers the SELECT and holds
    one entry, [get_timestamps] returns its timestamp, and
    [get_all_entries] returns no list of entries at all: it raises. *)
Lemma C3_entries_not_returned_on_malformed_blob :
  (exists t, entries_table corrupt_store = Some t /\
             selectable t = true /\
             length (tbl_rows t) = 1%nat)
  /\ get_timestamps None corrupt_store = [VInt 1000]
  /\ get_all_entries None corrupt_store = Raised ValueError
  /\ ~ (exists es, get_all_entries None corrupt_store = Returned es).
Proof.
  split; [|split; [|split]].
  - eexists. split; [vm_compute; reflexivity|].
    split; vm_compute; reflexivity.
  - vm_compute. reflexivity.
  - vm_compute. reflexivity.
  - intros [es H]. vm_compute in H. discriminate.
Qed.

Section SameTimestamp.

Lemma current_shape_selectable (t : table) :
  current_shape t -> selectable t = true.
Proof. destruct t. intros [H1 H2]. simpl in *. subst. reflexivity. Qed.

Lemma entry_row_cells (t : table) (rid : Z) (text : string) (timestamp : Z)
    (bs : list octet) (app title : string) (filename : option string) :
  current_shape t ->
  let r := entry_row rid text timestamp bs app title filename in
  cell t r "id" = VInt rid /\
  cell t r "app" = VText app /\
  cell t r "title" = VText title /\
  cell t r "text" = VText text /\
  cell t r "timestamp" = VInt timestamp /\
  cell t r "embedding" = VBlob bs /\
  cell t r "filename" = py_optional_str filename.
Proof.
  destruct t. intros [H1 H2]. simpl in *. subst. repeat split; reflexivity.
Qed.

(** A captured row of a readable table comes back as its entry. *)
Lemma entry_row_retrieved (db : database) (t : table) (es : list Entry)
    (rid : Z) (text : string) (timestamp : Z) (ws : list word32)
    (app title : string) (filename : option string) :
  entries_table db = Some t ->
  current_shape t ->
  get_all_entries None db = Returned es ->
  Forall is_word32 ws ->
  entry_row rid text timestamp (tobytes ws) app title filename ∈ tbl_rows t ->
  entry_of rid text timestamp ws app title filename ∈ es.
Proof.
  intros Ht Hshape Hes Hws Hr.
  rewrite get_all_entries_eq, Ht, (current_shape_selectable _ Hshape) in Hes.
  destruct (entries_of_rows_all_decode t _ es
              (entry_row rid text timestamp (tobytes ws) app title filename)
              Hes) as (e & emb & He & Hemb & ->).
  { rewrite order_by_desc_perm. exact Hr. }
  destruct (entry_row_cells t rid text timestamp (tobytes ws) app title
              filename Hshape) as (H1 & H2 & H3 & H4 & H5 & H6 & H7).
  rewrite H1, H2, H3, H4, H5, H7 in He. rewrite H6 in Hemb.
  simpl in Hemb. rewrite (frombuffer_tobytes _ Hws) in Hemb.
  injection Hemb as <-. exact He.
Qed.

(** Appending a well-formed capture keeps the store readable. *)
Lemma with_row_aligned (db : database) (t : table) (rid : Z) (text : string)
    (timestamp : Z) (ws : list word32) (app title : string)
    (filename : option string) :
  entries_table db = Some t ->
  current_shape t ->
  embeddings_aligned db ->
  embeddings_aligned
    (with_row db t
       (entry_row rid text timestamp (tobytes ws) app title filename) rid).
Proof.
  intros Ht Hshape Hal. unfold embeddings_aligned, entries_table in *.
  rewrite Ht in Hal. simpl. rewrite lookup_insert_eq. simpl.
  apply Forall_app. split; [exact Hal|]. constructor; [|constructor].
  destruct (entry_row_cells t rid text timestamp (tobytes ws) app title
              filename Hshape) as (_ & _ & _ & _ & _ & H6 & _).
  change (cell _ ?r "embedding") with (cell t r "embedding"). rewrite H6.
  exists (tobytes ws). split; [done|].
  rewrite tobytes_length, Nat2Z.inj_mul, Z.mul_comm. apply Z.mod_mul. lia.
Qed.

End SameTimestamp.

(** C4: on a readable table of the current shape, with room for two more
    ids and a timestamp the store can hold, two [insert_entry] calls with
    the same timestamp both return an id, the ids differ, and
    [get_all_entries] afterwards returns both entries, each with the fields
    and the float32 coercion of the embedding it was inserted with. *)
Theorem C4_same_timestamp_both_inserted (db : database) (t : table)
    (timestamp : Z)
    (text1 app1 title1 : string) (filename1 : option string)
    (embedding1 : ndarray) (ws1 : list word32)
    (text2 app2 title2 : string) (filename2 : option string)
    (embedding2 : ndarray) (ws2 : list word32) :
  entries_table db = Some t ->
  current_shape t ->
  embeddings_aligned db ->
  next_id db t + 1 <= int64_max ->
  in_int64 timestamp = true ->
  astype_float32 embedding1 = Returned ws1 ->
  astype_float32 embedding2 = Returned ws2 ->
  exists (id1 id2 : Z) (db1 db2 : database) (es : list Entry),
    insert_entry None text1 timestamp embedding1 app1 title1 filename1 db
      = (Returned (Some id1), db1) /\
    insert_entry None text2 timestamp embedding2 app2 title2 filename2 db1
      = (Returned (Some id2), db2) /\
    id1 <> id2 /\
    get_all_entries None db2 = Returned es /\
    entry_of id1 text1 timestamp ws1 app1 title1 filename1 ∈ es /\
    entry_of id2 text2 timestamp ws2 app2 title2 filename2 ∈ es.
Proof.
  intros Ht Hshape Hal Hid Hts Hws1 Hws2.
  destruct (encode_decodes _ _ Hws1) as (Henc1 & _ & _).
  destruct (encode_decodes _ _ Hws2) as (Henc2 & _ & _).
  set (id1 := next_id db t).
  set (r1 := entry_row id1 text1 timestamp (tobytes ws1) app1 title1 filename1).
  set (db1 := with_row db t r1 id1).
  set (t1 := mk_table (tbl_body t) (tbl_cols t) (tbl_pk t) (tbl_rows t ++ [r1])).
  assert (Ht1 : entries_table db1 = Some t1) by apply lookup_insert_eq.
  assert (Hshape1 : current_shape t1) by exact Hshape.
  assert (Hnext : next_id db1 t1 = id1 + 1).
  { unfold next_id, db1, t1, with_row. simpl. rewrite lookup_insert_eq.
    simpl. rewrite max_rowid_snoc. simpl.
    assert (Hid1 : id1 = Z.max (default 0 (db_seq db !! "entries"%string))
                           (max_rowid (tbl_rows t)) + 1) by reflexivity.
    pose proof (max_rowid_nonneg (tbl_rows t)). lia. }
  set (id2 := next_id db1 t1).
  set (r2 := entry_row id2 text2 timestamp (tobytes ws2) app2 title2 filename2).
  set (db2 := with_row db1 t1 r2 id2).
  set (t2 := mk_table (tbl_body t1) (tbl_cols t1) (tbl_pk t1)
               (tbl_rows t1 ++ [r2])).
  assert (Ht2 : entries_table db2 = Some t2) by apply lookup_insert_eq.
  assert (Hshape2 : current_shape t2) by exact Hshape.
  assert (Hal2 : embeddings_aligned db2).
  { apply with_row_aligned; [done..|]. by apply with_row_aligned. }
  destruct (get_all_entries_total db2 t2 Ht2
              (current_shape_selectable _ Hshape2) Hal2) as (es & Hes & _).
  exists id1, id2, db1, db2, es. split; [|split; [|split; [|split; [|split]]]].
  - eapply insert_entry_success; [done..|].
    apply insert_row_current; [done..|]. fold id1. lia.
  - eapply insert_entry_success; [done..|].
    apply insert_row_current; [done..|]. fold id2. unfold id2. lia.
  - unfold id2. lia.
  - exact Hes.
  - apply (entry_row_retrieved db2 t2); [done..| |].
    + eauto using astype_float32_words.
    + simpl. apply elem_of_app. left. apply elem_of_app. right.
      apply list_elem_of_here.
  - apply (entry_row_retrieved db2 t2); [done..| |].
    + eauto using astype_float32_words.
    + simpl. apply elem_of_app. right. apply list_elem_of_here.
Qed.

Lemma C4_same_timestamp_both_inserted_witness :
  exists (id1 id2 : Z) (db1 db2 : database) (es : list Entry),
    insert_entry None "hello" 1000 sample_embedding "Notes" "Untitled"
                 (Some "shot1.png"%string) fresh_store
      = (Returned (Some id1), db1) /\
    insert_entry None "again" 1000 (Int64Array [3]) "Mail" "Inbox" None db1
      = (Returned (Some id2), db2) /\
    id1 <> id2 /\
    get_all_entries None db2 = Returned es /\
    entry_of id1 "hello" 1000 [1036831949; 1045220557; 1050253722] "Notes"
             "Untitled" (Some "shot1.png"%string) ∈ es /\
    entry_of id2 "again" 1000 [1077936128] "Mail" "Inbox" None ∈ es.
Proof.
  eapply (C4_same_timestamp_both_inserted fresh_store _ 1000
            "hello" "Notes" "Untitled" (Some "shot1.png"%string)
            sample_embedding _
            "again" "Mail" "Inbox" None (Int64Array [3]) _).
  - vm_compute. reflexivity.
  - split; vm_compute; reflexivity.
  - vm_compute. constructor.
  - vm_compute. discriminate.
  - vm_compute. reflexivity.
  - vm_compute. reflexivity.
  - vm_compute. reflexivity.
Defined.

(** ** Schema creation *)

Section SchemaCreation.

#[local] Arguments create_index : simpl never.
#[local] Arguments create_table : simpl never.
#[local] Arguments alter_table_rename : simpl never.
#[local] Arguments alter_table_add_column : simpl never.
#[local] Arguments drop_table : simpl never.
#[local] Arguments insert_select : simpl never.
#[local] Arguments select_rows : simpl never.
#[local] Arguments select_master_sql : simpl never.
#[local] Arguments pragma_table_info : simpl never.
#[local] Arguments contains : simpl never.
#[local] Arguments has_column : simpl never.

Lemma execute_no_fault (s : stmt) (c : conn) :
  fault_at c = None ->
  execute s c =
  match exec s (working c) with
  | Ok (db', cur) =>
      (Ok cur,
       mk_conn (if in_txn c || is_dml s then committed c else db') db'
               (in_txn c || is_dml s) (trace c ++ [s]) (S (ops c)) None)
  | Err e =>
      (Err e,
       mk_conn (committed c) (working c) (in_txn c || is_dml s) (trace c)
               (S (ops c)) None)
  end.
Proof.
  intros Hf. unfold execute, faulty. rewrite Hf. simpl.
  destruct (exec s (working c)) as [[db' cur]|e]; reflexivity.
Qed.

Lemma create_index_tables (ine : bool) (iname tname col : string)
    (db db' : database) :
  create_index ine iname tname col db = Ok db' ->
  db_tables db' = db_tables db /\ db_seq db' = db_seq db.
Proof.
  unfold create_index. destruct (db_tables db !! tname); [|done].
  repeat case_bool_decide; try done; destruct ine; try done;
    try (by intros [= <-]);
    destruct (has_column _ _); try done; by intros [= <-].
Qed.

(** The backfill finds the column and changes nothing. *)
Lemma ensure_filename_present (c : conn) (t : table) :
  fault_at c = None ->
  db_tables (working c) !! "entries"%string = Some t ->
  has_column t "filename" = true ->
  ensure_filename c =
  (Ok tt,
   mk_conn (if in_txn c then committed c else working c) (working c)
     (in_txn c)
     (trace c ++ [Select ["filename"%string] "entries" None (Some 1%nat)])
     (S (ops c)) None).
Proof.
  intros Hf Ht Hcol. unfold ensure_filename, catch_operational, bind.
  rewrite execute_no_fault by done. simpl.
  unfold select_rows. rewrite Ht. simpl. rewrite Hcol. simpl.
  by rewrite orb_false_r.
Qed.

(** On a table that carries no legacy marker and has its [filename] column,
    only the index statement can change anything. *)
Lemma create_db_current (db : database) (t : table) :
  entries_table db = Some t ->
  legacy_marked t = false ->
  has_column t "filename" = true ->
  create_db db =
  match create_index true "idx_timestamp" "entries" "timestamp" db with
  | Ok db' => db'
  | Err _ => db
  end.
Proof.
  unfold entries_table, legacy_marked. intros Ht Hm Hf.
  unfold create_db, run_create_db, with_connection, connect. simpl.
  unfold create_db_body, bind. rewrite execute_no_fault by reflexivity. simpl.
  unfold select_master_sql. rewrite Ht. simpl. rewrite Hm.
  rewrite execute_no_fault by reflexivity. simpl.
  unfold create_table. rewrite Ht. simpl.
  rewrite execute_no_fault by reflexivity. simpl.
  destruct (create_index _ _ _ _ db) as [db'|e] eqn:Hci; simpl; [|done].
  apply create_index_tables in Hci as [Htabs _].
  erewrite ensure_filename_present; [|done| |exact Hf].
  - reflexivity.
  - simpl. by rewrite Htabs.
Qed.

Lemma create_index_again (iname tname col : string) (db db' : database) :
  create_index true iname tname col db = Ok db' ->
  create_index true iname tname col db' = Ok db'.
Proof.
  unfold create_index.
  destruct (db_tables db !! tname) as [t|] eqn:Ht; [|done].
  destruct (bool_decide (is_Some (db_tables db !! iname))) eqn:Hti; [done|].
  destruct (bool_decide (is_Some (db_indexes db !! iname))) eqn:Hii.
  - intros [= <-]. by rewrite Ht, Hti, Hii.
  - destruct (has_column t col) eqn:Hc; [|done].
    intros [= <-]. simpl. rewrite Ht, Hti, lookup_insert_eq.
    by rewrite bool_decide_eq_true_2.
Qed.

End SchemaCreation.

(** C5: on a fresh store a second [create_db] runs without error and leaves
    the store exactly as the first call left it, with the table in the
    shape of the CREATE TABLE statement; and on any store whose [entries]
    table already carries no legacy marker and has its [filename] column,
    [create_db] leaves every table and the id counters untouched, and a
    further call changes nothing at all. *)
Theorem C5_create_db_idempotent :
  (create_db (create_db empty_db) = create_db empty_db /\
   create_db_ok empty_db = true /\
   create_db_ok (create_db empty_db) = true /\
   entries_table (create_db empty_db)
   = Some (mk_table entries_body entries_cols entries_pk []))
  /\ (forall (db : database) (t : table),
         entries_table db = Some t ->
         legacy_marked t = false ->
         has_column t "filename" = true ->
         db_tables (create_db db) = db_tables db /\
         db_seq (create_db db) = db_seq db /\
         create_db (create_db db) = create_db db).
Proof.
  split.
  - repeat split; vm_compute; reflexivity.
  - intros db t Ht Hm Hf. rewrite (create_db_current db t Ht Hm Hf).
    destruct (create_index true "idx_timestamp" "entries" "timestamp" db)
      as [db'|e] eqn:Hci.
    + destruct (create_index_tables _ _ _ _ _ _ Hci) as [Htabs Hseq].
      repeat split; [done..|].
      assert (Ht' : entries_table db' = Some t).
      { unfold entries_table in *. by rewrite Htabs. }
      rewrite (create_db_current db' t Ht' Hm Hf).
      by rewrite (create_index_again _ _ _ _ _ Hci).
    + repeat split. rewrite (create_db_current db t Ht Hm Hf). by rewrite Hci.
Qed.

Lemma C5_create_db_idempotent_witness :
  db_tables (create_db three_captures) = db_tables three_captures /\
  db_seq (create_db three_captures) = db_seq three_captures /\
  create_db (create_db three_captures) = create_db three_captures.
Proof.
  eapply (proj2 C5_create_db_idempotent three_captures).
  - vm_compute. reflexivity.
  - vm_compute. reflexivity.
  - vm_compute. reflexivity.
Defined.

(** ** Migration *)

Section Migration.

#[local] Arguments create_index : simpl never.
#[local] Arguments create_table : simpl never.
#[local] Arguments alter_table_rename : simpl never.
#[local] Arguments alter_table_add_column : simpl never.
#[local] Arguments drop_table : simpl never.
#[local] Arguments insert_select : simpl never.
#[local] Arguments select_rows : simpl never.
#[local] Arguments select_master_sql : simpl never.
#[local] Arguments pragma_table_info : simpl never.
#[local] Arguments contains : simpl never.
#[local] Arguments has_column : simpl never.

Lemma col_index_is_Some (cols : list coldef) (c : string) :
  is_Some (col_index cols c) <-> c ∈ map col_name cols.
Proof.
  induction cols as [|d cols IH]; simpl.
  - split; [by intros [? ?] | by intros ?%elem_of_nil].
  - destruct (String.eqb_spec (col_name d) c) as [->|Hne].
    + split; [intros _; apply list_elem_of_here | by eexists].
    + rewrite elem_of_cons, <- IH, fmap_is_Some.
      split; [by right | by intros [->|?]].
Qed.

Lemma has_column_elem (t : table) (c : string) :
  has_column t c = true <-> c ∈ col_names t.
Proof.
  unfold has_column, col_names. rewrite bool_decide_eq_true.
  apply col_index_is_Some.
Qed.

(** The names PRAGMA table_info reports are the table's columns. *)
Lemma table_info_names (t : table) :
  map second (imap (table_info_row t) (tbl_cols t))
  = map (fun d => VText (col_name d)) (tbl_cols t).
Proof.
  change (map second (imap (table_info_row t) (tbl_cols t)))
    with (second <$> imap (table_info_row t) (tbl_cols t)).
  rewrite fmap_imap. unfold table_info_row, second. simpl.
  apply (imap_const (fun d => VText (col_name d))).
Qed.

Lemma common_columns_copied (t : table) :
  List.filter
    (fun col => bool_decide
       (VText col ∈ map second (imap (table_info_row t) (tbl_cols t))))
    canonical_columns
  = copied_columns t.
Proof.
  unfold copied_columns. apply List.filter_ext. intros c.
  rewrite table_info_names.
  destruct (has_column t c) eqn:Hc.
  - apply bool_decide_eq_true. apply has_column_elem in Hc.
    unfold col_names in Hc. apply list_elem_of_fmap in Hc as (d & -> & Hd).
    apply list_elem_of_fmap. by exists d.
  - apply bool_decide_eq_false. intros Hin.
    apply list_elem_of_fmap in Hin as (d & [= ->] & Hd).
    assert (has_column t (col_name d) = true); [|congruence].
    apply has_column_elem, list_elem_of_fmap. by exists d.
Qed.

Lemma given_map (f : string -> value) (cs : list string) (c : string) :
  given cs (map f cs) c = if bool_decide (c ∈ cs) then Some (f c) else None.
Proof.
  induction cs as [|c' cs IH]; simpl; [done|].
  destruct (String.eqb_spec c' c) as [->|Hne].
  - by rewrite bool_decide_eq_true_2 by apply list_elem_of_here.
  - rewrite IH. apply option_eq. intros v.
    repeat case_bool_decide; try done.
    + exfalso. apply H0. by apply list_elem_of_further.
    + apply elem_of_cons in H0 as [->|?]; done.
Qed.

Lemma copied_columns_spec (t : table) (c : string) :
  c ∈ copied_columns t <-> c ∈ canonical_columns /\ has_column t c = true.
Proof.
  unfold copied_columns. rewrite list_elem_of_In, List.filter_In.
  by rewrite <- list_elem_of_In.
Qed.

End Migration.

Section Copying.

#[local] Arguments has_column : simpl never.

Lemma canonical_in_new (acc : list row) (c : string) :
  c ∈ canonical_columns -> has_column (new_entries acc) c = true.
Proof.
  unfold canonical_columns. intros Hc.
  repeat (apply elem_of_cons in Hc as [->|Hc]; [vm_compute; reflexivity|]).
  by apply elem_of_nil in Hc.
Qed.

Lemma copied_in_new (t : table) (acc : list row) :
  forallb (has_column (new_entries acc)) (copied_columns t) = true.
Proof.
  apply forallb_forall. intros c Hc. apply list_elem_of_In in Hc.
  apply copied_columns_spec in Hc as [Hc _]. by apply canonical_in_new.
Qed.

Lemma cell_pk (t : table) (r : row) (c : string) :
  tbl_pk t = Some c -> has_column t c = true -> cell t r c = VInt (row_id r).
Proof.
  intros Hpk Hc. destruct (has_column_index _ _ Hc) as (i & d & Hi & _ & _).
  unfold cell, is_pk. rewrite Hi. by rewrite bool_decide_eq_true_2.
Qed.

Lemma id_copied (t : table) :
  has_column t "id" = true -> "id"%string ∈ copied_columns t.
Proof.
  intros H. apply copied_columns_spec. split; [apply list_elem_of_here|done].
Qed.

(** Copying one row of the old table into the new one. *)
Lemma copy_row (db0 : database) (t : table) (acc : list row) (r : row) :
  db_tables db0 !! "entries"%string = Some (new_entries acc) ->
  tbl_pk t = Some "id"%string ->
  has_column t "id" = true ->
  row_id r ∉ map row_id acc ->
  insert_row "entries" (copied_columns t)
             (map (cell t r) (copied_columns t)) db0
  = Ok (mk_db (<["entries"%string := new_entries (acc ++ [migrated_row t r])]>
                 (db_tables db0))
              (db_indexes db0)
              (<["entries"%string :=
                   Z.max (default 0 (db_seq db0 !! "entries"%string))
                         (row_id r)]> (db_seq db0)),
        row_id r).
Proof.
  intros Hnew Hpk Hid Hfresh. unfold insert_row. rewrite Hnew.
  rewrite copied_in_new, length_map, Nat.eqb_refl. simpl.
  rewrite bool_decide_eq_false_2.
  2:{ intros Hnil. pose proof (id_copied t Hid) as Hin.
      rewrite Hnil in Hin. by apply elem_of_nil in Hin. }
  unfold choose_rowid. simpl. rewrite given_map.
  rewrite bool_decide_eq_true_2 by by apply id_copied.
  rewrite (cell_pk t r "id" Hpk Hid).
  rewrite bool_decide_eq_false_2 by done.
  reflexivity.
Qed.

(** Copying all of them, in order. *)
Lemma copy_rows (t : table) (rs : list row) :
  tbl_pk t = Some "id"%string ->
  has_column t "id" = true ->
  forall (db0 : database) (acc : list row),
    db_tables db0 !! "entries"%string = Some (new_entries acc) ->
    NoDup (map row_id acc ++ map row_id rs) ->
    exists db1,
      insert_all "entries" (copied_columns t)
        (map (fun r => map (cell t r) (copied_columns t)) rs) db0 = Ok db1 /\
      db_tables db1 =
        <["entries"%string := new_entries (acc ++ map (migrated_row t) rs)]>
          (db_tables db0) /\
      db_indexes db1 = db_indexes db0.
Proof.
  intros Hpk Hid. induction rs as [|r rs IH]; intros db0 acc Hnew Hnd.
  - exists db0. simpl. rewrite app_nil_r. split; [done|]. split; [|done].
    symmetry. by apply insert_id.
  - simpl. rewrite (copy_row db0 t acc r Hnew Hpk Hid).
    2:{ apply NoDup_app in Hnd as (_ & Hdisj & _). intros Hin.
        apply (Hdisj _ Hin). apply list_elem_of_here. }
    set (db' := mk_db _ _ _).
    destruct (IH db' (acc ++ [migrated_row t r])) as (db1 & Hall & Htabs & Hidx).
    + simpl. apply lookup_insert_eq.
    + rewrite map_app. simpl. rewrite <- app_assoc. exact Hnd.
    + exists db1. split; [exact Hall|]. split; [|exact Hidx].
      rewrite Htabs. simpl. rewrite insert_insert_eq.
      by rewrite <- app_assoc.
Qed.

End Copying.

Section MigrationRun.

#[local] Arguments create_index : simpl never.
#[local] Arguments create_table : simpl never.
#[local] Arguments alter_table_rename : simpl never.
#[local] Arguments drop_table : simpl never.
#[local] Arguments insert_select : simpl never.
#[local] Arguments select_rows : simpl never.
#[local] Arguments select_master_sql : simpl never.
#[local] Arguments pragma_table_info : simpl never.
#[local] Arguments contains : simpl never.
#[local] Arguments has_column : simpl never.
#[local] Arguments insert_all : simpl never.
#[local] Arguments copied_columns : simpl never.

Lemma copied_in_old (t : table) :
  forallb (has_column t) (copied_columns t) = true.
Proof.
  apply forallb_forall. intros c Hc. apply list_elem_of_In in Hc.
  by apply copied_columns_spec in Hc as [_ Hc].
Qed.

Lemma copied_nonempty (t : table) :
  has_column t "id" = true -> bool_decide (copied_columns t = []) = false.
Proof.
  intros Hid. apply bool_decide_eq_false. intros Hnil.
  pose proof (id_copied t Hid) as Hin. rewrite Hnil in Hin.
  by apply elem_of_nil in Hin.
Qed.

Lemma bind_execute_ok {B} (s : stmt) (k : cursor -> M B) (c : conn)
    (db' : database) (cur : cursor) :
  fault_at c = None ->
  exec s (working c) = Ok (db', cur) ->
  bind (execute s) k c =
  k cur (mk_conn (if in_txn c || is_dml s then committed c else db') db'
                 (in_txn c || is_dml s) (trace c ++ [s]) (S (ops c)) None).
Proof.
  intros Hf He. unfold bind. by rewrite execute_no_fault, He.
Qed.

Ltac run_step :=
  erewrite bind_execute_ok; [ | reflexivity | cbn [exec working] ];
  cbn [in_txn is_dml orb committed working trace ops fault_at app].

Lemma bind_ok {A B} (m : M A) (k : A -> M B) (c c' : conn) (a : A) :
  m c = (Ok a, c') -> bind m k c = k a c'.
Proof. intros H. unfold bind. by rewrite H. Qed.

(** The migration branch on a legacy store. *)
Lemma migrate_run (db : database) (t : table) (tr : list stmt) (n : nat) :
  legacy db t ->
  exists c',
    migrate (mk_conn db db false tr n None) = (Ok tt, c') /\
    fault_at c' = None /\
    db_tables (working c') !! "entries"%string = Some (migrated_table t) /\
    db_tables (working c') !! "entries_old"%string = None /\
    db_tables (working c') !! "idx_timestamp"%string = None /\
    trace c' =
      tr ++ [ AlterTableRename "entries" "entries_old";
              CreateTable false "entries" entries_body entries_cols entries_pk;
              PragmaTableInfo "entries_old";
              InsertSelect "entries" (copied_columns t) "entries_old";
              DropTable "entries_old" ].
Proof.
  intros [Ht Hm Hpk Hid Hnd Hfree Hnoidx Hidxfree].
  unfold entries_table in *.
  pose proof Hfree as Hfree'.
  apply orb_false_iff in Hfree' as [Hfree_t Hfree_i].
  apply bool_decide_eq_false in Hfree_t, Hfree_i.
  apply eq_None_not_Some in Hfree_t. apply eq_None_not_Some in Hfree_i.
  unfold migrate.
  run_step.
  2:{ unfold alter_table_rename. rewrite Ht, Hfree. reflexivity. }
  run_step.
  2:{ unfold create_table. cbn [db_tables db_indexes].
      rewrite lookup_insert_ne, lookup_delete_eq by done.
      rewrite lookup_fmap, Hnoidx. reflexivity. }
  run_step.
  2:{ reflexivity. }
  unfold pragma_table_info, rows_cursor. cbn [cur_rows db_tables].
  rewrite lookup_insert_ne, lookup_insert_eq by done.
  rewrite common_columns_copied.
  destruct (copy_rows t (tbl_rows t) Hpk Hid
              (mk_db (<["entries"%string := new_entries []]>
                        (<["entries_old"%string := t]>
                           (delete "entries"%string (db_tables db))))
                     ((fun ix => if String.eqb (idx_table ix) "entries"
                                 then mk_index "entries_old" (idx_column ix)
                                 else ix) <$> db_indexes db)
                     (match db_seq db !! "entries"%string with
                      | Some n => <["entries_old"%string := n]>
                                    (delete "entries"%string (db_seq db))
                      | None => db_seq db
                      end))
              []) as (db1 & Hall & Htabs & Hidx).
  { apply lookup_insert_eq. }
  { exact Hnd. }
  cbn [db_tables db_indexes app] in Htabs, Hidx.
  run_step.
  2:{ unfold insert_select. cbn [db_tables].
      rewrite lookup_insert_eq.
      change (mk_table entries_body entries_cols entries_pk [])
        with (new_entries []).
      rewrite copied_in_new, (copied_nonempty t Hid). cbn [negb orb].
      unfold select_rows. cbn [db_tables].
      rewrite lookup_insert_ne, lookup_insert_eq by done.
      rewrite copied_in_old. unfold option_list.
      cbn [option_rect forallb andb db_seq db_indexes db_tables].
      change (mk_table entries_body entries_cols entries_pk [])
        with (new_entries []) in *.
      rewrite Hall. reflexivity. }
  run_step.
  2:{ unfold drop_table. rewrite Htabs.
      rewrite lookup_insert_ne, lookup_insert_ne, lookup_insert_eq by done.
      reflexivity. }
  eexists. split; [reflexivity|].
  cbn [fault_at working db_tables trace].
  split; [reflexivity|].
  split; [|split; [|split]].
  - rewrite lookup_delete_ne, lookup_insert_eq by done. reflexivity.
  - by rewrite lookup_delete_eq.
  - rewrite lookup_delete_ne, !lookup_insert_ne, lookup_delete_ne by done.
    exact Hidxfree.
  - by rewrite <- !app_assoc.
Qed.

Lemma create_index_run (db : database) (t : table) :
  db_tables db !! "entries"%string = Some t ->
  db_tables db !! "idx_timestamp"%string = None ->
  has_column t "timestamp" = true ->
  exists db',
    create_index true "idx_timestamp" "entries" "timestamp" db = Ok db' /\
    db_tables db' = db_tables db.
Proof.
  intros Ht Hfree Hcol. unfold create_index. rewrite Ht, Hfree.
  rewrite bool_decide_eq_false_2 by by intros [? ?].
  destruct (bool_decide (is_Some (db_indexes db !! "idx_timestamp"%string))).
  - by exists db.
  - rewrite Hcol. by eexists.
Qed.

Lemma commit_no_fault (c : conn) :
  fault_at c = None ->
  commit c =
  (Ok tt, mk_conn (working c) (working c) false (trace c) (S (ops c)) None).
Proof. intros Hf. unfold commit, faulty. by rewrite Hf. Qed.

(** A whole [create_db] on a legacy store. *)
Lemma migration_run (db : database) (t : table) :
  legacy db t ->
  exists c,
    with_connection None create_db_body db = (Some tt, c) /\
    db_tables (committed c) !! "entries"%string = Some (migrated_table t) /\
    db_tables (committed c) !! "entries_old"%string = None /\
    trace c = migration_trace t.
Proof.
  intros Hleg. pose proof Hleg as [Ht Hm _ _ _ _ _ _].
  unfold entries_table, legacy_marked in *.
  unfold with_connection, connect.
  rewrite bool_decide_eq_false_2 by done.
  unfold create_db_body.
  run_step.
  2:{ reflexivity. }
  unfold select_master_sql, rows_cursor. cbn [cur_rows]. rewrite Ht.
  cbn [head migration_needed]. rewrite Hm.
  destruct (migrate_run db t [SelectMasterSql "entries"] 2 Hleg)
    as (c' & Hrun & Hf & Hent & Hold & Hidx & Htr).
  rewrite (bind_ok _ _ _ _ _ Hrun).
  destruct (create_index_run (working c') (migrated_table t) Hent Hidx)
    as (db' & Hci & Htabs); [vm_compute; reflexivity|].
  erewrite bind_execute_ok; [|exact Hf|cbn [exec]; rewrite Hci; reflexivity].
  erewrite bind_ok.
  2:{ apply (ensure_filename_present _ (migrated_table t)).
      - reflexivity.
      - cbn [working]. by rewrite Htabs.
      - vm_compute. reflexivity. }
  rewrite commit_no_fault by reflexivity.
  eexists. split; [reflexivity|].
  cbn [exit_ok committed working trace db_tables]. rewrite Htabs, Htr.
  split; [exact Hent|]. split; [exact Hold|].
  unfold migration_trace. by rewrite <- !app_assoc.
Qed.

End MigrationRun.

Section MigratedCells.

Lemma missing_column_null (t : table) (r : row) (c : string) :
  has_column t c = false -> cell t r c = VNull.
Proof.
  unfold has_column, cell. intros H. apply bool_decide_eq_false in H.
  apply eq_None_not_Some in H. by rewrite H.
Qed.

(** The copy holds, in every canonical column, what the old row held there
    (NULL where the old table has no such column). *)
Lemma migrated_cell (t : table) (r : row) (c : string) :
  tbl_pk t = Some "id"%string ->
  has_column t "id" = true ->
  c ∈ canonical_columns ->
  cell (migrated_table t) (migrated_row t r) c = cell t r c.
Proof.
  intros Hpk Hid Hc.
  destruct (decide (c = "id"%string)) as [->|Hne].
  - rewrite (cell_pk t r "id" Hpk Hid).
    rewrite (cell_pk (migrated_table t) (migrated_row t r) "id");
      [reflexivity..|by apply canonical_in_new].
  - transitivity (default VNull
                    (given (copied_columns t)
                           (map (cell t r) (copied_columns t)) c)).
    + rewrite <- (new_cell (new_entries []) (copied_columns t)
                    (map (cell t r) (copied_columns t)) (row_id r) c).
      * reflexivity.
      * by apply canonical_in_new.
      * apply bool_decide_eq_false. by intros [= <-].
    + rewrite given_map. case_bool_decide as Hin; [done|].
      simpl. symmetry. apply missing_column_null.
      destruct (has_column t c) eqn:Hcol; [|done].
      exfalso. apply Hin. by apply copied_columns_spec.
Qed.

Lemma migrated_not_marked (t : table) : legacy_marked (migrated_table t) = false.
Proof. vm_compute. reflexivity. Qed.

End MigratedCells.

(** ** Without the legacy marker *)

Section NoMigration.

Lemma exec_gentle_kept (o : option table) (s : stmt) (db db' : database)
    (cur : cursor) :
  gentle s = true ->
  exec s db = Ok (db', cur) ->
  kept o db -> kept o db'.
Proof.
  destruct o as [t|]; [|done]. intros Hg He (t' & Ht' & Hrows).
  unfold entries_table in *.
  destruct s as [name|old new|ine name body cols pk|name|tg cs src|name
                |ine iname tname col|cs tname od lim|tname cd txt|tname cs vs];
    try discriminate Hg; simpl in He.
  - injection He as <- _. by exists t'.
  - destruct ine; [|done]. unfold create_table in He.
    case_bool_decide as Hex; [injection He as <- _; by exists t'|].
    case_bool_decide; [done|]. injection He as <- _.
    exists t'. split; [|done]. unfold entries_table. simpl.
    rewrite lookup_insert_ne; [done|]. intros ->. apply Hex. by eexists.
  - destruct (create_index ine iname tname col db) as [db1|e] eqn:Hci; [|done].
    injection He as <- _. apply create_index_tables in Hci as [Htabs _].
    exists t'. unfold entries_table. by rewrite Htabs.
  - destruct (select_rows cs tname od lim db); [|done].
    injection He as <- _. by exists t'.
  - unfold alter_table_add_column in He.
    destruct (db_tables db !! tname) as [t0|] eqn:Ht0; [|done].
    destruct (has_column t0 (col_name cd)); [done|]. injection He as <- _.
    unfold kept, entries_table. cbn [db_tables].
    destruct (decide (tname = "entries"%string)) as [->|Hne].
    + rewrite lookup_insert_eq. eexists. split; [done|]. simpl. congruence.
    + rewrite lookup_insert_ne by done. by exists t'.
Qed.

Lemma preserves_execute (o : option table) (s : stmt) :
  gentle s = true -> preserves o (execute s).
Proof.
  intros Hg c r c' Hrun [Htr Hcom Hwork]. unfold execute in Hrun.
  destruct (faulty c); [injection Hrun as <- <-; by split|].
  destruct (exec s (working c)) as [[db' cur]|e] eqn:He;
    injection Hrun as <- <-; split; simpl; try done.
  - apply Forall_app. split; [done|]. by constructor.
  - destruct (in_txn c || is_dml s); [done|]. eauto using exec_gentle_kept.
  - eauto using exec_gentle_kept.
Qed.

Lemma preserves_bind {A B} (o : option table) (m : M A) (k : A -> M B) :
  preserves o m -> (forall a, preserves o (k a)) -> preserves o (bind m k).
Proof.
  intros Hm Hk c r c' Hrun Hc. unfold bind in Hrun.
  destruct (m c) as [[a|e] c1] eqn:Hmc.
  - eapply Hk; [exact Hrun|]. eauto.
  - injection Hrun as <- <-. eauto.
Qed.

Lemma preserves_ret {A} (o : option table) (a : A) : preserves o (ret a).
Proof. intros c r c' [= <- <-]. done. Qed.

Lemma preserves_catch {A} (o : option table) (m h : M A) :
  preserves o m -> preserves o h -> preserves o (catch_operational m h).
Proof.
  intros Hm Hh c r c' Hrun Hc. unfold catch_operational in Hrun.
  destruct (m c) as [[a|[|]] c1] eqn:Hmc.
  - injection Hrun as <- <-. eauto.
  - eapply Hh; [exact Hrun|]. eauto.
  - injection Hrun as <- <-. eauto.
Qed.

Lemma preserves_commit (o : option table) : preserves o commit.
Proof.
  intros c r c' Hrun [Htr Hcom Hwork]. unfold commit in Hrun.
  destruct (faulty c); injection Hrun as <- <-; by split.
Qed.

(** What [create_db] runs after the detection when it found no marker. *)
Lemma preserves_plain_branch (o : option table) :
  preserves o
    ((execute (CreateTable true "entries" entries_body entries_cols
                 entries_pk) ;;; ret tt) ;;;
     execute (CreateIndex true "idx_timestamp" "entries" "timestamp") ;;;
     ensure_filename ;;;
     commit).
Proof.
  repeat first
    [ apply preserves_bind; [|intros ?]
    | apply preserves_catch
    | apply preserves_execute; reflexivity
    | apply preserves_ret
    | apply preserves_commit ].
Qed.

End NoMigration.

Section PlainRun.

Lemma gentle_not_migration (tr : list stmt) :
  Forall (fun s => gentle s = true) tr -> existsb is_migration_stmt tr = false.
Proof.
  induction 1 as [|s tr Hs _ IH]; [done|]. simpl. rewrite IH.
  by destruct s as [| | [|] | | | | | | |].
Qed.

(** A whole [create_db] on a store whose table, if any, has no marker. *)
Lemma plain_run (db : database) :
  (forall t, entries_table db = Some t -> legacy_marked t = false) ->
  calm (entries_table db) (snd (with_connection None create_db_body db)).
Proof.
  intros Hm. unfold with_connection, connect.
  rewrite bool_decide_eq_false_2 by done.
  unfold create_db_body. unfold bind at 1.
  rewrite execute_no_fault by reflexivity.
  cbn [exec working committed in_txn is_dml orb trace ops app].
  assert (Hnot : migration_needed
                   (head (cur_rows (rows_cursor ["sql"%string]
                                      (select_master_sql "entries" db))))
                 = false).
  { unfold select_master_sql. specialize (Hm). unfold entries_table in Hm.
    destruct (db_tables db !! "entries"%string) as [t|]; [|done].
    simpl. by apply Hm. }
  rewrite Hnot.
  match goal with
  | |- context [let (_, _) := ?m ?c in _] =>
      pose proof (preserves_plain_branch (entries_table db) c) as Hp;
      destruct (m c) as [r c'] eqn:Hrun
  end.
  assert (Hc' : calm (entries_table db) c').
  { apply (Hp r c' eq_refl). split; simpl.
    - by repeat constructor.
    - destruct (entries_table db) as [t|] eqn:Ht; [|done]. by exists t.
    - destruct (entries_table db) as [t|] eqn:Ht; [|done]. by exists t. }
  destruct Hc' as [Htr Hcom Hwork]. destruct r; by split.
Qed.

End PlainRun.

(** C2: on a store holding a legacy table (marker in the stored definition,
    [id] as key, distinct rowids, the names the migration uses free),
    [create_db] runs to its end and executes exactly: the detection, the
    rename, the creation of the new table, the column listing, the copy of
    the common columns, the drop, the index creation and the filename probe.
    Afterwards [entries] is the new table with one row per old row, in the
    same order, each holding in every canonical column what the old row
    held there (NULL for a missing filename); no column is UNIQUE, the
    definition carries no marker, and [entries_old] is gone.  On a store
    whose table, if any, carries no marker, no statement of the migration
    runs and the rows of the table stay as they were. *)
Theorem C2_legacy_migration :
  (forall (db : database) (t : table),
      legacy db t ->
      create_db_ok db = true /\
      create_db_trace db = migration_trace t /\
      entries_table (create_db db) = Some (migrated_table t) /\
      db_tables (create_db db) !! "entries_old"%string = None /\
      tbl_rows (migrated_table t) = map (migrated_row t) (tbl_rows t) /\
      length (tbl_rows (migrated_table t)) = length (tbl_rows t) /\
      (forall r c, c ∈ canonical_columns ->
                   cell (migrated_table t) (migrated_row t r) c = cell t r c) /\
      current_shape (migrated_table t) /\
      Forall (fun d => col_unique d = false) (tbl_cols (migrated_table t)) /\
      legacy_marked (migrated_table t) = false)
  /\ (forall db : database,
         (forall t, entries_table db = Some t -> legacy_marked t = false) ->
         existsb is_migration_stmt (create_db_trace db) = false /\
         forall t, entries_table db = Some t ->
                   exists t', entries_table (create_db db) = Some t' /\
                              tbl_rows t' = tbl_rows t).
Proof.
  split.
  - intros db t Hleg.
    destruct (migration_run db t Hleg) as (c & Hrun & Hent & Hold & Htr).
    unfold create_db_ok, create_db_trace, create_db, run_create_db.
    rewrite Hrun. simpl fst. simpl snd.
    split; [done|]. split; [exact Htr|]. split; [exact Hent|].
    split; [exact Hold|]. split; [reflexivity|].
    split; [apply length_map|].
    split; [intros r c0; apply migrated_cell; apply Hleg|].
    split; [by split|]. split; [by repeat constructor|].
    apply migrated_not_marked.
  - intros db Hm. pose proof (plain_run db Hm) as [Htr Hcom _].
    split.
    + by apply gentle_not_migration.
    + intros t Ht. rewrite Ht in Hcom. exact Hcom.
Qed.

Lemma C2_legacy_migration_witness :
  create_db_trace legacy_store
  = migration_trace
      (mk_table legacy_body legacy_cols (Some "id"%string) legacy_rows)
  /\ existsb is_migration_stmt (create_db_trace three_captures) = false.
Proof.
  split.
  - refine (proj1 (proj2 (proj1 C2_legacy_migration legacy_store _ _))).
    split.
    + vm_compute. reflexivity.
    + vm_compute. reflexivity.
    + vm_compute. reflexivity.
    + vm_compute. reflexivity.
    + apply (bool_decide_unpack _). vm_compute. exact I.
    + vm_compute. reflexivity.
    + vm_compute. reflexivity.
    + vm_compute. reflexivity.
  - refine (proj1 (proj2 C2_legacy_migration three_captures _)).
    intros t Ht. vm_compute in Ht. injection Ht as <-. vm_compute. reflexivity.
Defined.

(** C2 as stated fails on a table whose stored definition shows the
    uniqueness constraint under another spelling,
    [timestamp INTEGER NOT NULL UNIQUE]: the detection looks for the text
    [timestamp INTEGER UNIQUE] only, so [create_db] runs to its end without
    any statement of the migration, the table keeps its UNIQUE column and
    its row, and a capture with the stored timestamp is still refused. *)
Lemma C2_unique_spelt_otherwise_not_migrated :
  entries_table spelt_unique_store = Some spelt_unique_table
  /\ unique_timestamp spelt_unique_table
  /\ legacy_marked spelt_unique_table = false
  /\ create_db_ok spelt_unique_store = true
  /\ existsb is_migration_stmt (create_db_trace spelt_unique_store) = false
  /\ entries_table (create_db spelt_unique_store) = Some spelt_unique_table
  /\ insert_entry None "again" 1000 sample_embedding "Mail" "Inbox" None
       (create_db spelt_unique_store)
     = (Returned None, create_db spelt_unique_store).
Proof.
  split; [vm_compute; reflexivity|].
  split.
  { exists (mk_col "timestamp" "INTEGER" true).
    split; [|split; [|split]]; try (vm_compute; reflexivity).
    apply (bool_decide_unpack _). vm_compute. exact I. }
  repeat split; vm_compute; reflexivity.
Qed.

(** * Further properties *)

(** ** Stored blobs read and written back *)

Section BlobRoundTrip.

Lemma octet_testbit (b n : Z) :
  is_octet b -> 0 <= n -> Z.testbit b n = Z.testbit b n && (n <? 8).
Proof.
  intros Hb Hn. unfold is_octet in Hb. rewrite <- Hb at 1.
  by rewrite Z.land_spec, testbit_255.
Qed.

Lemma octet_high_bit (b n : Z) : is_octet b -> 8 <= n -> Z.testbit b n = false.
Proof.
  intros Hb Hn. rewrite (octet_testbit b n Hb) by lia.
  destruct (Z.ltb_spec n 8); [lia|]. apply andb_false_r.
Qed.

Lemma octet_low_bit (b n : Z) : n < 0 -> Z.testbit b n = false.
Proof. apply Z.testbit_neg_r. Qed.

(** Bit [n] of the word assembled from four octets. *)
Lemma word_of_bytes_testbit (b0 b1 b2 b3 n : Z) :
  is_octet b0 -> is_octet b1 -> is_octet b2 -> is_octet b3 -> 0 <= n ->
  Z.testbit (word_of_bytes b0 b1 b2 b3) n =
  if n <? 8 then Z.testbit b0 n
  else if n <? 16 then Z.testbit b1 (n - 8)
  else if n <? 24 then Z.testbit b2 (n - 16)
  else Z.testbit b3 (n - 24).
Proof.
  intros H0 H1 H2 H3 Hn. unfold word_of_bytes.
  rewrite !Z.lor_spec, !Z.shiftl_spec by lia.
  destruct (Z.ltb_spec n 8).
  { rewrite !(octet_low_bit _ (n - _)) by lia. by rewrite !orb_false_r. }
  rewrite (octet_high_bit b0 n) by (done || lia).
  destruct (Z.ltb_spec n 16).
  { rewrite !(octet_low_bit _ (n - 16)), !(octet_low_bit _ (n - 24)) by lia.
    by rewrite !orb_false_r. }
  rewrite (octet_high_bit b1 (n - 8)) by (done || lia).
  destruct (Z.ltb_spec n 24).
  { rewrite (octet_low_bit _ (n - 24)) by lia. by rewrite !orb_false_r. }
  rewrite (octet_high_bit b2 (n - 16)) by (done || lia). done.
Qed.

Lemma word_of_bytes_word (b0 b1 b2 b3 : Z) :
  is_octet b0 -> is_octet b1 -> is_octet b2 -> is_octet b3 ->
  is_word32 (word_of_bytes b0 b1 b2 b3).
Proof.
  intros H0 H1 H2 H3. unfold is_word32. apply Z.bits_inj'. intros n Hn.
  rewrite Z.land_spec, testbit_mask32 by lia.
  destruct (Z.ltb_spec n 32); [apply andb_true_r|].
  rewrite andb_false_r, word_of_bytes_testbit by done.
  destruct (Z.ltb_spec n 8); [lia|]. destruct (Z.ltb_spec n 16); [lia|].
  destruct (Z.ltb_spec n 24); [lia|]. symmetry.
  apply octet_high_bit; [done|lia].
Qed.

Lemma word_to_bytes_of_bytes (b0 b1 b2 b3 : Z) :
  is_octet b0 -> is_octet b1 -> is_octet b2 -> is_octet b3 ->
  word_to_bytes (word_of_bytes b0 b1 b2 b3) = [b0; b1; b2; b3].
Proof.
  intros H0 H1 H2 H3. unfold word_to_bytes.
  repeat f_equal; apply Z.bits_inj'; intros n Hn;
    rewrite Z.land_spec, testbit_255, ?Z.shiftr_spec by lia;
    rewrite word_of_bytes_testbit by (done || lia).
  all: destruct (Z.ltb_spec n 8) as [Hlt|Hge];
    [ rewrite andb_true_r
    | rewrite andb_false_r; symmetry; apply octet_high_bit; [done|lia] ].
  all: repeat match goal with
              | |- context [?a <? ?b] => destruct (Z.ltb_spec a b); try lia
              end.
  all: f_equal; lia.
Qed.

Lemma words_of_bytes_inverse (bs : list octet) (ws : list word32) :
  Forall is_octet bs ->
  words_of_bytes bs = Some ws ->
  tobytes ws = bs /\ Forall is_word32 ws.
Proof.
  revert ws. induction bs as [bs IH] using (induction_ltof1 _ (@length _)).
  unfold ltof in IH. intros ws Hoct.
  destruct bs as [|b0 [|b1 [|b2 [|b3 rest]]]]; simpl; try discriminate.
  - intros [= <-]. by split.
  - destruct (words_of_bytes rest) as [ws'|] eqn:Hrest; [|discriminate].
    intros [= <-].
    inversion Hoct as [|? ? H0 Ht0]; subst. inversion Ht0 as [|? ? H1 Ht1]; subst.
    inversion Ht1 as [|? ? H2 Ht2]; subst. inversion Ht2 as [|? ? H3 Ht3]; subst.
    destruct (IH rest) with (ws := ws') as [Hb Hw]; [simpl; lia|done..|].
    split.
    + unfold tobytes in *. cbn [flat_map].
      rewrite Hb, word_to_bytes_of_bytes by done. reflexivity.
    + constructor; [by apply word_of_bytes_word | done].
Qed.

End BlobRoundTrip.

Lemma word_to_bytes_octets (w : word32) : Forall is_octet (word_to_bytes w).
Proof.
  unfold word_to_bytes, is_octet.
  repeat constructor; rewrite <- Z.land_assoc; reflexivity.
Qed.

Lemma tobytes_octets (ws : list word32) : Forall is_octet (tobytes ws).
Proof.
  unfold tobytes. induction ws as [|w ws IH]; [constructor|].
  cbn [flat_map]. apply Forall_app. split; [apply word_to_bytes_octets|done].
Qed.

(** X1: the blob [insert_entry] stores consists of octets; and a blob of
    octets that [np.frombuffer] decodes to an array is exactly what the
    encoding step of [insert_entry] produces from that array, four bytes per
    element: reading a stored embedding and storing it again writes the same
    bytes. *)
Theorem X1_blob_decode_encode_roundtrip :
  (forall (a : ndarray) (bs : list octet),
      encode a = Returned bs -> Forall is_octet bs)
  /\ (forall (bs : list octet) (ws : list word32),
         Forall is_octet bs ->
         np_frombuffer (VBlob bs) = Returned ws ->
         encode (Float32Array ws) = Returned bs /\
         length bs = (4 * length ws)%nat).
Proof.
  split.
  - intros a bs. unfold encode.
    destruct (astype_float32 a) as [ws|e]; [|done].
    intros [= <-]. apply tobytes_octets.
  - intros bs ws Hoct. simpl. unfold frombuffer.
    destruct (Z.of_nat (length bs) mod 4 =? 0); [|done].
    destruct (words_of_bytes bs) as [ws'|] eqn:Hws; [|done].
    intros [= <-].
    destruct (words_of_bytes_inverse bs ws' Hoct Hws) as [Hb Hw].
    assert (Hmask : map (fun w => Z.land w 0xFFFFFFFF) ws' = ws').
    { clear Hb Hws. induction Hw as [|w ws Hw _ IH]; [done|].
      simpl. by rewrite IH, Hw. }
    split.
    + unfold encode. simpl. by rewrite Hmask, Hb.
    + by rewrite <- Hb, tobytes_length.
Qed.

Lemma X1_blob_decode_encode_roundtrip_witness :
  encode (Float32Array [1065353216; 1073741824])
  = Returned [0; 0; 128; 63; 0; 0; 0; 64]
  /\ length [0; 0; 128; 63; 0; 0; 0; 64]
     = (4 * length ([1065353216; 1073741824]%Z : list Z))%nat.
Proof.
  apply (proj2 X1_blob_decode_encode_roundtrip
           [0; 0; 128; 63; 0; 0; 0; 64] [1065353216; 1073741824]).
  - repeat constructor.
  - vm_compute. reflexivity.
Defined.

(** ** Reading a store that cannot answer *)

(** X2: when the connection cannot be opened, the SELECT fails in the store,
    or there is no [entries] table, both readers return an empty list; so
    does [get_timestamps] on a table without a [timestamp] column and
    [get_all_entries] on a table lacking any of the seven columns it
    selects. *)
Theorem X2_readers_empty_on_store_error (fault : option nat) (db : database) :
  (fault = Some 0%nat \/ fault = Some 1%nat \/ entries_table db = None ->
   get_timestamps fault db = [] /\ get_all_entries fault db = Returned [])
  /\ (forall t, entries_table db = Some t ->
                has_column t "timestamp" = false ->
                get_timestamps fault db = [])
  /\ (forall t, entries_table db = Some t ->
                selectable t = false ->
                get_all_entries fault db = Returned []).
Proof.
  unfold get_timestamps, get_all_entries, with_connection, connect, execute,
    faulty, entries_table.
  split; [|split].
  - intros Hcase.
    destruct (bool_decide (fault = Some 0%nat)) eqn:H0; [done|]. simpl.
    destruct (bool_decide (fault = Some 1%nat)) eqn:H1; [done|].
    apply bool_decide_eq_false in H0, H1.
    destruct Hcase as [?|[?|Hnone]]; [done..|].
    simpl. unfold select_rows. by rewrite Hnone.
  - intros t Ht Hcol.
    destruct (bool_decide (fault = Some 0%nat)); [done|]. simpl.
    destruct (bool_decide (fault = Some 1%nat)); [done|].
    simpl. unfold select_rows. rewrite Ht. simpl. by rewrite Hcol.
  - intros t Ht Hsel.
    destruct (bool_decide (fault = Some 0%nat)); [done|]. simpl.
    destruct (bool_decide (fault = Some 1%nat)); [done|].
    simpl. unfold select_rows. rewrite Ht.
    fold (selectable t). by rewrite Hsel.
Qed.

Lemma X2_readers_empty_on_store_error_witness :
  get_timestamps (Some 1%nat) three_captures = []
  /\ get_all_entries (Some 1%nat) three_captures = Returned [].
Proof.
  apply (proj1 (X2_readers_empty_on_store_error (Some 1%nat) three_captures)).
  right. left. reflexivity.
Defined.

(** ** One capture, read back *)

Section InsertThenRead.

Lemma entries_of_cons (t : table) (r : row) (rows : list row) :
  entries_of t (r :: rows) =
  obind (stored_entry t r) (fun e =>
  obind (entries_of t rows) (fun es => Returned (e :: es))).
Proof.
  unfold entries_of. rewrite map_cons, entries_of_rows_cons.
  by rewrite entry_of_selected_row.
Qed.

(** The loop does not care in which order the rows arrive, up to the order
    of what it returns. *)
Lemma entries_of_perm (t : table) (rows1 rows2 : list row) :
  rows1 ≡ₚ rows2 ->
  forall es1, entries_of t rows1 = Returned es1 ->
  exists es2, entries_of t rows2 = Returned es2 /\ es1 ≡ₚ es2.
Proof.
  induction 1 as [|r l l' _ IH|r1 r2 l|l1 l2 l3 _ IH1 _ IH2]; intros es1.
  - intros H. by exists es1.
  - rewrite !entries_of_cons.
    destruct (stored_entry t r) as [e|x]; [|done]. cbn [obind].
    destruct (entries_of t l) as [es|x]; [|done]. cbn [obind].
    intros [= <-]. destruct (IH es eq_refl) as (es' & -> & Hp).
    exists (e :: es'). split; [done|]. by constructor.
  - rewrite !entries_of_cons.
    destruct (stored_entry t r1) as [e1|x]; [|by destruct (stored_entry t r2)].
    destruct (stored_entry t r2) as [e2|x]; [|done]. cbn [obind].
    destruct (entries_of t l) as [es|x]; [|done]. cbn [obind].
    intros [= <-]. exists (e1 :: e2 :: es). split; [done|]. constructor.
  - intros H1. destruct (IH1 _ H1) as (es2 & H2 & Hp12).
    destruct (IH2 _ H2) as (es3 & H3 & Hp23).
    exists es3. split; [done|]. by etrans.
Qed.

(** The row-level effect of the INSERT on a table of the current shape. *)
Lemma insert_row_current_full (db : database) (t : table) (text : string)
    (timestamp : Z) (bs : list octet) (app title : string)
    (filename : option string) :
  entries_table db = Some t ->
  current_shape t ->
  insert_row "entries" insert_columns
    (bound_values text timestamp bs app title filename) db
  = if next_id db t <=? int64_max
    then Ok (with_row db t
               (entry_row (next_id db t) text timestamp bs app title filename)
               (next_id db t),
             next_id db t)
    else Err OperationalError.
Proof.
  intros Ht Hshape. destruct (Z.leb_spec (next_id db t) int64_max) as [Hle|Hgt].
  - by apply insert_row_current.
  - destruct Hshape as [Hcols Hpk]. unfold insert_row, entries_table in *.
    rewrite Ht. destruct t as [body cols pk rows]. simpl in Hcols, Hpk.
    subst cols pk. unfold next_id in *. simpl in Hgt.
    unfold choose_rowid, fresh_rowid. simpl.
    destruct (Z.leb_spec
                (Z.max (default 0 (db_seq db !! "entries"%string))
                       (max_rowid rows) + 1) int64_max) as [?|_]; [lia|].
    reflexivity.
Qed.

(** A successful [insert_entry] on a table of the current shape appended
    the row of the capture under the next id. *)
Lemma insert_entry_current (fault : option nat) (text : string)
    (timestamp : Z) (embedding : ndarray) (app title : string)
    (filename : option string) (db db' : database) (t : table) (id : Z) :
  entries_table db = Some t ->
  current_shape t ->
  insert_entry fault text timestamp embedding app title filename db
    = (Returned (Some id), db') ->
  exists ws,
    astype_float32 embedding = Returned ws /\
    id = next_id db t /\
    id <= int64_max /\
    db' = with_row db t
            (entry_row id text timestamp (tobytes ws) app title filename) id.
Proof.
  intros Ht Hshape H. apply insert_entry_returns_id in H as (bs & Henc & Hins).
  rewrite (insert_row_current_full db t _ _ _ _ _ _ Ht Hshape) in Hins.
  destruct (Z.leb_spec (next_id db t) int64_max) as [Hle|]; [|done].
  injection Hins as <- <-. unfold encode in Henc.
  destruct (astype_float32 embedding) as [ws|e]; [|done].
  injection Henc as <-. by exists ws.
Qed.

Lemma row_id_le_max (rows : list row) (r : row) :
  r ∈ rows -> row_id r <= max_rowid rows.
Proof.
  unfold max_rowid. induction 1 as [r rows|r r' rows _ IH]; simpl; lia.
Qed.

End InsertThenRead.

(** X3: on a table of the current shape the id [insert_entry] returns is
    positive and larger than the rowid of every row already stored, and a
    later successful [insert_entry] returns a larger id still: ids are
    never handed out twice. *)
Theorem X3_ids_fresh_and_increasing (db db1 : database) (t : table)
    (fault1 : option nat) (text1 : string) (timestamp1 : Z)
    (embedding1 : ndarray) (app1 title1 : string) (filename1 : option string)
    (id1 : Z) :
  entries_table db = Some t ->
  current_shape t ->
  insert_entry fault1 text1 timestamp1 embedding1 app1 title1 filename1 db
    = (Returned (Some id1), db1) ->
  0 < id1 /\
  (forall r, r ∈ tbl_rows t -> row_id r < id1) /\
  (forall (fault2 : option nat) (text2 : string) (timestamp2 : Z)
          (embedding2 : ndarray) (app2 title2 : string)
          (filename2 : option string) (id2 : Z) (db2 : database),
      insert_entry fault2 text2 timestamp2 embedding2 app2 title2 filename2 db1
        = (Returned (Some id2), db2) ->
      id1 < id2).
Proof.
  intros Ht Hshape H1.
  destruct (insert_entry_current _ _ _ _ _ _ _ _ _ _ _ Ht Hshape H1)
    as (ws1 & _ & Hid1 & _ & ->).
  pose proof (max_rowid_nonneg (tbl_rows t)) as Hnn.
  assert (Hmax : max_rowid (tbl_rows t) < id1).
  { rewrite Hid1. unfold next_id. lia. }
  split; [lia|]. split.
  - intros r Hr. pose proof (row_id_le_max _ _ Hr). lia.
  - intros fault2 text2 timestamp2 embedding2 app2 title2 filename2 id2 db2 H2.
    set (r1 := entry_row id1 text1 timestamp1 (tobytes ws1) app1 title1
                 filename1) in *.
    set (t1 := mk_table (tbl_body t) (tbl_cols t) (tbl_pk t)
                 (tbl_rows t ++ [r1])).
    assert (Ht1 : entries_table (with_row db t r1 id1) = Some t1)
      by apply lookup_insert_eq.
    assert (Hshape1 : current_shape t1) by exact Hshape.
    destruct (insert_entry_current _ _ _ _ _ _ _ _ _ _ _ Ht1 Hshape1 H2)
      as (ws2 & _ & Hid2 & _ & _).
    rewrite Hid2. unfold next_id. simpl tbl_rows.
    rewrite max_rowid_snoc. simpl row_id. lia.
Qed.

Lemma X3_ids_fresh_and_increasing_witness :
  0 < 4 /\
  (forall r, r ∈ tbl_rows (new_entries
                [ entry_row 1 "hello" 100
                    [205; 204; 204; 61; 205; 204; 76; 62; 154; 153; 153; 62]
                    "Notes" "Untitled" (Some "shot1.png"%string);
                  entry_row 2 "hello" 300
                    [205; 204; 204; 61; 205; 204; 76; 62; 154; 153; 153; 62]
                    "Notes" "Untitled" None;
                  entry_row 3 "hello" 200
                    [205; 204; 204; 61; 205; 204; 76; 62; 154; 153; 153; 62]
                    "Notes" "Untitled" None ]) ->
             row_id r < 4).
Proof.
  refine (let H := X3_ids_fresh_and_increasing three_captures
                     (capture 50 None three_captures) _ None "hello" 50
                     sample_embedding "Notes" "Untitled" None 4 _ _ _ in
          conj (proj1 H) (proj1 (proj2 H))).
  - vm_compute. reflexivity.
  - split; vm_compute; reflexivity.
  - vm_compute. reflexivity.
Defined.

Section RoundTrip.

Lemma stored_entry_row (t : table) (rid : Z) (text : string) (timestamp : Z)
    (ws : list word32) (app title : string) (filename : option string) :
  current_shape t ->
  Forall is_word32 ws ->
  stored_entry t (entry_row rid text timestamp (tobytes ws) app title filename)
  = Returned (entry_of rid text timestamp ws app title filename).
Proof.
  intros Hshape Hws. unfold stored_entry.
  destruct (entry_row_cells t rid text timestamp (tobytes ws) app title
              filename Hshape) as (H1 & H2 & H3 & H4 & H5 & H6 & H7).
  rewrite H1, H2, H3, H4, H5, H6, H7. simpl np_frombuffer.
  by rewrite (frombuffer_tobytes _ Hws).
Qed.

End RoundTrip.

(** X4: on a readable table of the current shape, after a successful
    [insert_entry] the entries [get_all_entries] returns are the ones it
    returned before together with exactly one new entry, which carries the
    returned id, the fields given and the float32 coercion of the embedding;
    and [get_timestamps] returns the former timestamps and the new one. *)
Theorem X4_insert_then_read (db db' : database) (t : table)
    (es : list Entry) (fault : option nat) (text : string) (timestamp : Z)
    (embedding : ndarray) (app title : string) (filename : option string)
    (id : Z) :
  entries_table db = Some t ->
  current_shape t ->
  get_all_entries None db = Returned es ->
  insert_entry fault text timestamp embedding app title filename db
    = (Returned (Some id), db') ->
  exists (ws : list word32) (es' : list Entry),
    astype_float32 embedding = Returned ws /\
    get_all_entries None db' = Returned es' /\
    es' ≡ₚ entry_of id text timestamp ws app title filename :: es /\
    get_timestamps None db' ≡ₚ VInt timestamp :: get_timestamps None db.
Proof.
  intros Ht Hshape Hes Hins.
  destruct (insert_entry_current _ _ _ _ _ _ _ _ _ _ _ Ht Hshape Hins)
    as (ws & Hws & _ & _ & ->).
  pose proof (current_shape_selectable _ Hshape) as Hsel.
  set (r := entry_row id text timestamp (tobytes ws) app title filename).
  set (t' := mk_table (tbl_body t) (tbl_cols t) (tbl_pk t) (tbl_rows t ++ [r])).
  assert (Ht' : entries_table (with_row db t r id) = Some t')
    by apply lookup_insert_eq.
  assert (Hperm : r :: order_by_desc t "timestamp"
                  ≡ₚ order_by_desc t' "timestamp").
  { rewrite (order_by_desc_perm t'), (order_by_desc_perm t). simpl.
    by rewrite Permutation_app_comm. }
  rewrite get_all_entries_eq, Ht, Hsel in Hes.
  assert (Hnew : entries_of t (r :: order_by_desc t "timestamp")
                 = Returned (entry_of id text timestamp ws app title filename
                             :: es)).
  { assert (Hr : stored_entry t r
                 = Returned (entry_of id text timestamp ws app title filename))
      by (apply stored_entry_row; eauto using astype_float32_words).
    rewrite entries_of_cons, Hr.
    cbn [obind]. unfold entries_of. by rewrite Hes. }
  destruct (entries_of_perm t _ _ Hperm _ Hnew) as (es' & Hes' & Hp).
  exists ws, es'. split; [done|]. split; [|split].
  - rewrite get_all_entries_eq, Ht'.
    change (selectable t') with (selectable t). rewrite Hsel. exact Hes'.
  - by symmetry.
  - rewrite !get_timestamps_eq, Ht, Ht'.
    change (has_column t' "timestamp") with (has_column t "timestamp").
    rewrite (selectable_timestamp _ Hsel).
    change (map (fun r0 => cell t' r0 "timestamp"))
      with (map (fun r0 => cell t r0 "timestamp")).
    rewrite <- Hperm. simpl.
    destruct (entry_row_cells t id text timestamp (tobytes ws) app title
                filename Hshape) as (_ & _ & _ & _ & H5 & _).
    fold r in H5. by rewrite H5.
Qed.

Lemma X4_insert_then_read_witness :
  exists (ws : list word32) (es' : list Entry),
    astype_float32 sample_embedding = Returned ws /\
    get_all_entries None (capture 1000 (Some "shot1.png"%string) fresh_store)
      = Returned es' /\
    es' ≡ₚ [entry_of 1 "hello" 1000 ws "Notes" "Untitled"
              (Some "shot1.png"%string)] /\
    get_timestamps None (capture 1000 (Some "shot1.png"%string) fresh_store)
      ≡ₚ VInt 1000 :: get_timestamps None fresh_store.
Proof.
  eapply (X4_insert_then_read fresh_store _ _ [] None "hello" 1000
            sample_embedding "Notes" "Untitled" (Some "shot1.png"%string) 1).
  - vm_compute. reflexivity.
  - split; vm_compute; reflexivity.
  - vm_compute. reflexivity.
  - vm_compute. reflexivity.
Defined.

(** ** Before the migration: the UNIQUE constraint at work *)

Section UniqueTimestamp.

Lemma insert_row_conflict (name : string) (cs : list string)
    (vs : list value) (db : database) (t : table) :
  db_tables db !! name = Some t ->
  unique_conflict t cs vs = true ->
  exists e, insert_row name cs vs db = Err e.
Proof.
  intros Ht Hu. unfold insert_row. rewrite Ht, Hu.
  destruct (_ || _); [by eexists|].
  destruct (choose_rowid _ _ _ _); by eexists.
Qed.

(** A store error on the INSERT makes [insert_entry] return None and leave
    the store alone, whatever else would have failed later. *)
Lemma insert_entry_rejected (fault : option nat) (text : string)
    (timestamp : Z) (embedding : ndarray) (app title : string)
    (filename : option string) (db : database) (bs : list octet)
    (e : sqlerr) :
  encode embedding = Returned bs ->
  in_int64 timestamp = true ->
  insert_row "entries" insert_columns
    (bound_values text timestamp bs app title filename) db = Err e ->
  insert_entry fault text timestamp embedding app title filename db
    = (Returned None, db).
Proof.
  intros Henc Hts Hins. unfold insert_entry. rewrite Henc, Hts. unfold connect.
  destruct (bool_decide (fault = Some 0%nat)) eqn:Hf0; [done|].
  cbn [negb andb]. unfold with_connection, connect. rewrite Hf0.
  unfold insert_entry_body, bind, execute, faulty. simpl.
  fold (bound_values text timestamp bs app title filename).
  destruct (bool_decide (fault = Some 1%nat)); [done|].
  by rewrite Hins.
Qed.

End UniqueTimestamp.

(** X5: while the table still declares [timestamp] UNIQUE, an
    [insert_entry] whose timestamp some stored row already has returns None
    and leaves the store exactly as it was: the store rejects the row and
    the error is swallowed. *)
Theorem X5_duplicate_timestamp_rejected_when_unique (db : database)
    (t : table) (r : row) (fault : option nat) (text : string)
    (timestamp : Z) (embedding : ndarray) (ws : list word32)
    (app title : string) (filename : option string) :
  entries_table db = Some t ->
  unique_timestamp t ->
  r ∈ tbl_rows t ->
  cell t r "timestamp" = VInt timestamp ->
  in_int64 timestamp = true ->
  astype_float32 embedding = Returned ws ->
  insert_entry fault text timestamp embedding app title filename db
    = (Returned None, db).
Proof.
  intros Ht (d & Hd & Hname & Huniq & Hpk) Hr Hcell Hts Hws.
  destruct (encode_decodes _ _ Hws) as (Henc & _ & _).
  destruct (insert_row_conflict "entries" insert_columns
              (bound_values text timestamp (tobytes ws) app title filename)
              db t Ht) as [e He].
  { unfold unique_conflict. apply existsb_exists. exists d.
    split; [by apply list_elem_of_In|].
    rewrite Huniq, Hname, Hpk. simpl.
    apply existsb_exists. exists r. split; [by apply list_elem_of_In|].
    by apply bool_decide_eq_true. }
  by eapply insert_entry_rejected.
Qed.

Lemma X5_duplicate_timestamp_rejected_when_unique_witness :
  insert_entry None "again" 1000 sample_embedding "Notes" "Untitled" None
    legacy_store
  = (Returned None, legacy_store).
Proof.
  eapply (X5_duplicate_timestamp_rejected_when_unique legacy_store _
            (mk_row 1 [VNull; VText "Notes"; VText "Untitled"; VText "hello";
                       VInt 1000; VBlob [0; 0; 128; 63]; VText "shot1.png"])
            None "again" 1000 sample_embedding).
  - vm_compute. reflexivity.
  - exists (mk_col "timestamp" "INTEGER" true).
    split; [|split; [|split]]; try (vm_compute; reflexivity).
    do 4 apply list_elem_of_further. apply list_elem_of_here.
  - apply list_elem_of_here.
  - vm_compute. reflexivity.
  - vm_compute. reflexivity.
  - vm_compute. reflexivity.
Defined.

(** ** First creation and backfill *)

Section FirstCreation.

#[local] Arguments create_index : simpl never.
#[local] Arguments create_table : simpl never.
#[local] Arguments alter_table_add_column : simpl never.
#[local] Arguments select_rows : simpl never.
#[local] Arguments select_master_sql : simpl never.
#[local] Arguments contains : simpl never.
#[local] Arguments has_column : simpl never.

Lemma bind_assoc {A B C} (m : M A) (f : A -> M B) (g : B -> M C) (c : conn) :
  bind (bind m f) g c = bind m (fun a => bind (f a) g) c.
Proof. unfold bind. by destruct (m c) as [[a|e] c']. Qed.

Lemma bind_ret {A B} (a : A) (k : A -> M B) (c : conn) :
  bind (ret a) k c = k a c.
Proof. reflexivity. Qed.

Lemma bind_execute_err {B} (s : stmt) (k : cursor -> M B) (c : conn)
    (e : sqlerr) :
  fault_at c = None ->
  exec s (working c) = Err e ->
  bind (execute s) k c =
  (Err e, mk_conn (committed c) (working c) (in_txn c || is_dml s) (trace c)
                  (S (ops c)) None).
Proof.
  intros Hf He. unfold bind. by rewrite execute_no_fault, He.
Qed.

Ltac step_ok :=
  erewrite bind_execute_ok; [ | reflexivity | cbn [exec working] ];
  cbn [in_txn is_dml orb committed working trace ops fault_at app].

(** [create_db] up to the index statement, on a store without the table. *)
Lemma create_db_fresh_run (db : database) :
  entries_table db = None ->
  db_indexes db !! "entries"%string = None ->
  db_tables db !! "idx_timestamp"%string = None ->
  exists db',
    create_index true "idx_timestamp" "entries" "timestamp"
      (mk_db (<["entries"%string := new_entries []]> (db_tables db))
             (db_indexes db) (db_seq db)) = Ok db' /\
    with_connection None create_db_body db
    = (Some tt,
       mk_conn db' db' false
         [ SelectMasterSql "entries";
           CreateTable true "entries" entries_body entries_cols entries_pk;
           CreateIndex true "idx_timestamp" "entries" "timestamp";
           Select ["filename"%string] "entries" None (Some 1%nat) ]
         6 None).
Proof.
  unfold entries_table. intros Ht Hnoidx Hfree.
  destruct (create_index_run
              (mk_db (<["entries"%string := new_entries []]> (db_tables db))
                     (db_indexes db) (db_seq db)) (new_entries []))
    as (db' & Hci & Htabs).
  { apply lookup_insert_eq. }
  { cbn [db_tables]. by rewrite lookup_insert_ne. }
  { vm_compute. reflexivity. }
  exists db'. split; [exact Hci|].
  unfold with_connection, connect. rewrite bool_decide_eq_false_2 by done.
  unfold create_db_body.
  step_ok.
  2:{ reflexivity. }
  unfold select_master_sql, rows_cursor. cbn [cur_rows]. rewrite Ht.
  cbn [head migration_needed].
  rewrite bind_assoc.
  step_ok.
  2:{ unfold create_table. rewrite Ht, Hnoidx.
      rewrite !bool_decide_eq_false_2 by by intros [? ?]. reflexivity. }
  rewrite bind_ret.
  step_ok.
  2:{ change (mk_table entries_body entries_cols entries_pk [])
        with (new_entries []). rewrite Hci. reflexivity. }
  erewrite bind_ok.
  2:{ apply (ensure_filename_present _ (new_entries [])).
      - reflexivity.
      - cbn [working]. rewrite Htabs. apply lookup_insert_eq.
      - vm_compute. reflexivity. }
  rewrite commit_no_fault by reflexivity. reflexivity.
Qed.

End FirstCreation.

(** X6: on a store that has no [entries] table (and where the names
    [entries] and [idx_timestamp] are free for it), [create_db] succeeds,
    creates the table empty and in the shape of its CREATE TABLE statement,
    leaves every other table and the id counters alone, and creates the
    index on [timestamp] unless an index of that name is already there; both
    readers then return an empty list. *)
Theorem X6_create_db_on_store_without_table (db : database) :
  entries_table db = None ->
  db_indexes db !! "entries"%string = None ->
  db_tables db !! "idx_timestamp"%string = None ->
  create_db_ok db = true /\
  entries_table (create_db db) = Some (new_entries []) /\
  (forall n, n <> "entries"%string ->
             db_tables (create_db db) !! n = db_tables db !! n) /\
  db_seq (create_db db) = db_seq db /\
  (db_indexes db !! "idx_timestamp"%string = None ->
   db_indexes (create_db db) !! "idx_timestamp"%string
   = Some (mk_index "entries" "timestamp")) /\
  get_all_entries None (create_db db) = Returned [] /\
  get_timestamps None (create_db db) = [].
Proof.
  intros Ht Hnoidx Hfree.
  destruct (create_db_fresh_run db Ht Hnoidx Hfree) as (db' & Hci & Hrun).
  unfold create_db_ok, create_db, run_create_db. rewrite Hrun.
  cbn [fst snd committed].
  destruct (create_index_tables _ _ _ _ _ _ Hci) as [Htabs Hseq].
  cbn [db_tables db_seq] in Htabs, Hseq.
  assert (Hent : entries_table db' = Some (new_entries [])).
  { unfold entries_table. rewrite Htabs. apply lookup_insert_eq. }
  split; [done|]. split; [exact Hent|]. split; [|split; [|split; [|split]]].
  - intros n Hn. rewrite Htabs. by apply lookup_insert_ne.
  - exact Hseq.
  - intros Hidx. unfold create_index in Hci. cbn [db_tables db_indexes] in Hci.
    rewrite lookup_insert_eq, lookup_insert_ne, Hfree, Hidx in Hci by done.
    rewrite !bool_decide_eq_false_2 in Hci by by intros [? ?].
    change (has_column _ "timestamp") with true in Hci.
    injection Hci as <-. apply lookup_insert_eq.
  - rewrite get_all_entries_eq, Hent. reflexivity.
  - rewrite get_timestamps_eq, Hent. reflexivity.
Qed.

Lemma X6_create_db_on_store_without_table_witness :
  entries_table (create_db empty_db) = Some (new_entries [])
  /\ db_indexes (create_db empty_db) !! "idx_timestamp"%string
     = Some (mk_index "entries" "timestamp").
Proof.
  assert (H1 : entries_table empty_db = None) by (vm_compute; reflexivity).
  assert (H2 : db_indexes empty_db !! "entries"%string = None)
    by (vm_compute; reflexivity).
  assert (H3 : db_tables empty_db !! "idx_timestamp"%string = None)
    by (vm_compute; reflexivity).
  destruct (X6_create_db_on_store_without_table empty_db H1 H2 H3)
    as (_ & Hent & _ & _ & Hidx & _).
  split; [exact Hent|]. apply Hidx. vm_compute. reflexivity.
Defined.

Section Backfill.

#[local] Arguments create_index : simpl never.
#[local] Arguments create_table : simpl never.
#[local] Arguments alter_table_add_column : simpl never.
#[local] Arguments select_rows : simpl never.
#[local] Arguments select_master_sql : simpl never.
#[local] Arguments contains : simpl never.
#[local] Arguments has_column : simpl never.

Lemma col_index_app_l (cols more : list coldef) (c : string) (i : nat) :
  col_index cols c = Some i -> col_index (cols ++ more) c = Some i.
Proof.
  revert i. induction cols as [|d cols IH]; intros i; simpl; [done|].
  destruct (String.eqb (col_name d) c); [done|].
  destruct (col_index cols c) as [j|]; [|done].
  intros [= <-]. by rewrite (IH j).
Qed.

Lemma col_index_app_r (cols : list coldef) (d : coldef) :
  col_index cols (col_name d) = None ->
  col_index (cols ++ [d]) (col_name d) = Some (length cols).
Proof.
  induction cols as [|d' cols IH]; simpl.
  - by rewrite String.eqb_refl.
  - destruct (String.eqb (col_name d') (col_name d)); [done|].
    destruct (col_index cols (col_name d)); [done|]. intros _.
    by rewrite IH.
Qed.

Lemma has_column_false (t : table) (c : string) :
  has_column t c = false -> col_index (tbl_cols t) c = None.
Proof.
  unfold has_column. intros H. apply bool_decide_eq_false in H.
  by apply eq_None_not_Some.
Qed.

(** The new column leaves the old cells alone and reads NULL. *)
Lemma with_filename_cells (t : table) (r : row) :
  has_column t "filename" = false ->
  (forall c, has_column t c = true -> cell (with_filename t) r c = cell t r c)
  /\ (is_pk t "filename" = false ->
      (length (row_cells r) <= length (tbl_cols t))%nat ->
      cell (with_filename t) r "filename" = VNull)
  /\ has_column (with_filename t) "filename" = true.
Proof.
  intros Hno. apply has_column_false in Hno.
  pose proof (col_index_app_r (tbl_cols t) filename_col Hno) as Hnew.
  change (col_name filename_col) with "filename"%string in Hnew.
  split; [|split].
  - intros c Hc. destruct (has_column_index _ _ Hc) as (i & d & Hi & _ & _).
    unfold cell, with_filename. cbn [tbl_cols].
    by rewrite (col_index_app_l _ _ _ _ Hi), Hi.
  - intros Hpk Hlen. unfold cell, with_filename. cbn [tbl_cols].
    rewrite Hnew.
    change (is_pk _ "filename") with (is_pk t "filename"). rewrite Hpk.
    cbn [row_cells]. by rewrite lookup_ge_None_2.
  - unfold has_column, with_filename. cbn [tbl_cols].
    apply bool_decide_eq_true. rewrite Hnew. by eexists.
Qed.

(** The backfill adds the column the probe did not find. *)
Lemma ensure_filename_missing (c : conn) (t : table) :
  fault_at c = None ->
  db_tables (working c) !! "entries"%string = Some t ->
  has_column t "filename" = false ->
  exists c',
    ensure_filename c = (Ok tt, c') /\
    fault_at c' = None /\
    working c' =
      mk_db (<["entries"%string := with_filename t]> (db_tables (working c)))
            (db_indexes (working c)) (db_seq (working c)) /\
    trace c' =
      trace c ++ [AlterTableAddColumn "entries" filename_col "filename TEXT"].
Proof.
  intros Hf Ht Hcol. unfold ensure_filename, catch_operational.
  erewrite bind_execute_err; [|exact Hf|].
  2:{ cbn [exec]. unfold select_rows. rewrite Ht. cbn [forallb].
      rewrite Hcol. reflexivity. }
  lazy beta iota.
  erewrite bind_execute_ok; [|reflexivity|].
  2:{ cbn [exec working]. unfold alter_table_add_column. rewrite Ht.
      change (col_name filename_col) with "filename"%string.
      rewrite Hcol. reflexivity. }
  eexists. split; [reflexivity|]. repeat split.
Qed.

End Backfill.

Ltac step_exec :=
  erewrite bind_execute_ok; [ | reflexivity | cbn [exec working] ];
  cbn [in_txn is_dml orb committed working trace ops fault_at app].

Section BackfillRun.

#[local] Arguments create_index : simpl never.
#[local] Arguments create_table : simpl never.
#[local] Arguments select_master_sql : simpl never.
#[local] Arguments contains : simpl never.
#[local] Arguments has_column : simpl never.

Lemma backfill_run (db : database) (t : table) :
  entries_table db = Some t ->
  legacy_marked t = false ->
  has_column t "filename" = false ->
  has_column t "timestamp" = true ->
  db_tables db !! "idx_timestamp"%string = None ->
  exists c,
    with_connection None create_db_body db = (Some tt, c) /\
    db_tables (committed c) = <["entries"%string := with_filename t]> (db_tables db) /\
    db_seq (committed c) = db_seq db.
Proof.
  unfold entries_table, legacy_marked. intros Ht Hm Hno Hts Hfree.
  destruct (create_index_run db t Ht Hfree Hts) as (db1 & Hci & Htabs).
  destruct (create_index_tables _ _ _ _ _ _ Hci) as [_ Hseq].
  unfold with_connection, connect. rewrite bool_decide_eq_false_2 by done.
  unfold create_db_body.
  step_exec.
  2:{ reflexivity. }
  unfold select_master_sql, rows_cursor. cbn [cur_rows]. rewrite Ht.
  cbn [head migration_needed]. rewrite Hm.
  rewrite bind_assoc.
  step_exec.
  2:{ unfold create_table. rewrite Ht.
      rewrite bool_decide_eq_true_2 by by eexists. reflexivity. }
  rewrite bind_ret.
  step_exec.
  2:{ rewrite Hci. reflexivity. }
  match goal with
  | |- context [bind ensure_filename _ ?c] =>
      destruct (ensure_filename_missing c t) as (c' & Hrun & Hf & Hw & _);
        [reflexivity | cbn [working]; by rewrite Htabs | exact Hno |]
  end.
  rewrite (bind_ok _ _ _ _ _ Hrun), (commit_no_fault _ Hf).
  eexists. split; [reflexivity|].
  cbn [exit_ok committed working]. rewrite Hw. cbn [db_tables db_seq working].
  by rewrite Htabs, Hseq.
Qed.

End BackfillRun.

(** X7: on a table that carries no legacy marker, has a [timestamp] column
    and lacks the [filename] column, [create_db] succeeds and adds the
    column: the rows stay, every cell of the old columns reads as before,
    and the new column reads NULL in every existing row; no other table and
    no id counter changes. *)
Theorem X7_backfill_adds_filename (db : database) (t : table) :
  entries_table db = Some t ->
  legacy_marked t = false ->
  has_column t "filename" = false ->
  has_column t "timestamp" = true ->
  db_tables db !! "idx_timestamp"%string = None ->
  create_db_ok db = true /\
  entries_table (create_db db) = Some (with_filename t) /\
  has_column (with_filename t) "filename" = true /\
  tbl_rows (with_filename t) = tbl_rows t /\
  (forall r c, has_column t c = true ->
               cell (with_filename t) r c = cell t r c) /\
  (is_pk t "filename" = false -> rows_fit t ->
   forall r, r ∈ tbl_rows t -> cell (with_filename t) r "filename" = VNull) /\
  (forall n, n <> "entries"%string ->
             db_tables (create_db db) !! n = db_tables db !! n) /\
  db_seq (create_db db) = db_seq db.
Proof.
  intros Ht Hm Hno Hts Hfree.
  destruct (backfill_run db t Ht Hm Hno Hts Hfree) as (c & Hrun & Htabs & Hseq).
  unfold create_db_ok, create_db, run_create_db, entries_table.
  rewrite Hrun. cbn [fst snd]. rewrite Htabs.
  split; [done|]. split; [apply lookup_insert_eq|].
  split; [apply (with_filename_cells t (mk_row 0 []) Hno)|].
  split; [reflexivity|].
  split; [intros r c0; by apply (with_filename_cells t r Hno)|].
  split; [|split].
  - intros Hpk Hfit r Hr.
    apply (with_filename_cells t r Hno); [done|].
    unfold rows_fit in Hfit. rewrite Forall_forall in Hfit. by apply Hfit.
  - intros n Hn. by apply lookup_insert_ne.
  - exact Hseq.
Qed.

Lemma X7_backfill_adds_filename_witness :
  entries_table (create_db plain_store_no_filename)
  = Some (with_filename plain_table_no_filename)
  /\ (forall r, r ∈ tbl_rows plain_table_no_filename ->
                cell (with_filename plain_table_no_filename) r "filename"
                = VNull).
Proof.
  assert (H1 : entries_table plain_store_no_filename
               = Some plain_table_no_filename) by (vm_compute; reflexivity).
  assert (H2 : legacy_marked plain_table_no_filename = false)
    by (vm_compute; reflexivity).
  assert (H3 : has_column plain_table_no_filename "filename" = false)
    by (vm_compute; reflexivity).
  assert (H4 : has_column plain_table_no_filename "timestamp" = true)
    by (vm_compute; reflexivity).
  assert (H5 : db_tables plain_store_no_filename !! "idx_timestamp"%string
               = None) by (vm_compute; reflexivity).
  destruct (X7_backfill_adds_filename plain_store_no_filename
              plain_table_no_filename H1 H2 H3 H4 H5)
    as (_ & Hent & _ & _ & _ & Hnull & _).
  split; [exact Hent|]. apply Hnull.
  - vm_compute. reflexivity.
  - repeat constructor.
Defined.

(** ** After the migration *)

Section AfterMigration.

Lemma create_db_legacy (db : database) (t : table) :
  legacy db t -> entries_table (create_db db) = Some (migrated_table t).
Proof.
  intros Hleg. destruct (migration_run db t Hleg) as (c & Hrun & Hent & _).
  unfold create_db, run_create_db. by rewrite Hrun.
Qed.

Lemma migrated_aligned (db : database) (t : table) :
  legacy db t ->
  Forall (fun r => aligned_blob (cell t r "embedding")) (tbl_rows t) ->
  embeddings_aligned (create_db db).
Proof.
  intros Hleg Hal. unfold embeddings_aligned.
  rewrite (create_db_legacy db t Hleg). simpl tbl_rows.
  apply Forall_map. eapply Forall_impl; [exact Hal|]. intros r Hr. simpl.
  rewrite migrated_cell; [done|apply Hleg..|].
  do 5 apply list_elem_of_further. apply list_elem_of_here.
Qed.

End AfterMigration.

(** X8: after [create_db] has migrated a legacy store whose embeddings are
    well-formed blobs, [get_all_entries] returns one entry per old row, and
    for every old row an entry with that row's id, app, title, text,
    timestamp and filename (None where the old table had no filename column
    or no value) and with the decoded embedding of that row. *)
Theorem X8_migrated_store_read_back (db : database) (t : table) :
  legacy db t ->
  Forall (fun r => aligned_blob (cell t r "embedding")) (tbl_rows t) ->
  exists es,
    get_all_entries None (create_db db) = Returned es /\
    length es = length (tbl_rows t) /\
    forall r, r ∈ tbl_rows t ->
      exists e, e ∈ es /\
        stored_entry t r = Returned e /\
        (has_column t "filename" = false -> e_filename e = VNull).
Proof.
  intros Hleg Hal.
  pose proof (create_db_legacy db t Hleg) as Hent.
  destruct (get_all_entries_total (create_db db) (migrated_table t) Hent)
    as (es & Hes & Hrows).
  { apply current_shape_selectable. by split. }
  { by apply (migrated_aligned db t). }
  exists es. split; [exact Hes|]. split.
  - pose proof (entries_of_rows_spec _ _ _ Hrows) as H2.
    apply Forall2_length in H2. rewrite <- H2.
    rewrite (Permutation_length (order_by_desc_perm _ _)). simpl.
    apply length_map.
  - intros r Hr.
    destruct (entries_of_rows_all_decode (migrated_table t) _ es
                (migrated_row t r) Hrows) as (e & emb & He & Hemb & Heq).
    { rewrite order_by_desc_perm. simpl. by apply list_elem_of_fmap_2. }
    assert (Hcell : forall c, c ∈ canonical_columns ->
              cell (migrated_table t) (migrated_row t r) c = cell t r c).
    { intros c Hc. apply migrated_cell; [apply Hleg..|done]. }
    assert (Hcan : forall c, In c canonical_columns -> c ∈ canonical_columns)
      by (intros c Hc; by apply list_elem_of_In).
    rewrite (Hcell "embedding"%string) in Hemb by (apply Hcan; simpl; tauto).
    rewrite (Hcell "id"%string), (Hcell "app"%string),
      (Hcell "title"%string), (Hcell "text"%string),
      (Hcell "timestamp"%string), (Hcell "filename"%string) in Heq
      by (apply Hcan; simpl; tauto).
    exists e. split; [exact He|]. split.
    + unfold stored_entry. rewrite Hemb. simpl. by rewrite Heq.
    + intros Hno. rewrite Heq. simpl. by apply missing_column_null.
Qed.

Lemma X8_migrated_store_read_back_witness :
  exists es,
    get_all_entries None (create_db legacy_store_no_filename) = Returned es /\
    length es = 2%nat /\
    forall r, r ∈ legacy_rows ->
      exists e, e ∈ es /\
        stored_entry (mk_table legacy_body_no_filename legacy_cols_no_filename
                        (Some "id"%string) legacy_rows) r = Returned e /\
        (has_column (mk_table legacy_body_no_filename legacy_cols_no_filename
                       (Some "id"%string) legacy_rows) "filename" = false ->
         e_filename e = VNull).
Proof.
  apply (X8_migrated_store_read_back legacy_store_no_filename
           (mk_table legacy_body_no_filename legacy_cols_no_filename
              (Some "id"%string) legacy_rows)).
  - split.
    + vm_compute. reflexivity.
    + vm_compute. reflexivity.
    + vm_compute. reflexivity.
    + vm_compute. reflexivity.
    + apply (bool_decide_unpack _). vm_compute. exact I.
    + vm_compute. reflexivity.
    + vm_compute. reflexivity.
    + vm_compute. reflexivity.
  - repeat constructor; eexists; (split; [vm_compute; reflexivity|]);
      vm_compute; reflexivity.
Defined.

(** X9: once [create_db] has migrated a legacy store, an [insert_entry]
    with a timestamp that a stored row already has goes through: it returns
    an id larger than the rowid of every migrated row (given a timestamp the
    store can hold and room for one more id). *)
Theorem X9_duplicate_timestamp_accepted_after_migration (db : database)
    (t : table) (r : row) (text : string) (timestamp : Z)
    (embedding : ndarray) (ws : list word32) (app title : string)
    (filename : option string) :
  legacy db t ->
  r ∈ tbl_rows t ->
  cell t r "timestamp" = VInt timestamp ->
  in_int64 timestamp = true ->
  astype_float32 embedding = Returned ws ->
  next_id (create_db db) (migrated_table t) <= int64_max ->
  exists id db',
    insert_entry None text timestamp embedding app title filename
      (create_db db) = (Returned (Some id), db') /\
    (forall r', r' ∈ tbl_rows t -> row_id r' < id) /\
    exists t', entries_table db' = Some t' /\
               length (tbl_rows t') = S (length (tbl_rows t)).
Proof.
  intros Hleg Hr Hcell Hts Hws Hroom.
  pose proof (create_db_legacy db t Hleg) as Hent.
  assert (Hshape : current_shape (migrated_table t)) by by split.
  destruct (encode_decodes _ _ Hws) as (Henc & _ & _).
  eexists _, _. split; [|split].
  - eapply insert_entry_success; [exact Henc|exact Hts|].
    by apply insert_row_current.
  - intros r' Hr'.
    assert (Hin : migrated_row t r' ∈ tbl_rows (migrated_table t))
      by (simpl; by apply list_elem_of_fmap_2).
    apply row_id_le_max in Hin. simpl row_id in Hin.
    unfold next_id. lia.
  - eexists. split; [apply lookup_insert_eq|]. simpl.
    rewrite length_app, length_map. simpl. lia.
Qed.

Lemma X9_duplicate_timestamp_accepted_after_migration_witness :
  exists id db',
    insert_entry None "again" 1000 sample_embedding "Notes" "Untitled" None
      (create_db legacy_store) = (Returned (Some id), db') /\
    (forall r', r' ∈ legacy_rows -> row_id r' < id) /\
    exists t', entries_table db' = Some t' /\
               length (tbl_rows t') = 3%nat.
Proof.
  eapply (X9_duplicate_timestamp_accepted_after_migration legacy_store
            (mk_table legacy_body legacy_cols (Some "id"%string) legacy_rows)
            (mk_row 1 [VNull; VText "Notes"; VText "Untitled"; VText "hello";
                       VInt 1000; VBlob [0; 0; 128; 63]; VText "shot1.png"])
            "again" 1000 sample_embedding).
  - split.
    + vm_compute. reflexivity.
    + vm_compute. reflexivity.
    + vm_compute. reflexivity.
    + vm_compute. reflexivity.
    + apply (bool_decide_unpack _). vm_compute. exact I.
    + vm_compute. reflexivity.
    + vm_compute. reflexivity.
    + vm_compute. reflexivity.
  - apply list_elem_of_here.
  - vm_compute. reflexivity.
  - vm_compute. reflexivity.
  - vm_compute. reflexivity.
  - vm_compute. discriminate.
Defined.

(** ** A migration that cannot start *)

Section BlockedMigration.

#[local] Arguments alter_table_rename : simpl never.
#[local] Arguments select_master_sql : simpl never.
#[local] Arguments contains : simpl never.

Lemma blocked_run (db : database) (t : table) :
  entries_table db = Some t ->
  legacy_marked t = true ->
  name_taken db "entries_old" = true ->
  with_connection None create_db_body db
  = (None, mk_conn db db false [SelectMasterSql "entries"] 3 None).
Proof.
  unfold entries_table, legacy_marked. intros Ht Hm Htaken.
  unfold with_connection, connect. rewrite bool_decide_eq_false_2 by done.
  unfold create_db_body.
  step_exec.
  2:{ reflexivity. }
  unfold select_master_sql, rows_cursor. cbn [cur_rows]. rewrite Ht.
  cbn [head migration_needed]. rewrite Hm.
  unfold migrate. rewrite bind_assoc.
  erewrite bind_execute_err; [reflexivity|reflexivity|].
  cbn [exec working]. unfold alter_table_rename. by rewrite Ht, Htaken.
Qed.

End BlockedMigration.

(** X10: when the stored definition carries the legacy marker but a table
    or index named [entries_old] already exists, the rename is refused,
    [create_db] swallows the error after the detection alone, and the store
    is left exactly as it was, UNIQUE constraint included. *)
Theorem X10_migration_blocked_by_entries_old (db : database) (t : table) :
  entries_table db = Some t ->
  legacy_marked t = true ->
  name_taken db "entries_old" = true ->
  create_db db = db /\
  create_db_ok db = false /\
  create_db_trace db = [SelectMasterSql "entries"].
Proof.
  intros Ht Hm Htaken.
  unfold create_db, create_db_ok, create_db_trace, run_create_db.
  rewrite (blocked_run db t Ht Hm Htaken). repeat split.
Qed.

Lemma X10_migration_blocked_by_entries_old_witness :
  create_db blocked_store = blocked_store /\
  create_db_ok blocked_store = false /\
  create_db_trace blocked_store = [SelectMasterSql "entries"].
Proof.
  eapply (X10_migration_blocked_by_entries_old blocked_store).
  - vm_compute. reflexivity.
  - vm_compute. reflexivity.
  - vm_compute. reflexivity.
Defined.

(** ** A store failure in the middle of the migration *)

Section MigrationSteps.

#[local] Arguments create_index : simpl never.
#[local] Arguments has_column : simpl never.
#[local] Arguments insert_all : simpl never.
#[local] Arguments copied_columns : simpl never.

Lemma legacy_old_free_tables (db : database) (t : table) :
  legacy db t -> db_tables db !! "entries_old"%string = None.
Proof.
  intros Hleg. pose proof (legacy_old_free _ _ Hleg) as H.
  apply orb_false_iff in H as [H _]. apply bool_decide_eq_false in H.
  by apply eq_None_not_Some.
Qed.

Lemma step_rename (db : database) (t : table) :
  legacy db t ->
  alter_table_rename "entries" "entries_old" db = Ok (renamed db t).
Proof.
  intros Hleg. unfold alter_table_rename.
  pose proof (legacy_table _ _ Hleg) as Ht. unfold entries_table in Ht.
  by rewrite Ht, (legacy_old_free _ _ Hleg).
Qed.

Lemma step_create (db : database) (t : table) :
  legacy db t ->
  create_table false "entries" entries_body entries_cols entries_pk
    (renamed db t) = Ok (recreated db t).
Proof.
  intros Hleg. unfold create_table, renamed. cbn [db_tables db_indexes].
  rewrite lookup_insert_ne, lookup_delete_eq by done.
  rewrite lookup_fmap, (legacy_no_index _ _ Hleg).
  rewrite !bool_decide_eq_false_2 by by intros [? ?]. reflexivity.
Qed.

Lemma step_pragma (db : database) (t : table) :
  pragma_table_info "entries_old" (recreated db t)
  = imap (table_info_row t) (tbl_cols t).
Proof.
  unfold pragma_table_info, recreated, renamed. cbn [db_tables].
  by rewrite lookup_insert_ne, lookup_insert_eq.
Qed.

Lemma step_copy (db : database) (t : table) :
  legacy db t ->
  exists db_i,
    insert_select "entries" (copied_columns t) "entries_old" (recreated db t)
      = Ok db_i /\
    db_tables db_i =
      <["entries"%string := migrated_table t]> (db_tables (recreated db t)).
Proof.
  intros Hleg.
  destruct (copy_rows t (tbl_rows t) (legacy_pk _ _ Hleg) (legacy_id _ _ Hleg)
              (recreated db t) []) as (db1 & Hall & Htabs & _).
  { apply lookup_insert_eq. }
  { exact (legacy_rowids _ _ Hleg). }
  exists db1. split; [|exact Htabs].
  unfold insert_select, recreated, renamed. cbn [db_tables].
  rewrite lookup_insert_eq.
  rewrite copied_in_new, (copied_nonempty t (legacy_id _ _ Hleg)).
  cbn [negb orb]. unfold select_rows. cbn [db_tables].
  rewrite lookup_insert_ne, lookup_insert_eq by done.
  rewrite copied_in_old. unfold option_list.
  cbn [option_rect forallb andb]. exact Hall.
Qed.

Lemma step_drop (db db_i : database) (t : table) :
  db_tables db_i =
    <["entries"%string := migrated_table t]> (db_tables (recreated db t)) ->
  exists db_d,
    drop_table "entries_old" db_i = Ok db_d /\
    db_tables db_d = delete "entries_old"%string (db_tables db_i).
Proof.
  intros Htabs. unfold drop_table. rewrite Htabs.
  unfold recreated, renamed. cbn [db_tables].
  rewrite lookup_insert_ne, lookup_insert_ne, lookup_insert_eq by done.
  by eexists.
Qed.

End MigrationSteps.

Section FaultedMigration.

#[local] Arguments create_index : simpl never.
#[local] Arguments create_table : simpl never.
#[local] Arguments alter_table_rename : simpl never.
#[local] Arguments alter_table_add_column : simpl never.
#[local] Arguments drop_table : simpl never.
#[local] Arguments insert_select : simpl never.
#[local] Arguments select_rows : simpl never.
#[local] Arguments select_master_sql : simpl never.
#[local] Arguments pragma_table_info : simpl never.
#[local] Arguments contains : simpl never.
#[local] Arguments has_column : simpl never.
#[local] Arguments copied_columns : simpl never.

Lemma bind_execute_cases {B} (s : stmt) (k : cursor -> M B) (c : conn) :
  bind (execute s) k c =
  if bool_decide (fault_at c = Some (ops c))
  then (Err OperationalError, tick c)
  else match exec s (working c) with
       | Ok (db', cur) =>
           k cur (mk_conn (if in_txn c || is_dml s then committed c else db')
                          db' (in_txn c || is_dml s) (trace c ++ [s])
                          (S (ops c)) (fault_at c))
       | Err e =>
           (Err e, mk_conn (committed c) (working c) (in_txn c || is_dml s)
                           (trace c) (S (ops c)) (fault_at c))
       end.
Proof.
  unfold bind, execute, faulty.
  destruct (bool_decide (fault_at c = Some (ops c))); [done|].
  by destruct (exec s (working c)) as [[db' cur]|e].
Qed.

Ltac fault_here :=
  subst; cbn [snd committed rollback tick];
  eexists; split; [reflexivity|];
  split; [|split; [|split]]; intros Hp;
  repeat (destruct Hp as [Hp|Hp]; try discriminate Hp);
  try discriminate Hp; try reflexivity;
  try (destruct Hp as (k & Hk & Hle); injection Hk as <-; lia).

Lemma faulted_run (db : database) (t : table) (fault : option nat) :
  legacy db t ->
  exists db',
    committed (run_create_db fault db) = db' /\
    outcome_of_fault db t fault db'.
Proof.
  intros Hleg. pose proof Hleg as [Ht Hm _ _ _ _ _ _].
  unfold entries_table, legacy_marked in *.
  unfold outcome_of_fault, run_create_db, with_connection, connect.
  case_bool_decide as H0; [fault_here|].
  unfold create_db_body.
  rewrite bind_execute_cases. cbn [fault_at ops working exec].
  case_bool_decide as H1; [fault_here|].
  cbn [in_txn is_dml orb committed working trace ops fault_at app].
  unfold select_master_sql, rows_cursor. cbn [cur_rows]. rewrite Ht.
  cbn [head migration_needed]. rewrite Hm.
  unfold migrate. rewrite bind_assoc, bind_execute_cases.
  cbn [fault_at ops working exec].
  case_bool_decide as H2; [fault_here|].
  rewrite (step_rename db t Hleg). cbn [lift].
  cbn [in_txn is_dml orb committed working trace ops fault_at app].
  rewrite bind_assoc, bind_execute_cases. cbn [fault_at ops working exec].
  case_bool_decide as H3; [fault_here|].
  rewrite (step_create db t Hleg). cbn [lift].
  cbn [in_txn is_dml orb committed working trace ops fault_at app].
  rewrite bind_assoc, bind_execute_cases. cbn [fault_at ops working exec].
  case_bool_decide as H4; [fault_here|].
  cbn [in_txn is_dml orb committed working trace ops fault_at app].
  unfold rows_cursor. cbn [cur_rows]. rewrite step_pragma.
  rewrite common_columns_copied.
  destruct (step_copy db t Hleg) as (db_i & Hcopy & Htabs_i).
  rewrite bind_assoc, bind_execute_cases. cbn [fault_at ops working exec].
  case_bool_decide as H5; [fault_here|].
  rewrite Hcopy. cbn [lift].
  cbn [in_txn is_dml orb committed working trace ops fault_at app].
  destruct (step_drop db db_i t Htabs_i) as (db_d & Hdrop & Htabs_d).
  rewrite bind_assoc, bind_execute_cases. cbn [fault_at ops working exec].
  case_bool_decide as H6; [fault_here|].
  rewrite Hdrop. cbn [lift].
  cbn [in_txn is_dml orb committed working trace ops fault_at app].
  rewrite bind_ret.
  assert (Hent_d : db_tables db_d !! "entries"%string = Some (migrated_table t)).
  { rewrite Htabs_d, Htabs_i.
    by rewrite lookup_delete_ne, lookup_insert_eq. }
  assert (Hold_d : db_tables db_d !! "entries_old"%string = None).
  { rewrite Htabs_d. apply lookup_delete_eq. }
  destruct (create_index_run db_d (migrated_table t) Hent_d)
    as (db_x & Hci & Htabs_x).
  { rewrite Htabs_d, Htabs_i. unfold recreated, renamed. cbn [db_tables].
    rewrite lookup_delete_ne, !lookup_insert_ne, lookup_delete_ne by done.
    exact (legacy_idx_free _ _ Hleg). }
  { vm_compute. reflexivity. }
  rewrite bind_execute_cases. cbn [fault_at ops working exec].
  case_bool_decide as H7; [fault_here|].
  rewrite Hci. cbn [lift].
  cbn [in_txn is_dml orb committed working trace ops fault_at app].
  assert (Hsel : select_rows ["filename"%string] "entries" None (Some 1%nat)
                   db_x
                 = Ok (map (fun r => map (cell (migrated_table t) r)
                                        ["filename"%string])
                           (take 1 (tbl_rows (migrated_table t))))).
  { unfold select_rows. rewrite Htabs_x, Hent_d. reflexivity. }
  assert (Halt : alter_table_add_column "entries" filename_col "filename TEXT"
                   db_x = Err OperationalError).
  { unfold alter_table_add_column. rewrite Htabs_x, Hent_d. reflexivity. }
  assert (Hdone : entries_table db_x = Some (migrated_table t) /\
                  db_tables db_x !! "entries_old"%string = None).
  { unfold entries_table. by rewrite Htabs_x. }
  unfold bind at 1. unfold ensure_filename, catch_operational.
  rewrite bind_execute_cases. cbn [fault_at ops working exec].
  case_bool_decide as H8.
  - subst fault. unfold tick.
    cbn [fault_at ops working committed in_txn trace].
    rewrite bind_execute_cases. cbn [fault_at ops working exec].
    rewrite bool_decide_eq_false_2 by done.
    rewrite Halt. cbn [lift ret]. unfold commit, faulty.
    cbn [fault_at ops]. rewrite bool_decide_eq_false_2 by done.
    cbn [snd exit_ok committed working].
    eexists; split; [reflexivity|].
    split; [|split; [|split]]; intros Hp;
      repeat (destruct Hp as [Hp|Hp]; try discriminate Hp);
      try discriminate Hp; exact Hdone.
  - rewrite Hsel.
    cbn [ret in_txn is_dml orb committed working trace ops fault_at app].
    unfold commit, faulty. cbn [fault_at ops].
    case_bool_decide as H9; [fault_here|].
    cbn [snd exit_ok committed working].
    eexists; split; [reflexivity|].
    split; [|split; [|split]]; intros Hp;
      repeat (destruct Hp as [Hp|Hp]; try done);
      first [done | exact Hdone].
Qed.

End FaultedMigration.

(** X11: the migration is not atomic.  With a single store failure at
    operation [k] of a [create_db] run on a legacy store (0 opening the
    connection, 1 the detection, 2 the rename, 3 the creation of the new
    table, 4 the column listing, 5 the copy, 6 the drop, 7 the index, 8 the
    filename probe, 9 the commit): a failure up to the rename leaves the
    store as it was; a failure at the creation leaves the rows in
    [entries_old] and no [entries] table; a failure from the column listing
    to the commit, the probe apart, leaves the rows in [entries_old] and an
    empty new [entries] table, so that both readers return nothing and a
    later [create_db] leaves the tables as they are; a failure of the probe
    is absorbed and the migration completes as without any failure. *)
Theorem X11_store_failure_during_migration (db : database) (t : table)
    (fault : option nat) :
  legacy db t ->
  let db' := committed (run_create_db fault db) in
  (fault = Some 0%nat \/ fault = Some 1%nat \/ fault = Some 2%nat ->
   db' = db)
  /\ (fault = Some 3%nat ->
      entries_table db' = None /\
      db_tables db' !! "entries_old"%string = Some t)
  /\ (fault = Some 4%nat \/ fault = Some 5%nat \/ fault = Some 6%nat \/
      fault = Some 7%nat \/ fault = Some 9%nat ->
      entries_table db' = Some (new_entries []) /\
      db_tables db' !! "entries_old"%string = Some t /\
      get_all_entries None db' = Returned [] /\
      get_timestamps None db' = [] /\
      db_tables (create_db db') = db_tables db')
  /\ (fault = None \/ fault = Some 8%nat \/
      (exists k, fault = Some k /\ (10 <= k)%nat) ->
      entries_table db' = Some (migrated_table t) /\
      db_tables db' !! "entries_old"%string = None).
Proof.
  intros Hleg db'. subst db'.
  destruct (faulted_run db t fault Hleg) as (db' & -> & H012 & H3 & H4 & Hok).
  split; [exact H012|]. split; [|split; [|exact Hok]].
  - intros Hf. rewrite (H3 Hf). unfold entries_table, renamed. cbn [db_tables].
    split.
    + by rewrite lookup_insert_ne, lookup_delete_eq.
    + apply lookup_insert_eq.
  - intros Hf. rewrite (H4 Hf).
    assert (Hent : entries_table (recreated db t) = Some (new_entries []))
      by apply lookup_insert_eq.
    split; [exact Hent|]. split; [|split; [|split]].
    + unfold recreated, renamed. cbn [db_tables].
      by rewrite lookup_insert_ne, lookup_insert_eq.
    + rewrite get_all_entries_eq, Hent. reflexivity.
    + rewrite get_timestamps_eq, Hent. reflexivity.
    + rewrite (create_db_current (recreated db t) (new_entries []) Hent);
        [|vm_compute; reflexivity..].
      destruct (create_index true "idx_timestamp" "entries" "timestamp"
                  (recreated db t)) as [dbx|e] eqn:Hci; [|done].
      by apply create_index_tables in Hci as [-> _].
Qed.

Lemma X11_store_failure_during_migration_witness :
  entries_table (committed (run_create_db (Some 5%nat) legacy_store))
    = Some (new_entries []) /\
  db_tables (committed (run_create_db (Some 5%nat) legacy_store))
    !! "entries_old"%string
    = Some (mk_table legacy_body legacy_cols (Some "id"%string) legacy_rows) /\
  get_all_entries None (committed (run_create_db (Some 5%nat) legacy_store))
    = Returned [] /\
  get_timestamps None (committed (run_create_db (Some 5%nat) legacy_store))
    = [] /\
  db_tables (create_db (committed (run_create_db (Some 5%nat) legacy_store)))
    = db_tables (committed (run_create_db (Some 5%nat) legacy_store)).
Proof.
  assert (Hleg : legacy legacy_store
                   (mk_table legacy_body legacy_cols (Some "id"%string)
                             legacy_rows)).
  { split.
    - vm_compute. reflexivity.
    - vm_compute. reflexivity.
    - vm_compute. reflexivity.
    - vm_compute. reflexivity.
    - apply (bool_decide_unpack _). vm_compute. exact I.
    - vm_compute. reflexivity.
    - vm_compute. reflexivity.
    - vm_compute. reflexivity. }
  destruct (X11_store_failure_during_migration legacy_store _ (Some 5%nat) Hleg)
    as (_ & _ & H & _).
  apply H. right. left. reflexivity.
Defined.

(** ** What a successful [create_db] guarantees *)

Section Postcondition.

#[local] Arguments has_column : simpl never.

Lemma bind_inv {A B} (m : M A) (k : A -> M B) (c c' : conn) (b : B) :
  bind m k c = (Ok b, c') ->
  exists a c1, m c = (Ok a, c1) /\ k a c1 = (Ok b, c').
Proof.
  unfold bind. destruct (m c) as [[a|e] c1]; [|done]. intros H. by exists a, c1.
Qed.

Lemma execute_inv (s : stmt) (c c1 : conn) (cur : cursor) :
  fault_at c = None ->
  execute s c = (Ok cur, c1) ->
  exists db', exec s (working c) = Ok (db', cur) /\
              working c1 = db' /\ fault_at c1 = None.
Proof.
  intros Hf. rewrite execute_no_fault by done.
  destruct (exec s (working c)) as [[db' cur']|e]; [|done].
  intros [= <- <-]. by exists db'.
Qed.

Lemma lift_inv (r : result database) (db' : database) (cur : cursor) :
  lift r = Ok (db', cur) -> r = Ok db'.
Proof. destruct r; [|done]. by intros [= <- _]. Qed.

Lemma has_column_cols (t t' : table) (c : string) :
  tbl_cols t' = tbl_cols t -> has_column t' c = has_column t c.
Proof. unfold has_column. by intros ->. Qed.

Lemma insert_all_cols (target : string) (cs : list string)
    (rows : list (list value)) :
  forall (db db' : database) (t : table),
    insert_all target cs rows db = Ok db' ->
    db_tables db !! target = Some t ->
    exists t', db_tables db' !! target = Some t' /\ tbl_cols t' = tbl_cols t.
Proof.
  induction rows as [|vs rows IH]; intros db db' t; simpl.
  - intros [= <-] Ht. by exists t.
  - destruct (insert_row target cs vs db) as [[db1 rid]|e] eqn:Hrow; [|done].
    intros Hall Ht.
    apply insert_row_ok in Hrow as (t0 & Ht0 & _ & _ & _ & Htabs & _).
    rewrite Ht in Ht0. injection Ht0 as <-.
    eapply IH in Hall; [|rewrite Htabs; apply lookup_insert_eq].
    exact Hall.
Qed.

Lemma insert_select_cols (target : string) (cs : list string)
    (source : string) (db db' : database) :
  insert_select target cs source db = Ok db' ->
  exists t t', db_tables db !! target = Some t /\
               db_tables db' !! target = Some t' /\
               tbl_cols t' = tbl_cols t.
Proof.
  unfold insert_select.
  destruct (db_tables db !! target) as [t|] eqn:Ht; [|done].
  destruct (_ || _); [done|].
  destruct (select_rows cs source None None db) as [rows|e]; [|done].
  intros Hall. destruct (insert_all_cols _ _ _ _ _ _ Hall Ht) as (t' & ? & ?).
  by exists t, t'.
Qed.

Lemma create_index_exists (iname tname col : string) (db db' : database) :
  create_index true iname tname col db = Ok db' ->
  is_Some (db_indexes db' !! iname) /\ is_Some (db_tables db !! tname).
Proof.
  unfold create_index. destruct (db_tables db !! tname) as [t|]; [|done].
  case_bool_decide; [done|]. case_bool_decide as Hi.
  - intros [= <-]. split; [done|by eexists].
  - destruct (has_column t col); [|done]. intros [= <-]. simpl.
    rewrite lookup_insert_eq. split; by eexists.
Qed.

(** After the probe and the backfill the column is there. *)
Lemma ensure_filename_ok (c c' : conn) :
  fault_at c = None ->
  ensure_filename c = (Ok tt, c') ->
  is_Some (db_tables (working c) !! "entries"%string) ->
  (exists t, db_tables (working c') !! "entries"%string = Some t /\
             has_column t "filename" = true) /\
  db_indexes (working c') = db_indexes (working c) /\
  fault_at c' = None.
Proof.
  intros Hf Hrun [t Ht]. unfold ensure_filename, catch_operational, bind in Hrun.
  rewrite execute_no_fault in Hrun by done. cbn [exec] in Hrun.
  unfold select_rows in Hrun. rewrite Ht in Hrun. cbn [forallb] in Hrun.
  destruct (has_column t "filename") eqn:Hcol.
  - cbn in Hrun. injection Hrun as <-. cbn [working fault_at].
    split; [by exists t|done].
  - cbn [andb] in Hrun. lazy beta iota in Hrun.
    rewrite execute_no_fault in Hrun by done. cbn [exec working] in Hrun.
    unfold alter_table_add_column in Hrun. rewrite Ht in Hrun.
    change (col_name filename_col) with "filename"%string in Hrun.
    rewrite Hcol in Hrun. cbn in Hrun. injection Hrun as <-.
    cbn [working fault_at db_tables db_indexes].
    rewrite lookup_insert_eq. split; [|done]. eexists. split; [done|].
    apply (with_filename_cells t (mk_row 0 []) Hcol).
Qed.

End Postcondition.

Section FaultPlan.

Lemma keeps_fault_execute (s : stmt) : keeps_fault (execute s).
Proof.
  intros c r c'. unfold execute. destruct (faulty c); [by intros [= <- <-]|].
  destruct (exec s (working c)) as [[db' cur]|e]; by intros [= <- <-].
Qed.

Lemma keeps_fault_ret {A} (a : A) : keeps_fault (ret a).
Proof. by intros c r c' [= <- <-]. Qed.

Lemma keeps_fault_bind {A B} (m : M A) (k : A -> M B) :
  keeps_fault m -> (forall a, keeps_fault (k a)) -> keeps_fault (bind m k).
Proof.
  intros Hm Hk c r c'. unfold bind.
  destruct (m c) as [[a|e] c1] eqn:Hmc.
  - intros Hka. rewrite (Hk a _ _ _ Hka). eauto.
  - intros [= <- <-]. eauto.
Qed.

Lemma keeps_fault_branch (b : bool) :
  keeps_fault
    (if b then migrate
     else execute (CreateTable true "entries" entries_body entries_cols
                     entries_pk) ;;; ret tt).
Proof.
  destruct b; unfold migrate;
    repeat first [ apply keeps_fault_bind; [|intros ?]
                 | apply keeps_fault_execute
                 | apply keeps_fault_ret ].
Qed.

End FaultPlan.

(** X12: whenever [create_db] runs to its end without a store error, the
    store afterwards has an [entries] table with a [filename] column and an
    index named [idx_timestamp], whatever it held before. *)
Theorem X12_create_db_success_postcondition (db : database) :
  create_db_ok db = true ->
  exists t,
    entries_table (create_db db) = Some t /\
    has_column t "filename" = true /\
    is_Some (db_indexes (create_db db) !! "idx_timestamp"%string).
Proof.
  unfold create_db_ok, create_db, run_create_db, with_connection, connect.
  rewrite (bool_decide_eq_false_2 (None = Some 0%nat)) by done.
  destruct (create_db_body _) as [[[]|e] c'] eqn:Hrun; cbn [fst snd];
    [intros _|by intros [? ?]%bool_decide_eq_true].
  unfold create_db_body in Hrun.
  apply bind_inv in Hrun as (cur & c1 & H1 & Hrun).
  apply execute_inv in H1 as (db1 & _ & _ & Hf1); [|done].
  apply bind_inv in Hrun as ([] & c2 & Hbranch & Hrun).
  apply keeps_fault_branch in Hbranch. rewrite Hf1 in Hbranch.
  apply bind_inv in Hrun as (cur3 & c3 & H3 & Hrun).
  apply execute_inv in H3 as (db3 & He3 & Hw3 & Hf3); [|done].
  cbn [exec] in He3. apply lift_inv in He3.
  destruct (create_index_tables _ _ _ _ _ _ He3) as [Htabs _].
  destruct (create_index_exists _ _ _ _ _ He3) as [Hidx Hent].
  apply bind_inv in Hrun as ([] & c4 & H4 & Hrun).
  apply ensure_filename_ok in H4 as ((t & Ht & Hcol) & Hidx4 & Hf4);
    [|done|by rewrite Hw3, Htabs].
  rewrite (commit_no_fault _ Hf4) in Hrun. injection Hrun as <-.
  cbn [exit_ok committed working]. exists t.
  split; [exact Ht|]. split; [exact Hcol|]. by rewrite Hidx4, Hw3.
Qed.

Lemma X12_create_db_success_postcondition_witness :
  exists t,
    entries_table (create_db plain_store_no_filename) = Some t /\
    has_column t "filename" = true /\
    is_Some (db_indexes (create_db plain_store_no_filename)
               !! "idx_timestamp"%string).
Proof.
  apply (X12_create_db_success_postcondition plain_store_no_filename).
  vm_compute. reflexivity.
Defined.

(** ** Rows of an unmarked table under store failures *)

Section UnmarkedUnderFault.

#[local] Arguments select_master_sql : simpl never.
#[local] Arguments contains : simpl never.

Lemma unmarked_run (db : database) (t : table) (fault : option nat) :
  entries_table db = Some t ->
  legacy_marked t = false ->
  kept (Some t) (committed (run_create_db fault db)).
Proof.
  intros Ht Hm.
  assert (Hk : kept (Some t) db) by by exists t.
  unfold run_create_db, with_connection, connect.
  case_bool_decide as H0; [exact Hk|].
  unfold create_db_body. rewrite bind_execute_cases.
  cbn [fault_at ops working exec].
  case_bool_decide as H1; [exact Hk|].
  cbn [in_txn is_dml orb committed working trace ops fault_at app].
  unfold select_master_sql, rows_cursor. cbn [cur_rows].
  unfold entries_table, legacy_marked in Ht, Hm. rewrite Ht.
  cbn [head migration_needed]. rewrite Hm.
  match goal with
  | |- context [let (_, _) := ?m ?c in _] =>
      pose proof (preserves_plain_branch (Some t) c) as Hp;
      destruct (m c) as [r c'] eqn:Hrun
  end.
  destruct (Hp r c' eq_refl) as [_ Hcom Hwork].
  { split; cbn [trace committed working]; [by repeat constructor|done..]. }
  destruct r; assumption.
Qed.

End UnmarkedUnderFault.

(** X13: [create_db] never loses a row of a table that carries no legacy
    marker: whatever single store failure happens during the call, the
    [entries] table afterwards holds exactly the rows it held before. *)
Theorem X13_unmarked_rows_survive_any_failure (db : database) (t : table)
    (fault : option nat) :
  entries_table db = Some t ->
  legacy_marked t = false ->
  exists t',
    entries_table (committed (run_create_db fault db)) = Some t' /\
    tbl_rows t' = tbl_rows t.
Proof. intros Ht Hm. exact (unmarked_run db t fault Ht Hm). Qed.

Lemma X13_unmarked_rows_survive_any_failure_witness :
  exists t',
    entries_table (committed (run_create_db (Some 5%nat)
                                plain_store_no_filename)) = Some t' /\
    tbl_rows t' = tbl_rows plain_table_no_filename.
Proof.
  apply (X13_unmarked_rows_survive_any_failure plain_store_no_filename
           plain_table_no_filename (Some 5%nat)).
  - vm_compute. reflexivity.
  - vm_compute. reflexivity.
Defined.

(** X14: on a table that answers the SELECT, a row whose [embedding] is
    not a blob (NULL, an integer or text) makes [get_all_entries] raise to
    its caller instead of returning a list. *)
Theorem X14_non_blob_embedding_raises (db : database) (t : table) (r : row) :
  entries_table db = Some t ->
  selectable t = true ->
  r ∈ tbl_rows t ->
  (forall b, cell t r "embedding" <> VBlob b) ->
  exists e, get_all_entries None db = Raised e.
Proof.
  intros Ht Hsel Hr Hnb. rewrite get_all_entries_eq, Ht, Hsel.
  destruct (entries_of_rows _ _) as [es|e] eqn:Hes; [|by exists e].
  destruct (entries_of_rows_all_decode t _ es r Hes) as (_ & emb & _ & Hemb & _).
  { by rewrite order_by_desc_perm. }
  destruct (cell t r "embedding") as [|z|s|b]; try discriminate Hemb.
  by destruct (Hnb b).
Qed.

Lemma X14_non_blob_embedding_raises_witness :
  exists e,
    get_all_entries None
      (mk_db {[ "entries"%string :=
                  new_entries [mk_row 1 [VNull; VText "Notes"; VText "Untitled";
                                         VText "hello"; VInt 1000; VNull;
                                         VNull]] ]} ∅ ∅)
    = Raised e.
Proof.
  eapply (X14_non_blob_embedding_raises _ _
            (mk_row 1 [VNull; VText "Notes"; VText "Untitled"; VText "hello";
                       VInt 1000; VNull; VNull])).
  - vm_compute. reflexivity.
  - vm_compute. reflexivity.
  - apply list_elem_of_here.
  - intros b. vm_compute. discriminate.
Defined.
